(** * easyL: the share vault and the bonding-curve market

    A shallow embedding of [contracts/src/EasyLVault.sol] and
    [contracts/src/BondingCurve.sol] and the properties of their
    accounting, and of the decisions of the market-maker bot
    ([bot/src]) that calls them.

    Conventions.  A [uint256] is a [Z] in [0, MAX_UINT256]; Solidity 0.8
    checked arithmetic is written out ([add_chk], [sub_chk], [mul_chk]
    revert with [Panic_0x11]); the few [unchecked] blocks of the inherited
    ERC20 wrap modulo [2^256].  An [address] is an [N], [0] being
    [address(0)].  A call that reverts returns [Err e] and no state: the
    EVM rolls the whole call back, which [transact] makes explicit. *)

From Stdlib Require Import ZArith Lia List Bool.
From Stdlib Require String.
Import String.StringSyntax.
Delimit Scope string_scope with string.
From stdpp Require Import base option gmap fin_maps.
Import ListNotations.

Open Scope Z_scope.

(** ** Errors and the result monad *)

Definition address := N.

Inductive Error :=
| ZeroAmount
| ZeroAddress
| InsufficientLiquidity (requested available : Z)
| ExcessiveReduction (reduction managed : Z)
| InsufficientTokens (requested available : Z)
| Panic_0x11                      (* arithmetic overflow or underflow *)
| Panic_0x12                      (* division by zero *)
| MathOverflowedMulDiv
| ERC20InsufficientBalance (sender : address) (balance needed : Z)
| ERC20InsufficientAllowance (spender : address) (allowance needed : Z)
| ERC20InvalidSender (a : address)
| ERC20InvalidReceiver (a : address)
| OwnableUnauthorizedAccount (account : address)
| ReentrancyGuardReentrantCall.

Inductive result (A : Type) :=
| Ok (a : A)
| Err (e : Error).
Arguments Ok {A} a.
Arguments Err {A} e.

Definition rbind {A B} (m : result A) (k : A -> result B) : result B :=
  match m with
  | Ok a => k a
  | Err e => Err e
  end.

Declare Scope result_scope.
Delimit Scope result_scope with result.
Notation "x <~ m ;; k" := (rbind m (fun x => k))
  (at level 100, m at next level, right associativity) : result_scope.
Open Scope result_scope.

(** A top-level call: on a revert the state is the one before the call. *)
Definition transact {W A} (op : W -> result (A * W)) (w : W) : W * result A :=
  match op w with
  | Ok (a, w') => (w', Ok a)
  | Err e => (w, Err e)
  end.

(** ** Machine integers *)

Definition MAX_UINT256 : Z := 2 ^ 256 - 1.
Definition MIN_INT256 : Z := - 2 ^ 255.
Definition MAX_INT256 : Z := 2 ^ 255 - 1.

Definition is_uint256 (x : Z) : Prop := 0 <= x <= MAX_UINT256.
Definition is_int256 (x : Z) : Prop := MIN_INT256 <= x <= MAX_INT256.

Definition add_chk (x y : Z) : result Z :=
  if x + y <=? MAX_UINT256 then Ok (x + y) else Err Panic_0x11.

Definition sub_chk (x y : Z) : result Z :=
  if y <=? x then Ok (x - y) else Err Panic_0x11.

Definition mul_chk (x y : Z) : result Z :=
  if x * y <=? MAX_UINT256 then Ok (x * y) else Err Panic_0x11.

(** [unchecked { x + y }] and [unchecked { x - y }] on uint256. *)
Definition wrap (x : Z) : Z := x mod 2 ^ 256.

(** [-x] on int256: checked, so negating the minimum reverts. *)
Definition neg_int256 (x : Z) : result Z :=
  if x =? MIN_INT256 then Err Panic_0x11 else Ok (- x).

(** [uint256(x)] for an int256 [x]: the two's-complement reinterpretation. *)
Definition uint256_of_int256 (x : Z) : Z := x mod 2 ^ 256.

(** ** OpenZeppelin [Math]

    [Math.sol] is an imported library, not part of the repository; the two
    functions used are modelled on their documented contracts.  [mulDiv]
    "calculates floor(x * y / denominator) with full precision" and
    "throws if result overflows a uint256 or denominator == 0"; with
    [Rounding.Floor] nothing is added to it.  [sqrt] "returns the square
    root of a number", rounded towards zero. *)
Module Math.

Definition mulDiv (x y denominator : Z) : result Z :=
  if denominator =? 0 then Err Panic_0x12
  else
    let r := (x * y) / denominator in
    if r <=? MAX_UINT256 then Ok r else Err MathOverflowedMulDiv.

Inductive Rounding := Floor | Ceil | Trunc | Expand.

Definition unsignedRoundsUp (r : Rounding) : bool :=
  match r with Ceil | Expand => true | Floor | Trunc => false end.

Definition mulDivR (x y denominator : Z) (rounding : Rounding) : result Z :=
  r <~ mulDiv x y denominator ;;
  if unsignedRoundsUp rounding && (0 <? (x * y) mod denominator)
  then add_chk r 1
  else Ok r.

Definition sqrt (a : Z) : Z := Z.sqrt a.

End Math.

(** ** The inherited ERC20 ledger (OpenZeppelin v5)

    Both contracts are ERC20 tokens themselves, and the funding asset is
    one as well (the test suite's [MockUSDC] is this very contract).  The
    module follows [ERC20._update] and its callers: the total supply is
    increased with a checked addition, the balance writes are
    [unchecked]. *)
Module ERC20.

Record t := mk {
  balances : gmap address Z;
  allowances : gmap (address * address) Z;
  totalSupply : Z
}.

Definition empty : t := mk ∅ ∅ 0.

Definition balanceOf (tk : t) (account : address) : Z :=
  default 0 (balances tk !! account).

Definition allowance (tk : t) (owner spender : address) : Z :=
  default 0 (allowances tk !! (owner, spender)).

Definition set_balance (account : address) (v : Z) (tk : t) : t :=
  mk (<[account := v]> (balances tk)) (allowances tk) (totalSupply tk).

Definition set_allowance (owner spender : address) (v : Z) (tk : t) : t :=
  mk (balances tk) (<[(owner, spender) := v]> (allowances tk)) (totalSupply tk).

Definition set_totalSupply (v : Z) (tk : t) : t :=
  mk (balances tk) (allowances tk) v.

Definition _update (from to : address) (value : Z) (tk : t) : result t :=
  tk1 <~ (if (from =? 0)%N then
            ts <~ add_chk (totalSupply tk) value ;;
            Ok (set_totalSupply ts tk)
          else
            let fromBalance := balanceOf tk from in
            if fromBalance <? value
            then Err (ERC20InsufficientBalance from fromBalance value)
            else Ok (set_balance from (fromBalance - value) tk)) ;;
  if (to =? 0)%N
  then Ok (set_totalSupply (wrap (totalSupply tk1 - value)) tk1)
  else Ok (set_balance to (wrap (balanceOf tk1 to + value)) tk1).

Definition _transfer (from to : address) (value : Z) (tk : t) : result t :=
  if (from =? 0)%N then Err (ERC20InvalidSender 0%N)
  else if (to =? 0)%N then Err (ERC20InvalidReceiver 0%N)
  else _update from to value tk.

Definition _mint (account : address) (value : Z) (tk : t) : result t :=
  if (account =? 0)%N then Err (ERC20InvalidReceiver 0%N)
  else _update 0%N account value tk.

Definition _burn (account : address) (value : Z) (tk : t) : result t :=
  if (account =? 0)%N then Err (ERC20InvalidSender 0%N)
  else _update account 0%N value tk.

Definition _spendAllowance (owner spender : address) (value : Z) (tk : t)
  : result t :=
  let currentAllowance := allowance tk owner spender in
  if currentAllowance <? MAX_UINT256 then
    if currentAllowance <? value
    then Err (ERC20InsufficientAllowance spender currentAllowance value)
    else Ok (set_allowance owner spender (currentAllowance - value) tk)
  else Ok tk.

(** [transfer] and [transferFrom] as called by [msg_sender]. *)
Definition transfer (msg_sender to : address) (value : Z) (tk : t) : result t :=
  _transfer msg_sender to value tk.

Definition transferFrom (msg_sender from to : address) (value : Z) (tk : t)
  : result t :=
  tk1 <~ _spendAllowance from msg_sender value tk ;;
  _transfer from to value tk1.

(** The sum of all balances, and the ledger invariant that justifies the
    [unchecked] balance writes. *)
Definition sum_balances (tk : t) : Z :=
  map_fold (fun _ v acc => v + acc) 0 (balances tk).

Definition wf (tk : t) : Prop :=
  map_Forall (fun _ v => 0 <= v) (balances tk) /\
  sum_balances tk = totalSupply tk /\
  0 <= totalSupply tk <= MAX_UINT256.

End ERC20.

(** ** The share vault ([EasyLVault.sol]) *)
Module Vault.

Inductive Event :=
| Transfer (from to : address) (value : Z)
| Deposit (caller receiver : address) (assets shares : Z)
| Redeem (caller receiver : address) (shares assets : Z)
| FundsDeployed (amount : Z)
| FundsReturned (amount : Z)
| PnLReported (amount newManagedAssets : Z).

(** The contract's storage together with what it reads from the outside:
    its own address, the [Ownable] owner, the [ReentrancyGuard] status, its
    ERC20 share ledger, [managedAssets], the USDC ledger and the log of
    the events it has emitted. *)
Record State := mkState {
  self : address;
  owner : address;
  entered : bool;
  token : ERC20.t;
  managedAssets : Z;
  USDC : ERC20.t;
  events : list Event      (* the vault's own log; USDC's is not modelled *)
}.

Definition set_entered (b : bool) (w : State) : State :=
  mkState (self w) (owner w) b (token w) (managedAssets w) (USDC w) (events w).
Definition set_token (tk : ERC20.t) (w : State) : State :=
  mkState (self w) (owner w) (entered w) tk (managedAssets w) (USDC w) (events w).
Definition set_managedAssets (m : Z) (w : State) : State :=
  mkState (self w) (owner w) (entered w) (token w) m (USDC w) (events w).
Definition set_USDC (u : ERC20.t) (w : State) : State :=
  mkState (self w) (owner w) (entered w) (token w) (managedAssets w) u (events w).
Definition emit (e : Event) (w : State) : State :=
  mkState (self w) (owner w) (entered w) (token w) (managedAssets w) (USDC w)
          (events w ++ [e]).

Definition _DECIMALS : Z := 6.
Definition VIRTUAL_OFFSET : Z := 1000.

(** The state right after the constructor, on a given USDC ledger. *)
Definition init (this _owner : address) (usdc : ERC20.t) : State :=
  mkState this _owner false ERC20.empty 0 usdc [].

(** *** Modifiers *)

Definition nonReentrant {A} (body : State -> result (A * State)) (w : State)
  : result (A * State) :=
  if entered w then Err ReentrancyGuardReentrantCall
  else
    r <~ body (set_entered true w) ;;
    Ok (fst r, set_entered false (snd r)).

Definition onlyOwner (msg_sender : address) (w : State) : result unit :=
  if (owner w =? msg_sender)%N then Ok tt
  else Err (OwnableUnauthorizedAccount msg_sender).

(** *** The inherited token and the calls into USDC *)

Definition totalSupply (w : State) : Z := ERC20.totalSupply (token w).
Definition balanceOf (w : State) (a : address) : Z := ERC20.balanceOf (token w) a.

Definition _mint (account : address) (value : Z) (w : State) : result State :=
  tk <~ ERC20._mint account value (token w) ;;
  Ok (emit (Transfer 0%N account value) (set_token tk w)).

Definition _burn (account : address) (value : Z) (w : State) : result State :=
  tk <~ ERC20._burn account value (token w) ;;
  Ok (emit (Transfer account 0%N value) (set_token tk w)).

(** [USDC.safeTransfer(to, value)]: the vault is the caller. *)
Definition safeTransfer (to : address) (value : Z) (w : State) : result State :=
  u <~ ERC20.transfer (self w) to value (USDC w) ;;
  Ok (set_USDC u w).

(** [USDC.safeTransferFrom(from, to, value)]: the vault is the spender. *)
Definition safeTransferFrom (from to : address) (value : Z) (w : State)
  : result State :=
  u <~ ERC20.transferFrom (self w) from to value (USDC w) ;;
  Ok (set_USDC u w).

(** *** View functions *)

Definition decimals : Z := _DECIMALS.

Definition totalAssets (w : State) : result Z :=
  add_chk (ERC20.balanceOf (USDC w) (self w)) (managedAssets w).

Definition availableLiquidity (w : State) : Z :=
  ERC20.balanceOf (USDC w) (self w).

Definition convertToShares (assets : Z) (w : State) : result Z :=
  num <~ add_chk (totalSupply w) VIRTUAL_OFFSET ;;
  ta <~ totalAssets w ;;
  den <~ add_chk ta VIRTUAL_OFFSET ;;
  Math.mulDivR assets num den Math.Floor.

Definition convertToAssets (shares : Z) (w : State) : result Z :=
  ta <~ totalAssets w ;;
  num <~ add_chk ta VIRTUAL_OFFSET ;;
  den <~ add_chk (totalSupply w) VIRTUAL_OFFSET ;;
  Math.mulDivR shares num den Math.Floor.

Definition sharePrice (w : State) : result Z :=
  convertToAssets (10 ^ _DECIMALS) w.

(** *** User actions *)

Definition deposit (msg_sender : address) (assets : Z) (receiver : address)
  : State -> result (Z * State) :=
  nonReentrant (fun w =>
    if assets =? 0 then Err ZeroAmount else
    if (receiver =? 0)%N then Err ZeroAddress else
    shares <~ convertToShares assets w ;;
    if shares =? 0 then Err ZeroAmount else
    w <~ safeTransferFrom msg_sender (self w) assets w ;;
    w <~ _mint receiver shares w ;;
    Ok (shares, emit (Deposit msg_sender receiver assets shares) w)).

Definition redeem (msg_sender : address) (shares : Z) (receiver : address)
  : State -> result (Z * State) :=
  nonReentrant (fun w =>
    if shares =? 0 then Err ZeroAmount else
    if (receiver =? 0)%N then Err ZeroAddress else
    assets <~ convertToAssets shares w ;;
    if assets =? 0 then Err ZeroAmount else
    let liquidity := availableLiquidity w in
    if liquidity <? assets then Err (InsufficientLiquidity assets liquidity) else
    w <~ _burn msg_sender shares w ;;
    w <~ safeTransfer receiver assets w ;;
    Ok (assets, emit (Redeem msg_sender receiver shares assets) w)).

(** *** Owner actions *)

Definition deployFunds (msg_sender : address) (amount : Z) (w : State)
  : result (unit * State) :=
  _ <~ onlyOwner msg_sender w ;;
  if amount =? 0 then Err ZeroAmount else
  let liquidity := availableLiquidity w in
  if liquidity <? amount then Err (InsufficientLiquidity amount liquidity) else
  m <~ add_chk (managedAssets w) amount ;;
  let w := set_managedAssets m w in
  w <~ safeTransfer msg_sender amount w ;;
  Ok (tt, emit (FundsDeployed amount) w).

Definition returnFunds (msg_sender : address) (amount : Z) (w : State)
  : result (unit * State) :=
  _ <~ onlyOwner msg_sender w ;;
  if amount =? 0 then Err ZeroAmount else
  if managedAssets w <? amount
  then Err (ExcessiveReduction amount (managedAssets w)) else
  m <~ sub_chk (managedAssets w) amount ;;
  let w := set_managedAssets m w in
  w <~ safeTransferFrom msg_sender (self w) amount w ;;
  Ok (tt, emit (FundsReturned amount) w).

Definition reportPnL (msg_sender : address) (amount : Z) (w : State)
  : result (unit * State) :=
  _ <~ onlyOwner msg_sender w ;;
  w <~ (if 0 <? amount then
          m <~ add_chk (managedAssets w) (uint256_of_int256 amount) ;;
          Ok (set_managedAssets m w)
        else if amount <? 0 then
          n <~ neg_int256 amount ;;
          let loss := uint256_of_int256 n in
          if managedAssets w <? loss
          then Err (ExcessiveReduction loss (managedAssets w)) else
          m <~ sub_chk (managedAssets w) loss ;;
          Ok (set_managedAssets m w)
        else Ok w) ;;
  Ok (tt, emit (PnLReported amount (managedAssets w)) w).

(** *** Reachable states

    A step is a successful call of one of the five operations, by any
    caller, or any activity on the USDC ledger in which the vault is not
    the caller (transfers between third parties, approvals, donations to
    the vault): the vault never approves a spender, so such activity can
    only leave its USDC balance as it is or raise it, and it keeps the
    ledger well-formed. *)
Inductive step : State -> State -> Prop :=
| step_deposit c a r w s w' :
    is_uint256 a -> deposit c a r w = Ok (s, w') -> step w w'
| step_redeem c s r w a w' :
    is_uint256 s -> redeem c s r w = Ok (a, w') -> step w w'
| step_deployFunds c a w w' :
    is_uint256 a -> deployFunds c a w = Ok (tt, w') -> step w w'
| step_returnFunds c a w w' :
    is_uint256 a -> returnFunds c a w = Ok (tt, w') -> step w w'
| step_reportPnL c a w w' :
    is_int256 a -> reportPnL c a w = Ok (tt, w') -> step w w'
| step_usdc w u :
    ERC20.wf u ->
    ERC20.balanceOf (USDC w) (self w) <= ERC20.balanceOf u (self w) ->
    step w (set_USDC u w).

Inductive reachable (this _owner : address) (usdc0 : ERC20.t) : State -> Prop :=
| reach_init : reachable this _owner usdc0 (init this _owner usdc0)
| reach_step w w' :
    reachable this _owner usdc0 w -> step w w' -> reachable this _owner usdc0 w'.

(** A well-formed vault state: the counters are uint256 and the USDC
    ledger satisfies the ERC20 invariant. *)
Definition wf (w : State) : Prop :=
  ERC20.wf (USDC w) /\
  0 <= totalSupply w <= MAX_UINT256 /\
  0 <= managedAssets w <= MAX_UINT256.

End Vault.

(** ** The bonding-curve market ([BondingCurve.sol]) *)
Module Curve.

Inductive Event :=
| Transfer (from to : address) (value : Z)
| TokensBought (buyer : address) (usdcIn tokensOut : Z)
| TokensSold (seller : address) (tokensBurned usdcOut : Z).

Record State := mkState {
  self : address;
  entered : bool;
  token : ERC20.t;
  reserveBalance : Z;
  usdc : ERC20.t;
  events : list Event      (* the market's own log; USDC's is not modelled *)
}.

Definition set_entered (b : bool) (w : State) : State :=
  mkState (self w) b (token w) (reserveBalance w) (usdc w) (events w).
Definition set_token (tk : ERC20.t) (w : State) : State :=
  mkState (self w) (entered w) tk (reserveBalance w) (usdc w) (events w).
Definition set_reserveBalance (r : Z) (w : State) : State :=
  mkState (self w) (entered w) (token w) r (usdc w) (events w).
Definition set_usdc (u : ERC20.t) (w : State) : State :=
  mkState (self w) (entered w) (token w) (reserveBalance w) u (events w).
Definition emit (e : Event) (w : State) : State :=
  mkState (self w) (entered w) (token w) (reserveBalance w) (usdc w)
          (events w ++ [e]).

Definition BASE_PRICE : Z := 10000.
Definition SLOPE : Z := 10000.
Definition SCALE : Z := 1000000.

Definition init (this : address) (usdc0 : ERC20.t) : State :=
  mkState this false ERC20.empty 0 usdc0 [].

Definition nonReentrant {A} (body : State -> result (A * State)) (w : State)
  : result (A * State) :=
  if entered w then Err ReentrancyGuardReentrantCall
  else
    r <~ body (set_entered true w) ;;
    Ok (fst r, set_entered false (snd r)).

Definition totalSupply (w : State) : Z := ERC20.totalSupply (token w).
Definition balanceOf (w : State) (a : address) : Z := ERC20.balanceOf (token w) a.

Definition _mint (account : address) (value : Z) (w : State) : result State :=
  tk <~ ERC20._mint account value (token w) ;;
  Ok (emit (Transfer 0%N account value) (set_token tk w)).

Definition _burn (account : address) (value : Z) (w : State) : result State :=
  tk <~ ERC20._burn account value (token w) ;;
  Ok (emit (Transfer account 0%N value) (set_token tk w)).

Definition safeTransfer (to : address) (value : Z) (w : State) : result State :=
  u <~ ERC20.transfer (self w) to value (usdc w) ;;
  Ok (set_usdc u w).

Definition safeTransferFrom (from to : address) (value : Z) (w : State)
  : result State :=
  u <~ ERC20.transferFrom (self w) from to value (usdc w) ;;
  Ok (set_usdc u w).

(** *** Internal *)

Definition _integralCost (sLow sHigh : Z) : result Z :=
  delta <~ sub_chk sHigh sLow ;;
  linearPart <~ Math.mulDiv BASE_PRICE delta SCALE ;;
  sum <~ add_chk sHigh sLow ;;
  scaled <~ mul_chk SLOPE sum ;;
  quadPart <~ Math.mulDiv scaled delta (2 * SCALE * SCALE) ;;
  add_chk linearPart quadPart.

Definition _tokensForExactUsdc (usdcAmount : Z) (w : State) : result Z :=
  let s0 := totalSupply w in
  slope_s0 <~ mul_chk SLOPE s0 ;;
  b <~ add_chk (SCALE * BASE_PRICE) slope_s0 ;;
  bb <~ mul_chk b b ;;
  scaledUsdc <~ mul_chk (2 * SLOPE * SCALE * SCALE) usdcAmount ;;
  discriminant <~ add_chk bb scaledUsdc ;;
  let sqrtDisc := Math.sqrt discriminant in
  if sqrtDisc <=? b then Ok 0
  else Ok ((sqrtDisc - b) / SLOPE).

(** *** View functions *)

Definition decimals : Z := 6.

Definition getPrice (w : State) : result Z :=
  scaled <~ mul_chk SLOPE (totalSupply w) ;;
  add_chk BASE_PRICE (scaled / SCALE).

Definition getBuyCost (tokenAmount : Z) (w : State) : result Z :=
  if tokenAmount =? 0 then Ok 0 else
  let s0 := totalSupply w in
  s1 <~ add_chk s0 tokenAmount ;;
  _integralCost s0 s1.

Definition getSellReturn (tokenAmount : Z) (w : State) : result Z :=
  if tokenAmount =? 0 then Ok 0 else
  let s0 := totalSupply w in
  if s0 <? tokenAmount then Err (InsufficientTokens tokenAmount s0) else
  s1 <~ sub_chk s0 tokenAmount ;;
  _integralCost s1 s0.

(** *** User actions *)

Definition buy (msg_sender : address) (usdcAmount : Z)
  : State -> result (Z * State) :=
  nonReentrant (fun w =>
    if usdcAmount =? 0 then Err ZeroAmount else
    tokenAmount <~ _tokensForExactUsdc usdcAmount w ;;
    if tokenAmount =? 0 then Err ZeroAmount else
    w <~ safeTransferFrom msg_sender (self w) usdcAmount w ;;
    r <~ add_chk (reserveBalance w) usdcAmount ;;
    let w := set_reserveBalance r w in
    w <~ _mint msg_sender tokenAmount w ;;
    Ok (tokenAmount, emit (TokensBought msg_sender usdcAmount tokenAmount) w)).

Definition sell (msg_sender : address) (tokenAmount : Z)
  : State -> result (Z * State) :=
  nonReentrant (fun w =>
    if tokenAmount =? 0 then Err ZeroAmount else
    if balanceOf w msg_sender <? tokenAmount
    then Err (InsufficientTokens tokenAmount (balanceOf w msg_sender)) else
    usdcAmount <~ getSellReturn tokenAmount w ;;
    if usdcAmount =? 0 then Err ZeroAmount else
    w <~ _burn msg_sender tokenAmount w ;;
    r <~ sub_chk (reserveBalance w) usdcAmount ;;
    let w := set_reserveBalance r w in
    w <~ safeTransfer msg_sender usdcAmount w ;;
    Ok (usdcAmount, emit (TokensSold msg_sender tokenAmount usdcAmount) w)).

(** *** Reachable states

    A step is a successful [buy] or [sell] by any caller, or any activity
    on the USDC ledger (the callers' funding and approvals happen there):
    the market's accounting never reads that ledger, so no constraint is
    put on it. *)
Inductive step : State -> State -> Prop :=
| step_buy c x w t w' :
    is_uint256 x -> buy c x w = Ok (t, w') -> step w w'
| step_sell c n w u w' :
    is_uint256 n -> sell c n w = Ok (u, w') -> step w w'
| step_usdc w u :
    step w (set_usdc u w).

Inductive reachable (this : address) (usdc0 : ERC20.t) : State -> Prop :=
| reach_init : reachable this usdc0 (init this usdc0)
| reach_step w w' :
    reachable this usdc0 w -> step w w' -> reachable this usdc0 w'.

(** The integral of the price curve from [0] to [s], times [2 * SCALE^2]:
    [BASE_PRICE * s / SCALE + SLOPE * s^2 / (2 * SCALE^2)] without any
    division. *)
Definition integral_x2S2 (s : Z) : Z :=
  2 * SCALE * BASE_PRICE * s + SLOPE * s * s.

(** The floor of the real-valued integral of the price curve from [s0] to
    [s1], as the specification words it: one division by the full
    denominator. *)
Definition exact_cost_floor (s0 s1 : Z) : Z :=
  (integral_x2S2 s1 - integral_x2S2 s0) / (2 * SCALE * SCALE).

(** The accounting invariant: the guard is released, the counters are
    uint256, and the reserve covers the exact integral up to the supply. *)
Definition solvent (w : State) : Prop :=
  entered w = false /\
  0 <= totalSupply w <= MAX_UINT256 /\
  0 <= reserveBalance w <= MAX_UINT256 /\
  integral_x2S2 (totalSupply w) <= 2 * SCALE * SCALE * reserveBalance w.

(** [b] and the scaled payment of [_tokensForExactUsdc], and the closed
    form of what it returns. *)
Definition linear_coeff (s0 : Z) : Z := SCALE * BASE_PRICE + SLOPE * s0.

Definition solve_tokens (s0 usdcAmount : Z) : Z :=
  (Z.sqrt (linear_coeff s0 * linear_coeff s0
           + SLOPE * (2 * SCALE * SCALE * usdcAmount))
   - linear_coeff s0) / SLOPE.

End Curve.

(** ** Concrete scenarios

    The set-up of the repository's Foundry tests: funded accounts that
    have approved the contract for any amount. *)
Module Scenario.

Definition alice : address := 1%N.
Definition bob : address := 2%N.
Definition operator : address := 3%N.
Definition curve_address : address := 100%N.
Definition vault_address : address := 200%N.
Definition ONE_USDC : Z := 1000000.

(** [usdc.mint(alice, 1_000_000 * ONE_USDC)], the same for bob, and both
    [approve(address(curve), type(uint256).max)]. *)
Definition curve_usdc : ERC20.t :=
  ERC20.mk
    (<[alice := 1000000 * ONE_USDC]> (<[bob := 1000000 * ONE_USDC]> ∅))
    (<[(alice, curve_address) := MAX_UINT256]>
       (<[(bob, curve_address) := MAX_UINT256]> ∅))
    (2000000 * ONE_USDC).

Definition curve0 : Curve.State := Curve.init curve_address curve_usdc.

(** The state after a successful call, the state itself after a revert. *)
Definition after {W A} (op : W -> result (A * W)) (w : W) : W :=
  fst (transact op w).

Definition curve_buy1 : Curve.State := after (Curve.buy alice 1) curve0.
Definition curve_buy1_twice : Curve.State := after (Curve.buy bob 1) curve_buy1.
Definition curve_buy1M : Curve.State := after (Curve.buy alice ONE_USDC) curve0.
Definition curve_buy1M_sellall : Curve.State :=
  after (Curve.sell alice 13177446) curve_buy1M.
Definition curve_buy1M_sell10 : Curve.State :=
  after (Curve.sell alice 10) curve_buy1M.

(** The vault tests: alice, bob and the owner hold 100 000 USDC each and
    have approved the vault. *)
Definition THOUSAND_USDC : Z := 1000 * ONE_USDC.

Definition vault_usdc : ERC20.t :=
  ERC20.mk
    (<[alice := 100000 * ONE_USDC]>
       (<[bob := 100000 * ONE_USDC]> (<[operator := 100000 * ONE_USDC]> ∅)))
    (<[(alice, vault_address) := MAX_UINT256]>
       (<[(bob, vault_address) := MAX_UINT256]>
          (<[(operator, vault_address) := MAX_UINT256]> ∅)))
    (300000 * ONE_USDC).

Definition vault0 : Vault.State := Vault.init vault_address operator vault_usdc.

(** A deposit of 1000 USDC, all of it deployed, and a reported loss of
    600 USDC: a share is then worth less than a unit of USDC. *)
Definition vault_deposited : Vault.State :=
  after (Vault.deposit alice THOUSAND_USDC alice) vault0.
Definition vault_deployed : Vault.State :=
  after (Vault.deployFunds operator THOUSAND_USDC) vault_deposited.
Definition vault_after_loss : Vault.State :=
  after (Vault.reportPnL operator (- 600 * ONE_USDC)) vault_deployed.

(** Half of the deposit deployed, as in the owner tests. *)
Definition vault_half_deployed : Vault.State :=
  after (Vault.deployFunds operator (500 * ONE_USDC)) vault_deposited.

(** The donation scenario of [test_inflationAttack_protected]: a deposit
    of one raw unit, then 10 000 USDC transferred straight to the vault. *)
Definition vault_dust : Vault.State :=
  after (Vault.deposit bob 1 bob) vault0.
Definition donated_usdc : ERC20.t :=
  match ERC20.transfer bob vault_address (10000 * ONE_USDC) (Vault.USDC vault_dust) with
  | Ok u => u
  | Err _ => Vault.USDC vault_dust
  end.
Definition vault_donated : Vault.State := Vault.set_USDC donated_usdc vault_dust.
Definition vault_victim_in : Vault.State :=
  after (Vault.deposit alice THOUSAND_USDC alice) vault_donated.

End Scenario.

(** ** The market-maker bot ([bot/src])

    The decisions the bot takes between reading the chain and sending a
    transaction: the pre-flight check of [index.ts], the amount
    [sellRSIM] of [actions.ts] sends, and the action log of
    [history.ts].  A bigint is a [Z]; viem's [parseUnits] is a parameter,
    [None] standing for the exception it throws; a call the bot sends is
    executed on the state it has just read. *)
Module Bot.

(** [agent.ts] *)
Inductive ActionName :=
| deploy_funds | buy_rsim | sell_rsim | return_funds | report_pnl | wait.

Record AgentAction := mkAgentAction {
  action : ActionName;
  amount : option String.string;
  is_profit : option bool;
  reasoning : String.string
}.

(** [state.ts] *)
Record MarketState := mkMarketState {
  vaultTotalAssets : Z;
  vaultAvailableLiquidity : Z;
  vaultManagedAssets : Z;
  vaultSharePrice : Z;
  vaultTotalSupply : Z;
  curvePrice : Z;
  curveTotalSupply : Z;
  curveReserveBalance : Z;
  mmUsdcBalance : Z;
  mmRsimBalance : Z
}.

(** [config.ts] *)
Definition USDC_DECIMALS : Z := 6.
Definition RSIM_DECIMALS : Z := 6.

(** What [validateAction] answers when it blocks an action: one
    constructor for each message, with the figures the message quotes. *)
Inductive Rejection :=
| AmountRequired
| InvalidAmount
| AmountNotPositive
| CannotDeploy (available : Z)
| CannotBuy (balance : Z)
| CannotSell
| CannotReturn (balance : Z).

(** [!action.amount]: the amount is [undefined] or the empty string. *)
Definition no_amount (a : AgentAction) : bool :=
  match amount a with
  | None => true
  | Some s => String.eqb s String.EmptyString
  end.

Definition decimals_of (name : ActionName) : Z :=
  match name with
  | sell_rsim => RSIM_DECIMALS
  | _ => USDC_DECIMALS
  end.



Section Viem.

Variable parseUnits : String.string -> Z -> option Z.

(** [index.ts]: [None] is [null], the action may be sent. *)
Definition validateAction (a : AgentAction) (state : MarketState)
  : option Rejection :=
  match action a with
  | wait => None
  | name =>
    if no_amount a then Some AmountRequired else
    match parseUnits (default String.EmptyString (amount a)) (decimals_of name) with
    | None => Some InvalidAmount
    | Some parsed =>
      if parsed <=? 0 then Some AmountNotPositive else
      match name with
      | deploy_funds =>
        if vaultAvailableLiquidity state <? parsed
        then Some (CannotDeploy (vaultAvailableLiquidity state)) else None
      | buy_rsim =>
        if mmUsdcBalance state <? parsed
        then Some (CannotBuy (mmUsdcBalance state)) else None
      | sell_rsim =>
        if mmRsimBalance state =? 0 then Some CannotSell else None
      | return_funds =>
        if mmUsdcBalance state <? parsed
        then Some (CannotReturn (mmUsdcBalance state)) else None
      | _ => None
      end
    end
  end.

(** [actions.ts]: [deployFunds] parses the amount and calls the vault;
    [None] when [parseUnits] throws and nothing is sent. *)
Definition deployFunds (mm : address) (usdcAmount : String.string) (w : Vault.State)
  : option (result (unit * Vault.State)) :=
  match parseUnits usdcAmount USDC_DECIMALS with
  | None => None
  | Some amount => Some (Vault.deployFunds mm amount w)
  end.

(** [actions.ts]: [sellRSIM] reads the wallet's token balance, gives up
    when it is zero, clamps the amount to it and calls [sell]. *)
Definition sellRSIM (mm : address) (rsimAmount : String.string) (w : Curve.State)
  : option (result (Z * Curve.State)) :=
  match parseUnits rsimAmount RSIM_DECIMALS with
  | None => None
  | Some amount =>
    let balance := Curve.balanceOf w mm in
    if balance =? 0 then None else
    let amount := if balance <? amount then balance else amount in
    Some (Curve.sell mm amount w)
  end.

End Viem.

End Bot.

(** ** The bot's action log ([bot/src/history.ts])

    [cycleCounter] is a JS number that starts at [0] and only ever takes
    [++]: an integer in [0, 2^53], where the increment is exact below
    [2^53] and leaves [2^53] as it is.  The time stamp [addRecord] reads
    from the clock is an argument. *)
Module History.

Inductive Outcome := success | failed.

Record TradeRecord := mkTradeRecord {
  timestamp : String.string;
  cycle : Z;
  action : String.string;
  params : list (String.string * String.string);
  result : Outcome;
  txHash : option String.string;
  note : option String.string
}.

Record HistoryData := mkHistoryData {
  records : list TradeRecord;
  cycleCounter : Z
}.

Definition MAX_SIZE : nat := 20.

(** What [loadHistory] returns when nothing is stored. *)
Definition empty : HistoryData := mkHistoryData [] 0.

Definition incr (n : Z) : Z := if n <? 2 ^ 53 then n + 1 else n.

Definition nextCycle (data : HistoryData) : Z * HistoryData :=
  let c := incr (cycleCounter data) in
  (c, mkHistoryData (records data) c).

(** [{ ...record, timestamp, cycle }]: the record's own time stamp and
    cycle, if any, are overridden. *)
Definition addRecord (now : String.string) (record : TradeRecord)
    (data : HistoryData) : HistoryData :=
  let entry :=
    mkTradeRecord now (cycleCounter data) (action record) (params record)
      (result record) (txHash record) (note record) in
  let pushed := records data ++ [entry] in
  mkHistoryData
    (if (MAX_SIZE <? length pushed)%nat then tl pushed else pushed)
    (cycleCounter data).

(** A run of the two mutators, in order. *)
Inductive Op :=
| NextCycle
| AddRecord (now : String.string) (record : TradeRecord).

Definition apply_op (data : HistoryData) (op : Op) : HistoryData :=
  match op with
  | NextCycle => snd (nextCycle data)
  | AddRecord now record => addRecord now record data
  end.

Definition run (ops : list Op) (data : HistoryData) : HistoryData :=
  fold_left apply_op ops data.

End History.

(** ** A cycle of the bot, for the examples

    A stand-in for [parseUnits] that reads whole amounts only, and what
    the bot reads when it owns the vault of [Scenario.vault_deposited]
    and holds no USDC and no tokens of its own. *)
Module BotScenario.

Fixpoint digits (s : String.string) (acc : Z) : option Z :=
  match s with
  | String.EmptyString => Some acc
  | String.String c s' =>
    let n := Z.of_nat (Ascii.nat_of_ascii c) - 48 in
    if (0 <=? n) && (n <=? 9) then digits s' (10 * acc + n) else None
  end.

Definition parseUnits (s : String.string) (decimals : Z) : option Z :=
  match s with
  | String.EmptyString => None
  | _ => option_map (fun n => n * 10 ^ decimals) (digits s 0)
  end.

Definition reading : Bot.MarketState :=
  Bot.mkMarketState 1000000000 1000000000 0 1000000 1000000000
                    10000 0 0 0 0.

Definition decide (name : Bot.ActionName) (amount : String.string) : Bot.AgentAction :=
  Bot.mkAgentAction name (Some amount) None String.EmptyString.

Definition entry (name : String.string) : History.TradeRecord :=
  History.mkTradeRecord String.EmptyString 0 name [] History.success None None.

End BotScenario.

(** ** Notions for the accounting properties *)

(** The assets of the vault as a plain integer: what [totalAssets()]
    returns when its addition does not overflow. *)
Definition vault_assets (w : Vault.State) : Z :=
  ERC20.balanceOf (Vault.USDC w) (Vault.self w) + Vault.managedAssets w.

(** The exchange rate [(totalAssets + K) / (totalSupply + K)] of [w] is at
    most that of [w'], cross-multiplied. *)
Definition rate_le (w w' : Vault.State) : Prop :=
  (vault_assets w + Vault.VIRTUAL_OFFSET) * (Vault.totalSupply w' + Vault.VIRTUAL_OFFSET)
  <= (vault_assets w' + Vault.VIRTUAL_OFFSET) * (Vault.totalSupply w + Vault.VIRTUAL_OFFSET).

(** The market holds at least the USDC that [reserveBalance] records. *)
Definition curve_backed (w : Curve.State) : Prop :=
  Curve.reserveBalance w <= ERC20.balanceOf (Curve.usdc w) (Curve.self w).

(** What holders do with their shares between the vault's operations,
    through the ERC20 functions the vault inherits: [transfer],
    [transferFrom] and [approve] (whose [Approval] event the log's type
    does not hold). *)
Inductive vault_holder_step : Vault.State -> Vault.State -> Prop :=
| vault_transfer c to v w tk :
    is_uint256 v -> ERC20.transfer c to v (Vault.token w) = Ok tk ->
    vault_holder_step w (Vault.emit (Vault.Transfer c to v) (Vault.set_token tk w))
| vault_transferFrom c from to v w tk :
    is_uint256 v -> ERC20.transferFrom c from to v (Vault.token w) = Ok tk ->
    vault_holder_step w (Vault.emit (Vault.Transfer from to v) (Vault.set_token tk w))
| vault_approve c spender v w :
    is_uint256 v -> c <> 0%N -> spender <> 0%N ->
    vault_holder_step w (Vault.set_token (ERC20.set_allowance c spender v (Vault.token w)) w).

(** The states of the vault reachable by its operations and by the
    holders' dealings in shares. *)
Inductive vault_reachable_all (this _owner : address) (usdc0 : ERC20.t)
  : Vault.State -> Prop :=
| vault_all_init : vault_reachable_all this _owner usdc0 (Vault.init this _owner usdc0)
| vault_all_step w w' :
    vault_reachable_all this _owner usdc0 w -> Vault.step w w' ->
    vault_reachable_all this _owner usdc0 w'
| vault_all_holder w w' :
    vault_reachable_all this _owner usdc0 w -> vault_holder_step w w' ->
    vault_reachable_all this _owner usdc0 w'.

(** The same for the market and its token. *)
Inductive curve_holder_step : Curve.State -> Curve.State -> Prop :=
| curve_transfer c to v w tk :
    is_uint256 v -> ERC20.transfer c to v (Curve.token w) = Ok tk ->
    curve_holder_step w (Curve.emit (Curve.Transfer c to v) (Curve.set_token tk w))
| curve_transferFrom c from to v w tk :
    is_uint256 v -> ERC20.transferFrom c from to v (Curve.token w) = Ok tk ->
    curve_holder_step w (Curve.emit (Curve.Transfer from to v) (Curve.set_token tk w))
| curve_approve c spender v w :
    is_uint256 v -> c <> 0%N -> spender <> 0%N ->
    curve_holder_step w (Curve.set_token (ERC20.set_allowance c spender v (Curve.token w)) w).

Inductive curve_reachable_all (this : address) (usdc0 : ERC20.t)
  : Curve.State -> Prop :=
| curve_all_init : curve_reachable_all this usdc0 (Curve.init this usdc0)
| curve_all_step w w' :
    curve_reachable_all this usdc0 w -> Curve.step w w' ->
    curve_reachable_all this usdc0 w'
| curve_all_holder w w' :
    curve_reachable_all this usdc0 w -> curve_holder_step w w' ->
    curve_reachable_all this usdc0 w'.

(** Alice hands 400 of her shares, and 77 of her tokens, to bob. *)
Definition vault_shares_moved : Vault.State :=
  Vault.emit (Vault.Transfer Scenario.alice Scenario.bob 400)
    (Vault.set_token
       (ERC20.set_balance Scenario.bob 400
          (ERC20.set_balance Scenario.alice 999999600
             (Vault.token Scenario.vault_deposited)))
       Scenario.vault_deposited).

Definition curve_tokens_moved : Curve.State :=
  Curve.emit (Curve.Transfer Scenario.alice Scenario.bob 77)
    (Curve.set_token
       (ERC20.set_balance Scenario.bob 77
          (ERC20.set_balance Scenario.alice 13177369
             (Curve.token Scenario.curve_buy1M)))
       Scenario.curve_buy1M).

(** The last [n] elements of a list. *)
Definition lastn {A} (n : nat) (l : list A) : list A :=
  skipn (length l - n) l.

(** Every entry a run hands to the log, oldest first, as [addRecord]
    stamps it; [c] is the cycle counter at the start. *)
Fixpoint emitted (ops : list History.Op) (c : Z) : list History.TradeRecord :=
  match ops with
  | [] => []
  | History.NextCycle :: ops => emitted ops (History.incr c)
  | History.AddRecord now r :: ops =>
    History.mkTradeRecord now c (History.action r) (History.params r)
      (History.result r) (History.txHash r) (History.note r)
    :: emitted ops c
  end.

(** * Properties *)

(** ** The result monad and the checked operations *)

Lemma rbind_Ok {A B} (m : result A) (k : A -> result B) (b : B) :
  rbind m k = Ok b -> exists a, m = Ok a /\ k a = Ok b.
Proof. destruct m as [a|e]; simpl; [eauto | discriminate]. Qed.

Lemma add_chk_Ok x y z :
  add_chk x y = Ok z -> z = x + y /\ x + y <= MAX_UINT256.
Proof.
  unfold add_chk. destruct (Z.leb_spec (x + y) MAX_UINT256); [|discriminate].
  intros [= <-]. auto.
Qed.

Lemma sub_chk_Ok x y z :
  sub_chk x y = Ok z -> z = x - y /\ y <= x.
Proof.
  unfold sub_chk. destruct (Z.leb_spec y x); [|discriminate].
  intros [= <-]. auto.
Qed.

Lemma mul_chk_Ok x y z :
  mul_chk x y = Ok z -> z = x * y /\ x * y <= MAX_UINT256.
Proof.
  unfold mul_chk. destruct (Z.leb_spec (x * y) MAX_UINT256); [|discriminate].
  intros [= <-]. auto.
Qed.

Lemma add_chk_fits x y : x + y <= MAX_UINT256 -> add_chk x y = Ok (x + y).
Proof. intros H. unfold add_chk. destruct (Z.leb_spec (x + y) MAX_UINT256); [reflexivity | lia]. Qed.

Lemma sub_chk_fits x y : y <= x -> sub_chk x y = Ok (x - y).
Proof. intros H. unfold sub_chk. destruct (Z.leb_spec y x); [reflexivity | lia]. Qed.

Lemma mul_chk_fits x y : x * y <= MAX_UINT256 -> mul_chk x y = Ok (x * y).
Proof. intros H. unfold mul_chk. destruct (Z.leb_spec (x * y) MAX_UINT256); [reflexivity | lia]. Qed.

Lemma mulDiv_Ok x y d r :
  Math.mulDiv x y d = Ok r -> d <> 0 /\ r = x * y / d /\ r <= MAX_UINT256.
Proof.
  unfold Math.mulDiv. destruct (Z.eqb_spec d 0); [discriminate|].
  cbv zeta. destruct (Z.leb_spec (x * y / d) MAX_UINT256); [|discriminate].
  intros [= <-]. auto.
Qed.

Lemma mulDiv_fits x y d :
  d <> 0 -> x * y / d <= MAX_UINT256 -> Math.mulDiv x y d = Ok (x * y / d).
Proof.
  intros Hd H. unfold Math.mulDiv. destruct (Z.eqb_spec d 0); [contradiction|].
  cbv zeta. destruct (Z.leb_spec (x * y / d) MAX_UINT256); [reflexivity | lia].
Qed.

Lemma mulDivR_Floor x y d : Math.mulDivR x y d Math.Floor = Math.mulDiv x y d.
Proof. unfold Math.mulDivR. destruct (Math.mulDiv x y d); reflexivity. Qed.

(** Take a successful monadic computation apart, one bind at a time. *)
Ltac inv_bind H :=
  let a := fresh "v" in
  let Ha := fresh "E" in
  apply rbind_Ok in H; destruct H as (a & Ha & H).

Tactic Notation "unbind" hyp(H) "as" ident(a) ident(Ha) :=
  apply rbind_Ok in H; destruct H as (a & Ha & H).

Ltac inv_chk :=
  repeat match goal with
  | H : add_chk _ _ = Ok _ |- _ => apply add_chk_Ok in H; destruct H as [? ?]
  | H : sub_chk _ _ = Ok _ |- _ => apply sub_chk_Ok in H; destruct H as [? ?]
  | H : mul_chk _ _ = Ok _ |- _ => apply mul_chk_Ok in H; destruct H as [? ?]
  | H : Math.mulDiv _ _ _ = Ok _ |- _ =>
      apply mulDiv_Ok in H; destruct H as (? & ? & ?)
  end.

Lemma MAX_UINT256_eq :
  MAX_UINT256 = 115792089237316195423570985008687907853269984665640564039457584007913129639935.
Proof. reflexivity. Qed.

(** ** The ERC20 ledger *)

Lemma wrap_small x : 0 <= x <= MAX_UINT256 -> wrap x = x.
Proof. intros H. unfold wrap. apply Z.mod_small. unfold MAX_UINT256 in H. lia. Qed.

Lemma ERC20_mint_Ok a v tk tk' :
  ERC20._mint a v tk = Ok tk' ->
  a <> 0%N /\
  ERC20.totalSupply tk' = ERC20.totalSupply tk + v /\
  ERC20.totalSupply tk + v <= MAX_UINT256 /\
  ERC20.balances tk' = <[a := wrap (ERC20.balanceOf tk a + v)]> (ERC20.balances tk) /\
  ERC20.allowances tk' = ERC20.allowances tk.
Proof.
  unfold ERC20._mint. destruct (N.eqb_spec a 0); [discriminate|].
  unfold ERC20._update. rewrite N.eqb_refl.
  intros H. inv_bind H. inv_bind E. inv_chk. subst.
  injection E as <-.
  destruct (N.eqb_spec a 0); [contradiction|].
  injection H as <-. simpl. auto.
Qed.

Lemma ERC20_burn_Ok a v tk tk' :
  ERC20._burn a v tk = Ok tk' ->
  a <> 0%N /\
  v <= ERC20.balanceOf tk a /\
  ERC20.totalSupply tk' = wrap (ERC20.totalSupply tk - v) /\
  ERC20.balances tk' = <[a := ERC20.balanceOf tk a - v]> (ERC20.balances tk) /\
  ERC20.allowances tk' = ERC20.allowances tk.
Proof.
  unfold ERC20._burn. destruct (N.eqb_spec a 0); [discriminate|].
  unfold ERC20._update. destruct (N.eqb_spec a 0); [contradiction|].
  rewrite N.eqb_refl. cbv zeta.
  destruct (Z.ltb_spec (ERC20.balanceOf tk a) v); [discriminate|].
  simpl. intros [= <-]. simpl. auto.
Qed.

Lemma ERC20_balanceOf_set_balance_eq a v tk :
  ERC20.balanceOf (ERC20.set_balance a v tk) a = v.
Proof. unfold ERC20.balanceOf, ERC20.set_balance. simpl. by rewrite lookup_insert_eq. Qed.

Lemma ERC20_balanceOf_set_balance_ne a b v tk :
  a <> b -> ERC20.balanceOf (ERC20.set_balance a v tk) b = ERC20.balanceOf tk b.
Proof.
  intros Hne. unfold ERC20.balanceOf, ERC20.set_balance. simpl.
  by rewrite lookup_insert_ne.
Qed.

(** ** The test suite, replayed on the embedding

    The expectations of [EasyLVault.t.sol] and [BondingCurve.t.sol] that
    fix concrete values, evaluated on the definitions above. *)

Example test_getPrice_initiallyBasePrice :
  Curve.getPrice Scenario.curve0 = Ok 10000.
Proof. vm_compute. reflexivity. Qed.

Example test_getBuyCost_linearFormula :
  Curve.getBuyCost 1000000 Scenario.curve0 = Ok 15000.
Proof. vm_compute. reflexivity. Qed.

Example test_getSellReturn_revertsExcessiveAmount :
  Curve.getSellReturn 1 Scenario.curve0 = Err (InsufficientTokens 1 0).
Proof. vm_compute. reflexivity. Qed.

Example test_buy_revertsZeroAmount :
  Curve.buy Scenario.alice 0 Scenario.curve0 = Err ZeroAmount.
Proof. vm_compute. reflexivity. Qed.

Example test_buy_multipleBuys :
  exists t1 w1 t2 w2,
    Curve.buy Scenario.alice Scenario.ONE_USDC Scenario.curve0 = Ok (t1, w1) /\
    Curve.buy Scenario.bob Scenario.ONE_USDC w1 = Ok (t2, w2) /\
    t2 < t1 /\ Curve.reserveBalance w2 = 2 * Scenario.ONE_USDC.
Proof.
  do 4 eexists. split; [vm_compute; reflexivity|].
  split; [vm_compute; reflexivity|]. split; vm_compute; reflexivity.
Qed.

Example test_sell_revertsInsufficientBalance :
  Curve.sell Scenario.alice (13177446 + 1) Scenario.curve_buy1M
  = Err (InsufficientTokens (13177446 + 1) 13177446).
Proof. vm_compute. reflexivity. Qed.

Example test_supply_returnsToZero :
  Curve.totalSupply Scenario.curve_buy1M_sellall = 0 /\
  Curve.getPrice Scenario.curve_buy1M_sellall = Ok 10000.
Proof. split; vm_compute; reflexivity. Qed.

Example test_deposit_firstDepositSharesApproxEqual :
  exists w', Vault.deposit Scenario.alice Scenario.THOUSAND_USDC Scenario.alice
               Scenario.vault0 = Ok (Scenario.THOUSAND_USDC, w').
Proof. eexists. vm_compute. reflexivity. Qed.

Example test_deposit_multipleDeposits :
  exists w', Vault.deposit Scenario.bob Scenario.THOUSAND_USDC Scenario.bob
               Scenario.vault_deposited = Ok (Scenario.THOUSAND_USDC, w') /\
             Vault.totalSupply w' = 2 * Scenario.THOUSAND_USDC.
Proof.
  eexists. split; [vm_compute; reflexivity|].
  vm_compute. reflexivity.
Qed.

Example test_deposit_revertsZeroReceiver :
  Vault.deposit Scenario.alice Scenario.THOUSAND_USDC 0%N Scenario.vault0
  = Err ZeroAddress.
Proof. vm_compute. reflexivity. Qed.

Example test_redeem_revertsInsufficientLiquidity :
  Vault.redeem Scenario.alice Scenario.THOUSAND_USDC Scenario.alice
    Scenario.vault_deployed
  = Err (InsufficientLiquidity Scenario.THOUSAND_USDC 0).
Proof. vm_compute. reflexivity. Qed.

Example test_deployFunds_revertsNonOwner :
  Vault.deployFunds Scenario.alice (100 * Scenario.ONE_USDC) Scenario.vault_deposited
  = Err (OwnableUnauthorizedAccount Scenario.alice).
Proof. vm_compute. reflexivity. Qed.

Example test_deployFunds_revertsInsufficientLiquidity :
  Vault.deployFunds Scenario.operator (Scenario.THOUSAND_USDC + 1)
    Scenario.vault_deposited
  = Err (InsufficientLiquidity (Scenario.THOUSAND_USDC + 1) Scenario.THOUSAND_USDC).
Proof. vm_compute. reflexivity. Qed.

Example test_returnFunds_revertsExcessiveAmount :
  Vault.returnFunds Scenario.operator (501 * Scenario.ONE_USDC)
    Scenario.vault_half_deployed
  = Err (ExcessiveReduction (501 * Scenario.ONE_USDC) (500 * Scenario.ONE_USDC)).
Proof. vm_compute. reflexivity. Qed.

Example test_reportPnL_revertsExcessiveLoss :
  Vault.reportPnL Scenario.operator (- (501 * Scenario.ONE_USDC))
    Scenario.vault_half_deployed
  = Err (ExcessiveReduction (501 * Scenario.ONE_USDC) (500 * Scenario.ONE_USDC)).
Proof. vm_compute. reflexivity. Qed.

Example test_reportPnL_loss :
  exists w', Vault.reportPnL Scenario.operator (- (100 * Scenario.ONE_USDC))
               Scenario.vault_half_deployed = Ok (tt, w') /\
             Vault.managedAssets w' = 400 * Scenario.ONE_USDC /\
             Vault.totalAssets w' = Ok (900 * Scenario.ONE_USDC).
Proof.
  eexists. split; [vm_compute; reflexivity|].
  split; vm_compute; reflexivity.
Qed.

Example test_sharePrice_initiallyOneToOne :
  Vault.sharePrice Scenario.vault0 = Ok Scenario.ONE_USDC.
Proof. vm_compute. reflexivity. Qed.

Example test_inflationAttack_protected :
  exists shares w',
    Vault.deposit Scenario.alice Scenario.THOUSAND_USDC Scenario.alice
      Scenario.vault_donated = Ok (shares, w') /\
    0 < shares /\
    exists redeemable, Vault.convertToAssets shares w' = Ok redeemable /\
                       Scenario.THOUSAND_USDC * 99 / 100 < redeemable.
Proof.
  do 2 eexists. split; [vm_compute; reflexivity|]. split; [reflexivity|].
  eexists. split; [vm_compute; reflexivity|].
  vm_compute. reflexivity.
Qed.

(** ** Arithmetic of the quadratic solve

    [b] is the linear coefficient, [slope * E] the scaled payment, and the
    tokens minted are [(sqrt (b^2 + slope * E) - b) / slope]. *)
Section QuadraticSolve.

Variables slope b E : Z.
Hypothesis slope_pos : 0 < slope.
Hypothesis b_nonneg : 0 <= b.
Hypothesis E_nonneg : 0 <= E.

Local Abbreviation q := (Z.sqrt (b * b + slope * E)).
Local Abbreviation t := ((q - b) / slope).

Lemma solve_root_ge : b <= q.
Proof.
  rewrite <- (Z.sqrt_square b) at 1 by assumption.
  apply Z.sqrt_le_mono. nia.
Qed.

Lemma solve_tokens_nonneg : 0 <= t.
Proof. apply Z.div_pos; [pose proof solve_root_ge; lia | assumption]. Qed.

(** The minted amount costs at most the payment. *)
Lemma solve_cost_le : 2 * b * t + slope * t * t <= E.
Proof.
  pose proof solve_root_ge as Hq.
  pose proof solve_tokens_nonneg as Ht.
  assert (Hy : slope * t <= q - b) by (apply Z.mul_div_le; assumption).
  assert (Hs : q * q <= b * b + slope * E).
  { apply (Z.sqrt_spec (b * b + slope * E)). nia. }
  set (root := q) in *. set (tok := (root - b) / slope) in *.
  assert (Hsq : (b + slope * tok) * (b + slope * tok) <= root * root) by nia.
  assert (Hm : slope * (2 * b * tok + slope * tok * tok) <= slope * E) by nia.
  apply Z.mul_le_mono_pos_l in Hm; assumption.
Qed.

(** One more token would cost more than the payment. *)
Lemma solve_cost_next_gt :
  E < 2 * b * (t + 1) + slope * (t + 1) * (t + 1).
Proof.
  pose proof solve_root_ge as Hq.
  assert (Hd : q - b < slope * (t + 1)).
  { pose proof (Z.mul_succ_div_gt (q - b) slope slope_pos). lia. }
  assert (Hs : b * b + slope * E < (q + 1) * (q + 1)).
  { pose proof (Z.sqrt_spec (b * b + slope * E)) as H.
    cbv zeta in H. rewrite <- Z.add_1_r in H. apply H. nia. }
  set (root := q) in *. set (tok := (root - b) / slope) in *.
  assert (Hsq : (root + 1) * (root + 1)
                <= (b + slope * (tok + 1)) * (b + slope * (tok + 1))) by nia.
  assert (Hm : slope * E
               < slope * (2 * b * (tok + 1) + slope * (tok + 1) * (tok + 1))) by nia.
  apply Z.mul_lt_mono_pos_l in Hm; assumption.
Qed.

End QuadraticSolve.

(** The excess of the integer root over [b] shrinks as [b] grows. *)
Lemma sqrt_excess_antitone b b' D :
  0 <= b <= b' -> 0 <= D ->
  Z.sqrt (b' * b' + D) - b' <= Z.sqrt (b * b + D) - b.
Proof.
  intros Hb HD.
  set (q := Z.sqrt (b * b + D)).
  assert (Hq : b <= q).
  { unfold q. rewrite <- (Z.sqrt_square b) at 1 by lia.
    apply Z.sqrt_le_mono. lia. }
  assert (Hs : b * b + D < (q + 1) * (q + 1)).
  { unfold q. pose proof (Z.sqrt_spec (b * b + D)) as H.
    cbv zeta in H. rewrite <- Z.add_1_r in H. apply H. nia. }
  assert (Hlt : Z.sqrt (b' * b' + D) < b' + (q - b) + 1).
  { apply Z.sqrt_lt_square; [nia | lia | nia]. }
  lia.
Qed.

(** ** The bonding curve: what the operations compute *)

Lemma integral_step s t :
  Curve.integral_x2S2 (s + t) - Curve.integral_x2S2 s
  = 2 * Curve.linear_coeff s * t + Curve.SLOPE * t * t.
Proof. unfold Curve.integral_x2S2, Curve.linear_coeff. ring. Qed.

Lemma tokensForExactUsdc_Ok x w t :
  0 <= Curve.totalSupply w -> 0 <= x ->
  Curve._tokensForExactUsdc x w = Ok t ->
  t = Curve.solve_tokens (Curve.totalSupply w) x /\
  Curve.linear_coeff (Curve.totalSupply w) * Curve.linear_coeff (Curve.totalSupply w)
  + Curve.SLOPE * (2 * Curve.SCALE * Curve.SCALE * x) <= MAX_UINT256.
Proof.
  intros Hs Hx H. unfold Curve._tokensForExactUsdc in H. cbv zeta in H.
  do 5 inv_bind H. inv_chk. subst.
  fold (Curve.linear_coeff (Curve.totalSupply w)) in *.
  set (b := Curve.linear_coeff (Curve.totalSupply w)) in *.
  assert (Hb : 0 <= b) by (unfold b, Curve.linear_coeff, Curve.SCALE, Curve.BASE_PRICE, Curve.SLOPE; lia).
  replace (2 * Curve.SLOPE * Curve.SCALE * Curve.SCALE * x)
    with (Curve.SLOPE * (2 * Curve.SCALE * Curve.SCALE * x)) in * by ring.
  split; [|assumption].
  unfold Curve.solve_tokens. fold b. unfold Math.sqrt in H.
  set (q := Z.sqrt _) in *.
  destruct (Z.leb_spec q b) as [Hle|Hlt]; injection H as <-; [|reflexivity].
  assert (Hq : b <= q).
  { apply solve_root_ge; unfold Curve.SLOPE, Curve.SCALE; lia. }
  replace (q - b) with 0 by lia. reflexivity.
Qed.

(** The tokens minted for [x] never cost more than [x]. *)
Lemma solve_tokens_cost s0 x :
  0 <= s0 -> 0 <= x ->
  0 <= Curve.solve_tokens s0 x /\
  Curve.integral_x2S2 (s0 + Curve.solve_tokens s0 x) - Curve.integral_x2S2 s0
    <= 2 * Curve.SCALE * Curve.SCALE * x.
Proof.
  intros Hs Hx.
  assert (Hb : 0 <= Curve.linear_coeff s0)
    by (unfold Curve.linear_coeff, Curve.SCALE, Curve.BASE_PRICE, Curve.SLOPE; lia).
  assert (HE : 0 <= 2 * Curve.SCALE * Curve.SCALE * x) by (unfold Curve.SCALE; lia).
  assert (HS : 0 < Curve.SLOPE) by reflexivity.
  split.
  - apply solve_tokens_nonneg; assumption.
  - rewrite integral_step. apply solve_cost_le; assumption.
Qed.

(** What [_integralCost] returns: the two floored terms, which together
    never exceed the exact integral. *)
Lemma integralCost_Ok sLow sHigh c :
  0 <= sLow ->
  Curve._integralCost sLow sHigh = Ok c ->
  sLow <= sHigh /\
  c = Curve.BASE_PRICE * (sHigh - sLow) / Curve.SCALE
      + Curve.SLOPE * (sHigh + sLow) * (sHigh - sLow) / (2 * Curve.SCALE * Curve.SCALE) /\
  0 <= c <= MAX_UINT256 /\
  2 * Curve.SCALE * Curve.SCALE * c
    <= Curve.integral_x2S2 sHigh - Curve.integral_x2S2 sLow.
Proof.
  intros Hlo H. unfold Curve._integralCost in H.
  do 5 inv_bind H. inv_chk. subst.
  set (d := sHigh - sLow) in *.
  assert (Hd : 0 <= d) by (unfold d; lia).
  set (lin := Curve.BASE_PRICE * d / Curve.SCALE) in *.
  set (quad := Curve.SLOPE * (sHigh + sLow) * d / (2 * Curve.SCALE * Curve.SCALE)) in *.
  assert (Hlin : 0 <= lin /\ Curve.SCALE * lin <= Curve.BASE_PRICE * d).
  { split.
    - apply Z.div_pos; [unfold Curve.BASE_PRICE; lia | reflexivity].
    - apply Z.mul_div_le. reflexivity. }
  assert (Hquad : 0 <= quad /\
            2 * Curve.SCALE * Curve.SCALE * quad <= Curve.SLOPE * (sHigh + sLow) * d).
  { split.
    - apply Z.div_pos; [unfold Curve.SLOPE; nia | reflexivity].
    - apply Z.mul_div_le. reflexivity. }
  repeat split; try lia.
  replace (Curve.integral_x2S2 sHigh - Curve.integral_x2S2 sLow)
    with (2 * Curve.SCALE * (Curve.BASE_PRICE * d) + Curve.SLOPE * (sHigh + sLow) * d)
    by (unfold Curve.integral_x2S2, d; ring).
  unfold Curve.SCALE in *. lia.
Qed.

Lemma curve_nonReentrant_Ok {A} (body : Curve.State -> result (A * Curve.State)) w a w' :
  Curve.nonReentrant body w = Ok (a, w') ->
  Curve.entered w = false /\
  exists w1, body (Curve.set_entered true w) = Ok (a, w1) /\
             w' = Curve.set_entered false w1.
Proof.
  unfold Curve.nonReentrant. destruct (Curve.entered w); [discriminate|].
  intros H. inv_bind H. destruct v as [a1 w1]. injection H as <- <-.
  split; [reflexivity|]. exists w1. auto.
Qed.

(** A successful [buy]: what was checked and what changed. *)
Lemma buy_Ok c x w t w' :
  Curve.buy c x w = Ok (t, w') ->
  Curve.entered w = false /\ x <> 0 /\ t <> 0 /\
  Curve._tokensForExactUsdc x w = Ok t /\
  Curve.reserveBalance w' = Curve.reserveBalance w + x /\
  Curve.reserveBalance w + x <= MAX_UINT256 /\
  Curve.totalSupply w' = Curve.totalSupply w + t /\
  Curve.totalSupply w + t <= MAX_UINT256 /\
  Curve.entered w' = false /\
  Curve.self w' = Curve.self w /\
  Curve.events w' = Curve.events w ++ [Curve.Transfer 0%N c t; Curve.TokensBought c x t] /\
  ERC20.transferFrom (Curve.self w) c (Curve.self w) x (Curve.usdc w) = Ok (Curve.usdc w').
Proof.
  unfold Curve.buy. intros H.
  apply curve_nonReentrant_Ok in H. destruct H as (Hent & w1 & H & ->).
  destruct (Z.eqb_spec x 0) as [|Hx]; [discriminate|].
  unbind H as t0 Htok.
  destruct (Z.eqb_spec t0 0) as [|Ht]; [discriminate|].
  unbind H as w2 Hpull. unfold Curve.safeTransferFrom in Hpull.
  unbind Hpull as u1 Hu1. injection Hpull as <-.
  unbind H as r Hr. inv_chk. subst r. cbv zeta in H.
  unbind H as w3 Hmint. unfold Curve._mint in Hmint.
  unbind Hmint as tk Htk. injection Hmint as <-.
  apply ERC20_mint_Ok in Htk. destruct Htk as (_ & Hts & Hfit & _ & _).
  injection H as <- <-. simpl in *.
  unfold Curve.totalSupply. simpl.
  rewrite <- app_assoc. simpl.
  repeat split; auto.
Qed.

(** A successful [sell]: what was checked and what changed. *)
Lemma sell_Ok c n w u w' :
  0 <= Curve.totalSupply w <= MAX_UINT256 ->
  Curve.sell c n w = Ok (u, w') ->
  Curve.entered w = false /\ n <> 0 /\ u <> 0 /\
  n <= Curve.balanceOf w c /\
  0 < n <= Curve.totalSupply w /\
  Curve.getSellReturn n w = Ok u /\
  Curve._integralCost (Curve.totalSupply w - n) (Curve.totalSupply w) = Ok u /\
  Curve.reserveBalance w' = Curve.reserveBalance w - u /\
  u <= Curve.reserveBalance w /\
  Curve.totalSupply w' = Curve.totalSupply w - n /\
  Curve.entered w' = false /\
  Curve.self w' = Curve.self w /\
  Curve.events w' = Curve.events w ++ [Curve.Transfer c 0%N n; Curve.TokensSold c n u] /\
  ERC20.transfer (Curve.self w) c u (Curve.usdc w) = Ok (Curve.usdc w').
Proof.
  intros Hts. unfold Curve.sell. intros H.
  apply curve_nonReentrant_Ok in H. destruct H as (Hent & w1 & H & ->).
  destruct (Z.eqb_spec n 0) as [|Hn]; [discriminate|].
  destruct (Z.ltb_spec (Curve.balanceOf (Curve.set_entered true w) c) n) as [|Hbal];
    [discriminate|].
  unbind H as u0 Hret.
  destruct (Z.eqb_spec u0 0) as [|Hu]; [discriminate|].
  unbind H as w2 Hburn. unfold Curve._burn in Hburn.
  unbind Hburn as tk Htk. injection Hburn as <-.
  apply ERC20_burn_Ok in Htk. destruct Htk as (_ & _ & Hsup & _ & _).
  unbind H as r Hr. inv_chk. subst r. cbv zeta in H.
  unbind H as w3 Hpay. unfold Curve.safeTransfer in Hpay.
  unbind Hpay as u1 Hu1. injection Hpay as <-.
  injection H as <- <-. simpl in *.
  assert (Hret' : Curve.getSellReturn n w = Ok u0) by exact Hret.
  unfold Curve.getSellReturn in Hret.
  destruct (Z.eqb_spec n 0); [contradiction|]. cbv zeta in Hret.
  destruct (Z.ltb_spec (Curve.totalSupply (Curve.set_entered true w)) n) as [|Hle];
    [discriminate|].
  unbind Hret as s1 Hs1. inv_chk. subst s1.
  change (Curve.totalSupply (Curve.set_entered true w)) with (Curve.totalSupply w) in *.
  assert (Hn0 : 0 <= n).
  { apply integralCost_Ok in Hret; [|lia]. lia. }
  unfold Curve.totalSupply in *. simpl.
  rewrite Hsup, wrap_small by lia.
  rewrite <- app_assoc. simpl.
  repeat split; auto; lia.
Qed.

(** [_integralCost] returns as soon as each intermediate value fits. *)
Lemma integralCost_fits sLow sHigh :
  0 <= sLow <= sHigh ->
  Curve.SLOPE * (sHigh + sLow) <= MAX_UINT256 ->
  Curve.SLOPE * (sHigh + sLow) * (sHigh - sLow) / (2 * Curve.SCALE * Curve.SCALE)
    <= MAX_UINT256 ->
  Curve.BASE_PRICE * (sHigh - sLow) / Curve.SCALE
  + Curve.SLOPE * (sHigh + sLow) * (sHigh - sLow) / (2 * Curve.SCALE * Curve.SCALE)
    <= MAX_UINT256 ->
  Curve._integralCost sLow sHigh
  = Ok (Curve.BASE_PRICE * (sHigh - sLow) / Curve.SCALE
        + Curve.SLOPE * (sHigh + sLow) * (sHigh - sLow) / (2 * Curve.SCALE * Curve.SCALE)).
Proof.
  intros Hs Hm Hq Hsum. unfold Curve._integralCost.
  rewrite sub_chk_fits by lia. simpl.
  assert (Hquad : 0 <= Curve.SLOPE * (sHigh + sLow) * (sHigh - sLow)
                       / (2 * Curve.SCALE * Curve.SCALE)).
  { apply Z.div_pos; [unfold Curve.SLOPE; nia | reflexivity]. }
  rewrite mulDiv_fits; [| discriminate | lia]. simpl.
  rewrite add_chk_fits by (unfold Curve.SLOPE in Hm; lia). simpl.
  rewrite mul_chk_fits by assumption. simpl.
  rewrite mulDiv_fits; [| discriminate | assumption]. simpl.
  apply add_chk_fits. assumption.
Qed.

Lemma solvent_init this usdc0 : Curve.solvent (Curve.init this usdc0).
Proof.
  unfold Curve.solvent, Curve.init, Curve.totalSupply. simpl.
  rewrite MAX_UINT256_eq. repeat split; try reflexivity; lia.
Qed.

Lemma solvent_step w w' : Curve.solvent w -> Curve.step w w' -> Curve.solvent w'.
Proof.
  intros (Hent & Hs & Hr & Hinv) Hstep.
  destruct Hstep as [c x w t w' Hx Hbuy | c n w u w' Hn Hsell | w u].
  - apply buy_Ok in Hbuy.
    destruct Hbuy as (_ & _ & _ & Htok & Hres & Hrfit & Hsup & Hsfit & Hent' & _).
    apply tokensForExactUsdc_Ok in Htok; [| lia | apply Hx].
    destruct Htok as [-> _].
    destruct (solve_tokens_cost (Curve.totalSupply w) x) as [Ht Hcost];
      [lia | apply Hx |].
    unfold Curve.solvent. rewrite Hres, Hsup.
    destruct Hx as [Hx0 _].
    repeat split; try assumption; try lia.
  - apply sell_Ok in Hsell; [|assumption].
    destruct Hsell as (_ & _ & _ & _ & Hle & _ & Hcost & Hres & Hu & Hsup & Hent' & _).
    apply integralCost_Ok in Hcost; [|lia].
    destruct Hcost as (_ & _ & Hc & Hcost).
    unfold Curve.solvent. rewrite Hres, Hsup.
    repeat split; try assumption; try lia.
  - unfold Curve.solvent, Curve.totalSupply in *. simpl.
    repeat split; try assumption; lia.
Qed.

Lemma solvent_reachable this usdc0 w :
  Curve.reachable this usdc0 w -> Curve.solvent w.
Proof.
  induction 1 as [| w w' _ IH Hstep].
  - apply solvent_init.
  - eapply solvent_step; eassumption.
Qed.

(** In a solvent state the cost integral from zero is computed without a
    revert and the reserve covers it. *)
Lemma solvent_covers w :
  Curve.solvent w ->
  exists c, Curve._integralCost 0 (Curve.totalSupply w) = Ok c /\
            0 <= c <= Curve.reserveBalance w.
Proof.
  intros (Hent & Hs & Hr & Hinv).
  set (s := Curve.totalSupply w) in *. set (R := Curve.reserveBalance w) in *.
  unfold Curve.integral_x2S2 in Hinv.
  assert (Hss : 0 <= s * s) by nia.
  assert (Hlin : Curve.BASE_PRICE * (s - 0) / Curve.SCALE
                 + Curve.SLOPE * (s + 0) * (s - 0) / (2 * Curve.SCALE * Curve.SCALE) <= R).
  { rewrite Z.sub_0_r, Z.add_0_r.
    pose proof (Z.mul_div_le (Curve.BASE_PRICE * s) Curve.SCALE eq_refl) as H1.
    pose proof (Z.mul_div_le (Curve.SLOPE * s * s) (2 * Curve.SCALE * Curve.SCALE) eq_refl) as H2.
    unfold Curve.SCALE, Curve.BASE_PRICE, Curve.SLOPE in *. lia. }
  assert (Hl0 : 0 <= Curve.BASE_PRICE * (s - 0) / Curve.SCALE).
  { apply Z.div_pos; [unfold Curve.BASE_PRICE; lia | reflexivity]. }
  assert (Hq0 : 0 <= Curve.SLOPE * (s + 0) * (s - 0) / (2 * Curve.SCALE * Curve.SCALE)).
  { apply Z.div_pos; [unfold Curve.SLOPE; nia | reflexivity]. }
  eexists. split.
  - apply integralCost_fits; try lia.
    unfold Curve.SLOPE, Curve.SCALE, Curve.BASE_PRICE in *.
    rewrite MAX_UINT256_eq in *.
    destruct (Z.le_gt_cases (s + 0) (2 ^ 200)) as [Hsmall | Hbig]; [lia|].
    assert (2 ^ 200 * s <= s * s) by nia. lia.
  - lia.
Qed.

(** ** The scenario states are reachable *)

Lemma uint256_1 : is_uint256 1.
Proof. unfold is_uint256. rewrite MAX_UINT256_eq. lia. Qed.

Lemma uint256_ONE_USDC : is_uint256 Scenario.ONE_USDC.
Proof. unfold is_uint256, Scenario.ONE_USDC. rewrite MAX_UINT256_eq. lia. Qed.

Lemma reach_curve0 :
  Curve.reachable Scenario.curve_address Scenario.curve_usdc Scenario.curve0.
Proof. apply Curve.reach_init. Defined.

Lemma reach_curve_buy1 :
  Curve.reachable Scenario.curve_address Scenario.curve_usdc Scenario.curve_buy1.
Proof.
  eapply Curve.reach_step; [apply reach_curve0|].
  apply (Curve.step_buy Scenario.alice 1 Scenario.curve0 99);
    [apply uint256_1 | vm_compute; reflexivity].
Defined.

Lemma reach_curve_buy1_twice :
  Curve.reachable Scenario.curve_address Scenario.curve_usdc Scenario.curve_buy1_twice.
Proof.
  eapply Curve.reach_step; [apply reach_curve_buy1|].
  apply (Curve.step_buy Scenario.bob 1 Scenario.curve_buy1 99);
    [apply uint256_1 | vm_compute; reflexivity].
Defined.

Lemma reach_curve_buy1M :
  Curve.reachable Scenario.curve_address Scenario.curve_usdc Scenario.curve_buy1M.
Proof.
  eapply Curve.reach_step; [apply reach_curve0|].
  apply (Curve.step_buy Scenario.alice Scenario.ONE_USDC Scenario.curve0 13177446);
    [apply uint256_ONE_USDC | vm_compute; reflexivity].
Defined.

Lemma reach_curve_buy1M_sellall :
  Curve.reachable Scenario.curve_address Scenario.curve_usdc
    Scenario.curve_buy1M_sellall.
Proof.
  eapply Curve.reach_step; [apply reach_curve_buy1M|].
  apply (Curve.step_sell Scenario.alice 13177446 Scenario.curve_buy1M 999999).
  - unfold is_uint256. rewrite MAX_UINT256_eq. lia.
  - vm_compute; reflexivity.
Defined.

Lemma reach_curve_buy1M_sell10 :
  Curve.reachable Scenario.curve_address Scenario.curve_usdc
    Scenario.curve_buy1M_sell10.
Proof.
  eapply Curve.reach_step; [apply reach_curve_buy1M|].
  apply (Curve.step_sell Scenario.alice 10 Scenario.curve_buy1M 1).
  - unfold is_uint256. rewrite MAX_UINT256_eq. lia.
  - vm_compute; reflexivity.
Defined.

(** ** C1 and C2: the reserve and the integral of the price curve *)

(** C1.  In every state reachable from the initial one by successful buys
    and sells, the cost integral from [0] to the total supply, as
    [_integralCost] computes it, is returned without a revert and is at
    most [reserveBalance]: the reserve is never under-collateralized. *)
Theorem reserve_covers_computed_integral this usdc0 w :
  Curve.reachable this usdc0 w ->
  exists c, Curve._integralCost 0 (Curve.totalSupply w) = Ok c /\
            c <= Curve.reserveBalance w.
Proof.
  intros Hreach. apply solvent_reachable in Hreach.
  destruct (solvent_covers w Hreach) as (c & Hc & Hle).
  exists c. split; [assumption | lia].
Qed.

Lemma reserve_covers_computed_integral_witness :
  Curve.reachable Scenario.curve_address Scenario.curve_usdc Scenario.curve_buy1M /\
  exists c, Curve._integralCost 0 (Curve.totalSupply Scenario.curve_buy1M) = Ok c /\
            c <= Curve.reserveBalance Scenario.curve_buy1M.
Proof.
  split; [apply reach_curve_buy1M|].
  apply (reserve_covers_computed_integral Scenario.curve_address Scenario.curve_usdc).
  apply reach_curve_buy1M.
Defined.

(** C2 as stated fails.  After [buy(1)] on the fresh market the supply is
    99 raw tokens and the reserve is 1, while the integral up to 99 is
    below 1 (its floor and the computed cost are 0); after buying with
    one USDC and selling all minted tokens the supply is back to zero and
    the reserve is 1, not 0. *)
Lemma reserve_equals_integral_counterexample :
  Curve.reachable Scenario.curve_address Scenario.curve_usdc Scenario.curve_buy1 /\
  Curve.totalSupply Scenario.curve_buy1 = 99 /\
  Curve.reserveBalance Scenario.curve_buy1 = 1 /\
  Curve._integralCost 0 (Curve.totalSupply Scenario.curve_buy1) = Ok 0 /\
  Curve.exact_cost_floor 0 (Curve.totalSupply Scenario.curve_buy1) = 0 /\
  Curve.integral_x2S2 (Curve.totalSupply Scenario.curve_buy1)
    <> 2 * Curve.SCALE * Curve.SCALE * Curve.reserveBalance Scenario.curve_buy1 /\
  Curve.reachable Scenario.curve_address Scenario.curve_usdc
    Scenario.curve_buy1M_sellall /\
  Curve.totalSupply Scenario.curve_buy1M_sellall = 0 /\
  Curve.reserveBalance Scenario.curve_buy1M_sellall = 1.
Proof.
  split; [apply reach_curve_buy1|].
  do 4 (split; [vm_compute; reflexivity|]).
  split; [vm_compute; discriminate|].
  split; [apply reach_curve_buy1M_sellall|].
  split; vm_compute; reflexivity.
Qed.

(** C2, amended.  The reserve is zero in the initial state, and in every
    reachable state it is at least the exact integral of the price curve
    from [0] to the total supply (hence at least its floor); each
    successful buy adds exactly the amount paid and each successful sell
    removes exactly the amount returned. *)
Theorem reserve_at_least_exact_integral this usdc0 :
  Curve.reserveBalance (Curve.init this usdc0) = 0 /\
  (forall w, Curve.reachable this usdc0 w ->
     Curve.integral_x2S2 (Curve.totalSupply w)
       <= 2 * Curve.SCALE * Curve.SCALE * Curve.reserveBalance w /\
     Curve.exact_cost_floor 0 (Curve.totalSupply w) <= Curve.reserveBalance w) /\
  (forall w c x t w', Curve.reachable this usdc0 w ->
     Curve.buy c x w = Ok (t, w') ->
     Curve.reserveBalance w' = Curve.reserveBalance w + x) /\
  (forall w c n u w', Curve.reachable this usdc0 w ->
     Curve.sell c n w = Ok (u, w') ->
     Curve.reserveBalance w' = Curve.reserveBalance w - u).
Proof.
  split; [reflexivity|]. split; [|split].
  - intros w Hreach. apply solvent_reachable in Hreach.
    destruct Hreach as (_ & Hs & Hr & Hinv). split; [assumption|].
    unfold Curve.exact_cost_floor.
    apply Z.div_le_upper_bound; [reflexivity|].
    change (Curve.integral_x2S2 0) with 0. lia.
  - intros w c x t w' _ Hbuy. apply buy_Ok in Hbuy. tauto.
  - intros w c n u w' Hreach Hsell. apply solvent_reachable in Hreach.
    apply sell_Ok in Hsell; [tauto|]. apply Hreach.
Qed.

Lemma reserve_at_least_exact_integral_witness :
  Curve.reachable Scenario.curve_address Scenario.curve_usdc Scenario.curve_buy1M /\
  Curve.integral_x2S2 (Curve.totalSupply Scenario.curve_buy1M)
    <= 2 * Curve.SCALE * Curve.SCALE * Curve.reserveBalance Scenario.curve_buy1M /\
  Curve.exact_cost_floor 0 (Curve.totalSupply Scenario.curve_buy1M)
    <= Curve.reserveBalance Scenario.curve_buy1M.
Proof.
  split; [apply reach_curve_buy1M|].
  apply (proj1 (proj2 (reserve_at_least_exact_integral
                         Scenario.curve_address Scenario.curve_usdc))).
  apply reach_curve_buy1M.
Defined.

(** ** C3: the computed cost against the floor of the exact integral *)

(** The difference of the scaled integrals splits into the two numerators
    that [_integralCost] divides separately. *)
Lemma integral_diff_split s0 s1 :
  Curve.integral_x2S2 s1 - Curve.integral_x2S2 s0
  = 2 * Curve.SCALE * (Curve.BASE_PRICE * (s1 - s0))
    + Curve.SLOPE * (s1 + s0) * (s1 - s0).
Proof. unfold Curve.integral_x2S2. ring. Qed.

(** Flooring two terms separately loses at most one unit against the
    floor of their sum. *)
Lemma two_floors_bounds A B S :
  0 < S ->
  (2 * S * A + B) / (2 * S * S) - 1 <= A / S + B / (2 * S * S)
    <= (2 * S * A + B) / (2 * S * S).
Proof.
  intros HS.
  assert (HD : 0 < 2 * S * S) by nia.
  pose proof (Z.div_mod A S ltac:(lia)) as HA.
  pose proof (Z.mod_pos_bound A S HS) as HrA.
  pose proof (Z.div_mod B (2 * S * S) ltac:(lia)) as HB.
  pose proof (Z.mod_pos_bound B (2 * S * S) HD) as HrB.
  set (qa := A / S) in *. set (ra := A mod S) in *.
  set (qb := B / (2 * S * S)) in *. set (rb := B mod (2 * S * S)) in *.
  assert (Hnum : 2 * S * A + B = (qa + qb) * (2 * S * S) + (2 * S * ra + rb)) by nia.
  assert (Hrem : 0 <= 2 * S * ra + rb < 2 * (2 * S * S)) by nia.
  rewrite Hnum. rewrite Z.div_add_l by lia.
  assert (H0 : 0 <= (2 * S * ra + rb) / (2 * S * S)) by (apply Z.div_pos; lia).
  assert (H1 : (2 * S * ra + rb) / (2 * S * S) < 2)
    by (apply Z.div_lt_upper_bound; lia).
  lia.
Qed.

(** C3 as stated fails: for the supplies [0] and [9999] the exact integral
    is [99.99 + 0.4999...], whose floor is 100, and the code returns
    [99 + 0]. *)
Lemma integralCost_exact_floor_counterexample :
  Curve._integralCost 0 9999 = Ok 99 /\ Curve.exact_cost_floor 0 9999 = 100.
Proof. split; vm_compute; reflexivity. Qed.

(** C3, amended.  For supplies [s0 <= s1], whenever [_integralCost]
    returns, it returns the sum of the two separately floored terms,
    which is the floor of the exact integral or one unit less; and it
    does return for supplies below [2^128]. *)
Theorem integralCost_floor_bounds s0 s1 :
  0 <= s0 <= s1 ->
  (forall c, Curve._integralCost s0 s1 = Ok c ->
     c = Curve.BASE_PRICE * (s1 - s0) / Curve.SCALE
         + Curve.SLOPE * (s1 + s0) * (s1 - s0) / (2 * Curve.SCALE * Curve.SCALE) /\
     Curve.exact_cost_floor s0 s1 - 1 <= c <= Curve.exact_cost_floor s0 s1) /\
  (s1 < 2 ^ 128 -> exists c, Curve._integralCost s0 s1 = Ok c).
Proof.
  intros Hs. split.
  - intros c Hc. apply integralCost_Ok in Hc; [|lia].
    destruct Hc as (_ & -> & _ & _). split; [reflexivity|].
    unfold Curve.exact_cost_floor. rewrite integral_diff_split.
    apply two_floors_bounds. reflexivity.
  - intros Hbound. eexists. apply integralCost_fits; [assumption | | |].
    + unfold Curve.SLOPE. rewrite MAX_UINT256_eq.
      change (2 ^ 128) with 340282366920938463463374607431768211456 in Hbound. lia.
    + apply Z.div_le_upper_bound; [reflexivity|].
      unfold Curve.SLOPE, Curve.SCALE. rewrite MAX_UINT256_eq.
      change (2 ^ 128) with 340282366920938463463374607431768211456 in Hbound. nia.
    + assert (H1 : Curve.BASE_PRICE * (s1 - s0) / Curve.SCALE <= 2 ^ 128).
      { apply Z.div_le_upper_bound; [reflexivity|].
        unfold Curve.BASE_PRICE, Curve.SCALE.
        change (2 ^ 128) with 340282366920938463463374607431768211456 in *. lia. }
      assert (H2 : Curve.SLOPE * (s1 + s0) * (s1 - s0) / (2 * Curve.SCALE * Curve.SCALE)
                   <= 2 ^ 255).
      { apply Z.div_le_upper_bound; [reflexivity|].
        unfold Curve.SLOPE, Curve.SCALE.
        change (2 ^ 128) with 340282366920938463463374607431768211456 in Hbound.
        change (2 ^ 255) with 57896044618658097711785492504343953926634992332820282019728792003956564819968.
        nia. }
      rewrite MAX_UINT256_eq.
      change (2 ^ 128) with 340282366920938463463374607431768211456 in H1.
      change (2 ^ 255) with 57896044618658097711785492504343953926634992332820282019728792003956564819968 in H2.
      lia.
Qed.

Lemma integralCost_floor_bounds_witness :
  0 <= 0 <= 9999 /\
  (forall c, Curve._integralCost 0 9999 = Ok c ->
     c = Curve.BASE_PRICE * (9999 - 0) / Curve.SCALE
         + Curve.SLOPE * (9999 + 0) * (9999 - 0) / (2 * Curve.SCALE * Curve.SCALE) /\
     Curve.exact_cost_floor 0 9999 - 1 <= c <= Curve.exact_cost_floor 0 9999) /\
  (9999 < 2 ^ 128 -> exists c, Curve._integralCost 0 9999 = Ok c).
Proof.
  split; [lia|]. apply (integralCost_floor_bounds 0 9999). lia.
Defined.

(** ** C6: the price before and after a trade *)

Lemma getPrice_fits w :
  0 <= Curve.totalSupply w ->
  Curve.SLOPE * Curve.totalSupply w <= MAX_UINT256 ->
  Curve.getPrice w
  = Ok (Curve.BASE_PRICE + Curve.SLOPE * Curve.totalSupply w / Curve.SCALE).
Proof.
  intros Hs Hfit. unfold Curve.getPrice.
  rewrite mul_chk_fits by assumption. simpl.
  apply add_chk_fits.
  assert (H : Curve.SLOPE * Curve.totalSupply w / Curve.SCALE <= MAX_UINT256 / Curve.SCALE)
    by (apply Z.div_le_mono; [reflexivity | assumption]).
  revert H. unfold Curve.BASE_PRICE, Curve.SCALE. rewrite MAX_UINT256_eq.
  match goal with |- context [?a / ?b <= ?c / 1000000] =>
    let v := eval vm_compute in (c / 1000000) in change (c / 1000000) with v end.
  lia.
Qed.

(** The supply a successful [buy] ends with is far below the overflow of
    the price formula. *)
Lemma buy_supply_bound s x :
  0 <= s -> 0 <= x ->
  Curve.linear_coeff s * Curve.linear_coeff s
  + Curve.SLOPE * (2 * Curve.SCALE * Curve.SCALE * x) <= MAX_UINT256 ->
  Curve.SLOPE * (s + Curve.solve_tokens s x) < 2 ^ 128.
Proof.
  intros Hs Hx Hdisc.
  assert (Hb : 0 <= Curve.linear_coeff s)
    by (unfold Curve.linear_coeff, Curve.SCALE, Curve.BASE_PRICE, Curve.SLOPE; lia).
  assert (HE : 0 <= 2 * Curve.SCALE * Curve.SCALE * x) by (unfold Curve.SCALE; lia).
  unfold Curve.solve_tokens.
  set (b := Curve.linear_coeff s) in *.
  set (D := b * b + Curve.SLOPE * (2 * Curve.SCALE * Curve.SCALE * x)) in *.
  assert (Hq : Z.sqrt D < 2 ^ 128).
  { apply Z.sqrt_lt_square; [unfold D, Curve.SLOPE; nia | lia |].
    change (2 ^ 128 * 2 ^ 128) with (MAX_UINT256 + 1). lia. }
  assert (Ht : Curve.SLOPE * ((Z.sqrt D - b) / Curve.SLOPE) <= Z.sqrt D - b)
    by (apply Z.mul_div_le; reflexivity).
  assert (Hsb : Curve.SLOPE * s <= b)
    by (unfold b, Curve.linear_coeff, Curve.SCALE, Curve.BASE_PRICE; lia).
  lia.
Qed.

Lemma floor_price_mono a b :
  a <= b -> a / Curve.SCALE <= b / Curve.SCALE.
Proof. intros H. apply Z.div_le_mono; [reflexivity | assumption]. Qed.

Lemma floor_price_strict a b :
  a + Curve.SCALE <= b -> a / Curve.SCALE < b / Curve.SCALE.
Proof.
  intros H.
  assert (H1 : (a + 1 * Curve.SCALE) / Curve.SCALE <= b / Curve.SCALE)
    by (apply Z.div_le_mono; [reflexivity | lia]).
  rewrite Z.div_add in H1 by discriminate. lia.
Qed.

(** C6 as stated fails.  [buy(1)] on the fresh market succeeds, mints 99
    raw tokens and leaves the price at 10000; selling 10 raw tokens after
    a buy with one USDC succeeds and leaves the price at 141774. *)
Lemma price_strict_counterexample :
  Curve.getPrice Scenario.curve0 = Ok 10000 /\
  (exists w', Curve.buy Scenario.alice 1 Scenario.curve0 = Ok (99, w') /\
              Curve.getPrice w' = Ok 10000) /\
  Curve.getPrice Scenario.curve_buy1M = Ok 141774 /\
  (exists w', Curve.sell Scenario.alice 10 Scenario.curve_buy1M = Ok (1, w') /\
              Curve.getPrice w' = Ok 141774).
Proof.
  split; [vm_compute; reflexivity|].
  split; [exists Scenario.curve_buy1; split; vm_compute; reflexivity|].
  split; [vm_compute; reflexivity|].
  exists Scenario.curve_buy1M_sell10; split; vm_compute; reflexivity.
Qed.

(** C6, amended.  [getPrice()] returns [BASE_PRICE] at zero supply.  After
    a successful buy it is at least what it was before, and strictly
    greater when the tokens minted move [SLOPE * supply] by a whole
    [SCALE] (at least 100 raw tokens); after a successful sell it is at
    most what it was before, and strictly smaller under the same
    condition on the tokens burned. *)
Theorem price_monotone w :
  0 <= Curve.totalSupply w <= MAX_UINT256 ->
  (Curve.totalSupply w = 0 -> Curve.getPrice w = Ok Curve.BASE_PRICE) /\
  (forall c x t w', is_uint256 x -> Curve.buy c x w = Ok (t, w') ->
     exists p p', Curve.getPrice w = Ok p /\ Curve.getPrice w' = Ok p' /\
                  p <= p' /\ (Curve.SCALE <= Curve.SLOPE * t -> p < p')) /\
  (forall c n u w', is_uint256 n -> Curve.sell c n w = Ok (u, w') ->
     exists p p', Curve.getPrice w = Ok p /\ Curve.getPrice w' = Ok p' /\
                  p' <= p /\ (Curve.SCALE <= Curve.SLOPE * n -> p' < p)).
Proof.
  intros Hs. split; [|split].
  - intros H0. unfold Curve.getPrice. rewrite H0. reflexivity.
  - intros c x t w' Hx Hbuy. apply buy_Ok in Hbuy.
    destruct Hbuy as (_ & _ & _ & Htok & _ & _ & Hsup & _).
    apply tokensForExactUsdc_Ok in Htok; [| lia | apply Hx].
    destruct Htok as [-> Hdisc].
    destruct (solve_tokens_cost (Curve.totalSupply w) x) as [Ht _];
      [lia | apply Hx |].
    pose proof (buy_supply_bound (Curve.totalSupply w) x ltac:(lia) (proj1 Hx) Hdisc) as Hb.
    set (t := Curve.solve_tokens (Curve.totalSupply w) x) in *.
    assert (H128 : 2 ^ 128 <= MAX_UINT256) by (vm_compute; discriminate).
    do 2 eexists. split; [|split; [|split]].
    + apply getPrice_fits; [lia | unfold Curve.SLOPE in *; lia].
    + apply getPrice_fits; rewrite Hsup; [lia | lia].
    + rewrite Hsup. apply Z.add_le_mono_l, floor_price_mono.
      unfold Curve.SLOPE. lia.
    + intros Hbig. rewrite Hsup. apply Z.add_lt_mono_l, floor_price_strict. lia.
  - intros c n u w' Hn Hsell. apply sell_Ok in Hsell; [|assumption].
    destruct Hsell as (_ & _ & _ & _ & Hle & _ & Hcost & _ & _ & Hsup & _).
    unfold Curve._integralCost in Hcost.
    unbind Hcost as d Hd. unbind Hcost as lin Hlin. unbind Hcost as sum Hsum.
    unbind Hcost as scaled Hscaled. inv_chk. subst.
    do 2 eexists. split; [|split; [|split]].
    + apply getPrice_fits; [lia | unfold Curve.SLOPE in *; lia].
    + apply getPrice_fits; rewrite Hsup; [lia | unfold Curve.SLOPE in *; lia].
    + rewrite Hsup. apply Z.add_le_mono_l, floor_price_mono.
      unfold Curve.SLOPE. lia.
    + intros Hbig. rewrite Hsup. apply Z.add_lt_mono_l, floor_price_strict. lia.
Qed.

Lemma price_monotone_witness :
  0 <= Curve.totalSupply Scenario.curve0 <= MAX_UINT256 /\
  exists p p', Curve.getPrice Scenario.curve0 = Ok p /\
               Curve.getPrice Scenario.curve_buy1M = Ok p' /\
               p <= p' /\ (Curve.SCALE <= Curve.SLOPE * 13177446 -> p < p').
Proof.
  assert (H : 0 <= Curve.totalSupply Scenario.curve0 <= MAX_UINT256)
    by (vm_compute; split; discriminate).
  split; [exact H|].
  apply (proj1 (proj2 (price_monotone Scenario.curve0 H))
           Scenario.alice Scenario.ONE_USDC 13177446 Scenario.curve_buy1M).
  - vm_compute; split; discriminate.
  - vm_compute; reflexivity.
Defined.

(** ** C7: two equal buys in sequence *)

Lemma linear_coeff_shift s t :
  Curve.linear_coeff (s + t) = Curve.linear_coeff s + Curve.SLOPE * t.
Proof. unfold Curve.linear_coeff. ring. Qed.

(** The closed form mints no more on a higher supply. *)
Lemma solve_tokens_antitone s s' x :
  0 <= s <= s' -> 0 <= x ->
  Curve.solve_tokens s' x <= Curve.solve_tokens s x.
Proof.
  intros Hs Hx. unfold Curve.solve_tokens.
  apply Z.div_le_mono; [reflexivity|].
  apply sqrt_excess_antitone.
  - unfold Curve.linear_coeff, Curve.SCALE, Curve.BASE_PRICE, Curve.SLOPE. lia.
  - unfold Curve.SLOPE, Curve.SCALE. lia.
Qed.

(** It mints strictly less once the first mint is large against the
    supply it started from. *)
Lemma solve_tokens_strict s x :
  0 <= s -> 0 <= x ->
  s + Curve.SCALE < Curve.solve_tokens s x * (Curve.solve_tokens s x - 1) ->
  Curve.solve_tokens (s + Curve.solve_tokens s x) x < Curve.solve_tokens s x.
Proof.
  intros Hs Hx Hbig.
  assert (Hb : 0 <= Curve.linear_coeff s)
    by (unfold Curve.linear_coeff, Curve.SCALE, Curve.BASE_PRICE, Curve.SLOPE; lia).
  assert (HE : 0 <= 2 * Curve.SCALE * Curve.SCALE * x) by (unfold Curve.SCALE; lia).
  assert (HS : 0 < Curve.SLOPE) by reflexivity.
  pose proof (solve_cost_next_gt Curve.SLOPE (Curve.linear_coeff s)
                (2 * Curve.SCALE * Curve.SCALE * x) HS Hb HE) as Hnext.
  pose proof (solve_tokens_nonneg Curve.SLOPE (Curve.linear_coeff s)
                (2 * Curve.SCALE * Curve.SCALE * x) HS Hb HE) as Ht.
  fold (Curve.solve_tokens s x) in Hnext, Ht.
  set (t := Curve.solve_tokens s x) in *.
  unfold Curve.solve_tokens at 1. rewrite linear_coeff_shift.
  set (b := Curve.linear_coeff s) in *.
  set (E := 2 * Curve.SCALE * Curve.SCALE * x) in *.
  assert (Hbs : b = Curve.SLOPE * (s + Curve.SCALE))
    by (unfold b, Curve.linear_coeff, Curve.SCALE, Curve.BASE_PRICE, Curve.SLOPE; lia).
  assert (Ht1 : 1 <= t) by nia.
  apply Z.div_lt_upper_bound; [assumption|].
  assert (Hlt : Z.sqrt ((b + Curve.SLOPE * t) * (b + Curve.SLOPE * t) + Curve.SLOPE * E)
                < b + Curve.SLOPE * t + Curve.SLOPE * t).
  { apply Z.sqrt_lt_square; [unfold Curve.SLOPE in *; nia | unfold Curve.SLOPE in *; lia|].
    assert (Hkey : E < 2 * b * t + 3 * Curve.SLOPE * t * t).
    { rewrite Hbs in *. unfold Curve.SLOPE, Curve.SCALE in *. nia. }
    unfold Curve.SLOPE in *. nia. }
  lia.
Qed.

(** C7 as stated fails: two buys of 1 raw unit of USDC in sequence on the
    fresh market both succeed and both mint 99 raw tokens. *)
Lemma second_buy_fewer_counterexample :
  exists w1 w2,
    Curve.buy Scenario.alice 1 Scenario.curve0 = Ok (99, w1) /\
    Curve.buy Scenario.bob 1 w1 = Ok (99, w2).
Proof.
  exists Scenario.curve_buy1, Scenario.curve_buy1_twice.
  split; vm_compute; reflexivity.
Qed.

(** C7, amended.  Of two successful buys of the same amount in sequence,
    the second mints at most as many tokens as the first, and strictly
    fewer whenever the first mint [t1] satisfies
    [t1 * (t1 - 1) > supply before + SCALE]. *)
Theorem second_buy_not_more w c1 c2 x t1 w1 t2 w2 :
  0 <= Curve.totalSupply w <= MAX_UINT256 ->
  is_uint256 x ->
  Curve.buy c1 x w = Ok (t1, w1) ->
  Curve.buy c2 x w1 = Ok (t2, w2) ->
  t2 <= t1 /\
  (Curve.totalSupply w + Curve.SCALE < t1 * (t1 - 1) -> t2 < t1).
Proof.
  intros Hs Hx Hbuy1 Hbuy2.
  apply buy_Ok in Hbuy1.
  destruct Hbuy1 as (_ & _ & _ & Htok1 & _ & _ & Hsup1 & Hfit1 & _).
  apply tokensForExactUsdc_Ok in Htok1; [| lia | apply Hx].
  destruct Htok1 as [Ht1 _].
  destruct (solve_tokens_cost (Curve.totalSupply w) x) as [Hnn _];
    [lia | apply Hx |].
  rewrite <- Ht1 in Hnn.
  apply buy_Ok in Hbuy2.
  destruct Hbuy2 as (_ & _ & _ & Htok2 & _).
  apply tokensForExactUsdc_Ok in Htok2; [| lia | apply Hx].
  destruct Htok2 as [Ht2 _]. rewrite Hsup1 in Ht2.
  split.
  - rewrite Ht2, Ht1. apply solve_tokens_antitone; [lia | apply Hx].
  - intros Hbig. subst t1 t2.
    apply solve_tokens_strict; [lia | apply Hx | assumption].
Qed.

Lemma second_buy_not_more_witness :
  exists t2 w2,
    Curve.buy Scenario.bob Scenario.ONE_USDC Scenario.curve_buy1M = Ok (t2, w2) /\
    t2 <= 13177446 /\
    (Curve.totalSupply Scenario.curve0 + Curve.SCALE < 13177446 * (13177446 - 1) ->
     t2 < 13177446).
Proof.
  eexists. eexists. split; [vm_compute; reflexivity|].
  eapply (second_buy_not_more Scenario.curve0 Scenario.alice Scenario.bob
            Scenario.ONE_USDC 13177446 Scenario.curve_buy1M).
  - vm_compute; split; discriminate.
  - vm_compute; split; discriminate.
  - vm_compute; reflexivity.
  - vm_compute; reflexivity.
Defined.

(** ** The ERC20 ledger: balances against the total supply *)

Lemma sum_fold_nonneg (m : gmap address Z) :
  map_Forall (fun _ v => 0 <= v) m ->
  0 <= map_fold (fun _ v acc => v + acc) 0 m.
Proof.
  revert m. apply (map_fold_weak_ind
    (fun r m => map_Forall (fun _ v => 0 <= v) m -> 0 <= r)).
  - intros _. lia.
  - intros i x m r Hi IH Hall.
    apply map_Forall_insert in Hall; [|assumption].
    destruct Hall as [Hx Hm]. specialize (IH Hm). lia.
Qed.

Lemma sum_fold_delete (m : gmap address Z) a x :
  m !! a = Some x ->
  map_fold (fun _ v acc => v + acc) 0 m
  = x + map_fold (fun _ v acc => v + acc) 0 (delete a m).
Proof.
  intros Ha.
  apply (map_fold_delete_L (fun (_ : address) (v acc : Z) => v + acc) 0 a x m);
    [|assumption].
  intros. lia.
Qed.

Lemma wf_balance_nonneg tk a : ERC20.wf tk -> 0 <= ERC20.balanceOf tk a.
Proof.
  intros (Hall & _ & _). unfold ERC20.balanceOf.
  destruct (ERC20.balances tk !! a) as [x|] eqn:Hx; simpl; [|lia].
  exact (Hall a x Hx).
Qed.

(** Two distinct accounts together hold at most the total supply: what
    makes the [unchecked] credit of a transfer safe. *)
Lemma wf_two_balances tk a b :
  ERC20.wf tk -> a <> b ->
  ERC20.balanceOf tk a + ERC20.balanceOf tk b <= ERC20.totalSupply tk.
Proof.
  intros (Hall & Hsum & _) Hne. rewrite <- Hsum.
  unfold ERC20.sum_balances, ERC20.balanceOf.
  set (m := ERC20.balances tk) in *.
  assert (Hb : forall m' : gmap address Z, map_Forall (fun _ v => 0 <= v) m' ->
                 default 0 (m' !! b) <= map_fold (fun _ v acc => v + acc) 0 m').
  { intros m' Hall'. destruct (m' !! b) as [y|] eqn:Hy; simpl.
    - rewrite (sum_fold_delete m' b y Hy).
      pose proof (sum_fold_nonneg (delete b m') (map_Forall_delete _ _ _ Hall')). lia.
    - apply sum_fold_nonneg. assumption. }
  destruct (m !! a) as [x|] eqn:Hx; simpl.
  - rewrite (sum_fold_delete m a x Hx).
    specialize (Hb (delete a m) (map_Forall_delete _ _ _ Hall)).
    rewrite lookup_delete_ne in Hb by assumption. lia.
  - specialize (Hb m Hall). lia.
Qed.

Lemma wf_balance_le tk a :
  ERC20.wf tk -> ERC20.balanceOf tk a <= ERC20.totalSupply tk.
Proof.
  intros Hwf.
  destruct (N.eq_dec a 0%N) as [->|Hne].
  - pose proof (wf_two_balances tk 1%N 0%N Hwf ltac:(discriminate)).
    pose proof (wf_balance_nonneg tk 1%N Hwf). lia.
  - pose proof (wf_two_balances tk a 0%N Hwf Hne).
    pose proof (wf_balance_nonneg tk 0%N Hwf). lia.
Qed.

(** A successful [_transfer] between two distinct accounts of a
    well-formed ledger. *)
Lemma ERC20_transfer_Ok from to v tk tk' :
  0 <= v ->
  ERC20._transfer from to v tk = Ok tk' ->
  from <> 0%N /\ to <> 0%N /\ v <= ERC20.balanceOf tk from /\
  ERC20.totalSupply tk' = ERC20.totalSupply tk /\
  (ERC20.wf tk -> from <> to ->
     ERC20.balanceOf tk' to = ERC20.balanceOf tk to + v /\
     ERC20.balanceOf tk' from = ERC20.balanceOf tk from - v).
Proof.
  intros Hv. unfold ERC20._transfer.
  destruct (N.eqb_spec from 0) as [|Hf]; [discriminate|].
  destruct (N.eqb_spec to 0) as [|Ht]; [discriminate|].
  unfold ERC20._update.
  destruct (N.eqb_spec from 0); [contradiction|].
  destruct (N.eqb_spec to 0); [contradiction|]. cbv zeta.
  destruct (Z.ltb_spec (ERC20.balanceOf tk from) v) as [|Hbal]; [discriminate|].
  simpl. intros [= <-]. do 3 (split; [assumption|]).
  split; [reflexivity|].
  intros Hwf Hne. split.
  - rewrite ERC20_balanceOf_set_balance_eq.
    rewrite ERC20_balanceOf_set_balance_ne by assumption.
    apply wrap_small.
    pose proof (wf_two_balances tk from to Hwf Hne).
    pose proof (wf_balance_nonneg tk to Hwf).
    destruct Hwf as (_ & _ & Hts). lia.
  - rewrite ERC20_balanceOf_set_balance_ne by congruence.
    apply ERC20_balanceOf_set_balance_eq.
Qed.

Lemma ERC20_spendAllowance_Ok owner spender v tk tk' :
  ERC20._spendAllowance owner spender v tk = Ok tk' ->
  ERC20.balances tk' = ERC20.balances tk /\
  ERC20.totalSupply tk' = ERC20.totalSupply tk.
Proof.
  unfold ERC20._spendAllowance. cbv zeta.
  destruct (_ <? MAX_UINT256); [destruct (_ <? v); [discriminate|] |];
    intros [= <-]; auto.
Qed.

Lemma ERC20_wf_spendAllowance owner spender v tk tk' :
  ERC20._spendAllowance owner spender v tk = Ok tk' -> ERC20.wf tk -> ERC20.wf tk'.
Proof.
  intros H. apply ERC20_spendAllowance_Ok in H. destruct H as [Hb Ht].
  unfold ERC20.wf, ERC20.sum_balances. rewrite Hb, Ht. auto.
Qed.

Lemma ERC20_transferFrom_Ok sp from to v tk tk' :
  0 <= v ->
  ERC20.transferFrom sp from to v tk = Ok tk' ->
  from <> 0%N /\ to <> 0%N /\ v <= ERC20.balanceOf tk from /\
  ERC20.totalSupply tk' = ERC20.totalSupply tk /\
  (ERC20.wf tk -> from <> to ->
     ERC20.balanceOf tk' to = ERC20.balanceOf tk to + v /\
     ERC20.balanceOf tk' from = ERC20.balanceOf tk from - v).
Proof.
  intros Hv H. unfold ERC20.transferFrom in H. unbind H as tk1 Hspend.
  pose proof (ERC20_wf_spendAllowance _ _ _ _ _ Hspend) as Hwf.
  apply ERC20_spendAllowance_Ok in Hspend. destruct Hspend as [Hb Ht].
  apply ERC20_transfer_Ok in H; [|assumption].
  unfold ERC20.balanceOf in *. rewrite Hb, Ht in H.
  destruct H as (? & ? & ? & ? & Hrest). repeat split; try assumption;
    apply Hrest; auto.
Qed.

Lemma ERC20_transferFrom_succeeds sp from to v tk :
  from <> 0%N -> to <> 0%N ->
  v <= ERC20.balanceOf tk from -> v <= ERC20.allowance tk from sp ->
  exists tk', ERC20.transferFrom sp from to v tk = Ok tk'.
Proof.
  intros Hf Ht Hbal Hal. unfold ERC20.transferFrom, ERC20._spendAllowance.
  cbv zeta.
  assert (Hgo : forall tk1, ERC20.balances tk1 = ERC20.balances tk ->
            exists tk', ERC20._transfer from to v tk1 = Ok tk').
  { intros tk1 Hb. unfold ERC20._transfer, ERC20._update.
    destruct (N.eqb_spec from 0); [contradiction|].
    destruct (N.eqb_spec to 0); [contradiction|]. cbv zeta.
    unfold ERC20.balanceOf at 1 2. rewrite Hb. fold (ERC20.balanceOf tk from).
    destruct (Z.ltb_spec (ERC20.balanceOf tk from) v); [lia|].
    simpl. eauto. }
  destruct (_ <? MAX_UINT256).
  - destruct (Z.ltb_spec (ERC20.allowance tk from sp) v); [lia|].
    simpl. apply Hgo. reflexivity.
  - simpl. apply Hgo. reflexivity.
Qed.

(** ** The vault: what the operations compute *)

Lemma vault_nonReentrant_Ok {A} (body : Vault.State -> result (A * Vault.State)) w a w' :
  Vault.nonReentrant body w = Ok (a, w') ->
  Vault.entered w = false /\
  exists w1, body (Vault.set_entered true w) = Ok (a, w1) /\
             w' = Vault.set_entered false w1.
Proof.
  unfold Vault.nonReentrant. destruct (Vault.entered w); [discriminate|].
  intros H. unbind H as r Hr. destruct r as [a1 w1]. injection H as <- <-.
  split; [reflexivity|]. exists w1. auto.
Qed.

Lemma convertToShares_Ok assets w s :
  Vault.convertToShares assets w = Ok s ->
  exists ta, Vault.totalAssets w = Ok ta /\
    s = assets * (Vault.totalSupply w + Vault.VIRTUAL_OFFSET)
        / (ta + Vault.VIRTUAL_OFFSET) /\
    s <= MAX_UINT256.
Proof.
  unfold Vault.convertToShares. intros H.
  unbind H as num Hnum. unbind H as ta Hta. unbind H as den Hden.
  rewrite mulDivR_Floor in H. inv_chk. subst. eauto.
Qed.

Lemma convertToAssets_Ok shares w a :
  Vault.convertToAssets shares w = Ok a ->
  exists ta, Vault.totalAssets w = Ok ta /\
    a = shares * (ta + Vault.VIRTUAL_OFFSET)
        / (Vault.totalSupply w + Vault.VIRTUAL_OFFSET) /\
    a <= MAX_UINT256.
Proof.
  unfold Vault.convertToAssets. intros H.
  unbind H as ta Hta. unbind H as num Hnum. unbind H as den Hden.
  rewrite mulDivR_Floor in H. inv_chk. subst. eauto.
Qed.

(** A successful [deposit]: what was checked and what changed. *)
Lemma deposit_Ok c a r w s w' :
  0 <= a ->
  Vault.deposit c a r w = Ok (s, w') ->
  Vault.entered w = false /\ a <> 0 /\ r <> 0%N /\ s <> 0 /\
  Vault.convertToShares a w = Ok s /\
  ERC20.transferFrom (Vault.self w) c (Vault.self w) a (Vault.USDC w)
    = Ok (Vault.USDC w') /\
  ERC20._mint r s (Vault.token w) = Ok (Vault.token w') /\
  Vault.totalSupply w' = Vault.totalSupply w + s /\
  Vault.managedAssets w' = Vault.managedAssets w /\
  Vault.self w' = Vault.self w /\
  Vault.owner w' = Vault.owner w /\
  Vault.entered w' = false /\
  Vault.events w' = Vault.events w ++ [Vault.Transfer 0%N r s; Vault.Deposit c r a s].
Proof.
  intros Ha. unfold Vault.deposit. intros H.
  apply vault_nonReentrant_Ok in H. destruct H as (Hent & w1 & H & ->).
  destruct (Z.eqb_spec a 0) as [|Ha0]; [discriminate|].
  destruct (N.eqb_spec r 0) as [|Hr]; [discriminate|].
  unbind H as s0 Hconv.
  destruct (Z.eqb_spec s0 0) as [|Hs0]; [discriminate|].
  unbind H as w2 Hpull. unfold Vault.safeTransferFrom in Hpull.
  unbind Hpull as u1 Hu1. injection Hpull as <-.
  unbind H as w3 Hmint. unfold Vault._mint in Hmint.
  unbind Hmint as tk Htk. injection Hmint as <-.
  injection H as <- <-. simpl in *.
  pose proof (ERC20_mint_Ok _ _ _ _ Htk) as (_ & Hts & _).
  unfold Vault.totalSupply. simpl.
  rewrite <- app_assoc. simpl.
  repeat split; auto.
Qed.

(** A successful [redeem]: what was checked and what changed. *)
Lemma redeem_Ok c s r w a w' :
  Vault.redeem c s r w = Ok (a, w') ->
  Vault.entered w = false /\ s <> 0 /\ r <> 0%N /\ a <> 0 /\
  Vault.convertToAssets s w = Ok a /\
  a <= Vault.availableLiquidity w /\
  ERC20._burn c s (Vault.token w) = Ok (Vault.token w') /\
  ERC20.transfer (Vault.self w) r a (Vault.USDC w) = Ok (Vault.USDC w') /\
  Vault.managedAssets w' = Vault.managedAssets w /\
  Vault.self w' = Vault.self w /\
  Vault.owner w' = Vault.owner w /\
  Vault.entered w' = false /\
  Vault.events w' = Vault.events w ++ [Vault.Transfer c 0%N s; Vault.Redeem c r s a].
Proof.
  unfold Vault.redeem. intros H.
  apply vault_nonReentrant_Ok in H. destruct H as (Hent & w1 & H & ->).
  destruct (Z.eqb_spec s 0) as [|Hs0]; [discriminate|].
  destruct (N.eqb_spec r 0) as [|Hr]; [discriminate|].
  unbind H as a0 Hconv.
  destruct (Z.eqb_spec a0 0) as [|Ha0]; [discriminate|]. cbv zeta in H.
  destruct (Z.ltb_spec (Vault.availableLiquidity (Vault.set_entered true w)) a0)
    as [|Hliq]; [discriminate|].
  unbind H as w2 Hburn. unfold Vault._burn in Hburn.
  unbind Hburn as tk Htk. injection Hburn as <-.
  unbind H as w3 Hpay. unfold Vault.safeTransfer in Hpay.
  unbind Hpay as u1 Hu1. injection Hpay as <-.
  injection H as <- <-. simpl in *.
  rewrite <- app_assoc. simpl.
  repeat split; auto.
Qed.

(** ** The vault: [managedAssets] stays a uint256 *)
Lemma onlyOwner_owner w : Vault.onlyOwner (Vault.owner w) w = Ok tt.
Proof. unfold Vault.onlyOwner. rewrite N.eqb_refl. reflexivity. Qed.

Lemma uint256_of_int256_nonneg x :
  0 <= x <= MAX_INT256 -> uint256_of_int256 x = x.
Proof.
  intros H. unfold uint256_of_int256. apply Z.mod_small.
  unfold MAX_INT256 in H.
  change (2 ^ 255) with 57896044618658097711785492504343953926634992332820282019728792003956564819968 in H.
  change (2 ^ 256) with 115792089237316195423570985008687907853269984665640564039457584007913129639936.
  lia.
Qed.

Lemma MIN_INT256_eq :
  MIN_INT256 = -57896044618658097711785492504343953926634992332820282019728792003956564819968.
Proof. reflexivity. Qed.

Lemma MAX_INT256_eq :
  MAX_INT256 = 57896044618658097711785492504343953926634992332820282019728792003956564819967.
Proof. reflexivity. Qed.

(** Every operation keeps [managedAssets] a uint256. *)
Lemma managed_step w w' :
  0 <= Vault.managedAssets w <= MAX_UINT256 ->
  Vault.step w w' ->
  0 <= Vault.managedAssets w' <= MAX_UINT256.
Proof.
  intros Hm Hstep.
  destruct Hstep as [c a r w s w' Ha H | c s r w a w' Hs H | c a w w' Ha H
                    | c a w w' Ha H | c a w w' Ha H | w u Hwfu Hu].
  - apply deposit_Ok in H; [|apply Ha].
    destruct H as (_ & _ & _ & _ & _ & _ & _ & _ & Hman & _). lia.
  - apply redeem_Ok in H.
    destruct H as (_ & _ & _ & _ & _ & _ & _ & _ & Hman & _). lia.
  - unfold Vault.deployFunds in H. unbind H as o Ho.
    destruct (a =? 0); [discriminate|]. cbv zeta in H.
    destruct (_ <? a); [discriminate|].
    unbind H as m Hadd. unbind H as w1 Hpay.
    unfold Vault.safeTransfer in Hpay. unbind Hpay as u Hu. injection Hpay as <-.
    injection H as <-. simpl. inv_chk. subst m. destruct Ha. lia.
  - unfold Vault.returnFunds in H. unbind H as o Ho.
    destruct (a =? 0); [discriminate|].
    destruct (Z.ltb_spec (Vault.managedAssets w) a); [discriminate|].
    unbind H as m Hsub. cbv zeta in H. unbind H as w1 Hpull.
    unfold Vault.safeTransferFrom in Hpull. unbind Hpull as u Hu.
    injection Hpull as <-. injection H as <-. simpl. inv_chk. subst m.
    destruct Ha. lia.
  - unfold Vault.reportPnL in H. unbind H as o Ho. unbind H as w1 Hw1.
    injection H as <-. simpl.
    destruct (Z.ltb_spec 0 a) as [Hpos|Hnpos].
    + unbind Hw1 as m Hadd. injection Hw1 as <-. simpl. inv_chk. subst m.
      rewrite uint256_of_int256_nonneg in * by (destruct Ha; lia). lia.
    + destruct (Z.ltb_spec a 0) as [Hneg|Hzero].
      * unbind Hw1 as n Hn. cbv zeta in Hw1.
        destruct (Z.ltb_spec (Vault.managedAssets w) (uint256_of_int256 n));
          [discriminate|].
        unbind Hw1 as m Hsub. injection Hw1 as <-. simpl. inv_chk. subst m.
        unfold neg_int256 in Hn. destruct (Z.eqb_spec a MIN_INT256); [discriminate|].
        injection Hn as <-.
        rewrite uint256_of_int256_nonneg in *
          by (destruct Ha as [Ha1 Ha2]; rewrite MIN_INT256_eq in *;
              rewrite MAX_INT256_eq in *; lia).
        lia.
      * injection Hw1 as <-. assumption.
  - simpl. assumption.
Qed.

Lemma managed_reachable this _owner usdc0 w :
  Vault.reachable this _owner usdc0 w ->
  0 <= Vault.managedAssets w <= MAX_UINT256.
Proof.
  induction 1 as [| w w' _ IH Hstep].
  - simpl. rewrite MAX_UINT256_eq. lia.
  - eapply managed_step; eassumption.
Qed.

(** ** Well-formedness is an invariant of the vault *)

Lemma sum_fold_insert (m : gmap address Z) a x :
  map_fold (fun _ v acc => v + acc) 0 (<[a := x]> m)
  = map_fold (fun _ v acc => v + acc) 0 m - default 0 (m !! a) + x.
Proof.
  rewrite <- (insert_delete_eq m a x).
  rewrite (map_fold_insert_L (fun (_ : address) (v acc : Z) => v + acc) 0 a x (delete a m));
    [| intros; lia | apply lookup_delete_eq].
  destruct (m !! a) as [y|] eqn:Hy; simpl.
  - rewrite (sum_fold_delete m a y Hy). lia.
  - rewrite delete_id by assumption. lia.
Qed.

Lemma ERC20_wf_transfer from to v tk tk' :
  ERC20.wf tk -> 0 <= v ->
  ERC20._transfer from to v tk = Ok tk' -> ERC20.wf tk'.
Proof.
  intros Hwf Hv. unfold ERC20._transfer.
  destruct (N.eqb_spec from 0) as [|Hf]; [discriminate|].
  destruct (N.eqb_spec to 0) as [|Ht]; [discriminate|].
  unfold ERC20._update.
  destruct (N.eqb_spec from 0); [contradiction|].
  destruct (N.eqb_spec to 0); [contradiction|]. cbv zeta.
  destruct (Z.ltb_spec (ERC20.balanceOf tk from) v) as [|Hbal]; [discriminate|].
  simpl. intros [= <-].
  pose proof (wf_balance_nonneg tk to Hwf) as Hto.
  pose proof (wf_balance_le tk from Hwf) as Hfrom.
  set (credit := wrap (ERC20.balanceOf
                   (ERC20.set_balance from (ERC20.balanceOf tk from - v) tk) to + v)).
  assert (Hval : credit = if N.eq_dec from to then ERC20.balanceOf tk to
                          else ERC20.balanceOf tk to + v).
  { unfold credit. destruct (N.eq_dec from to) as [<-|Hne].
    - rewrite ERC20_balanceOf_set_balance_eq.
      replace (ERC20.balanceOf tk from - v + v) with (ERC20.balanceOf tk from) by lia.
      apply wrap_small. destruct Hwf as (_ & _ & Hts). lia.
    - rewrite ERC20_balanceOf_set_balance_ne by assumption. apply wrap_small.
      pose proof (wf_two_balances tk from to Hwf Hne).
      destruct Hwf as (_ & _ & Hts). lia. }
  clearbody credit. destruct Hwf as (Hall & Hsum & Hts).
  unfold ERC20.wf, ERC20.sum_balances, ERC20.set_balance in *. simpl.
  split; [|split; [|assumption]].
  - apply map_Forall_insert_2; [destruct (N.eq_dec from to); lia|].
    apply map_Forall_insert_2; [lia | assumption].
  - rewrite !sum_fold_insert.
    destruct (N.eq_dec from to) as [<-|Hne].
    + rewrite lookup_insert_eq. simpl. unfold ERC20.balanceOf in *. lia.
    + rewrite lookup_insert_ne by assumption. unfold ERC20.balanceOf in *. lia.
Qed.

Lemma ERC20_wf_transferFrom sp from to v tk tk' :
  ERC20.wf tk -> 0 <= v ->
  ERC20.transferFrom sp from to v tk = Ok tk' -> ERC20.wf tk'.
Proof.
  intros Hwf Hv H. unfold ERC20.transferFrom in H. unbind H as tk1 Hspend.
  apply ERC20_wf_spendAllowance in Hspend; [|assumption].
  eapply ERC20_wf_transfer; eassumption.
Qed.

Lemma wrap_range x : 0 <= wrap x <= MAX_UINT256.
Proof.
  unfold wrap. pose proof (Z.mod_pos_bound x (2 ^ 256) eq_refl) as H.
  unfold MAX_UINT256. lia.
Qed.

Lemma totalAssets_nonneg w ta :
  Vault.wf w -> Vault.totalAssets w = Ok ta -> 0 <= ta.
Proof.
  intros (Hu & _ & Hm) H. unfold Vault.totalAssets in H. inv_chk.
  pose proof (wf_balance_nonneg (Vault.USDC w) (Vault.self w) Hu). lia.
Qed.

Lemma deployFunds_Ok c a w w' :
  Vault.deployFunds c a w = Ok (tt, w') ->
  c = Vault.owner w /\ a <> 0 /\ a <= Vault.availableLiquidity w /\
  Vault.managedAssets w' = Vault.managedAssets w + a /\
  Vault.managedAssets w + a <= MAX_UINT256 /\
  ERC20.transfer (Vault.self w) c a (Vault.USDC w) = Ok (Vault.USDC w') /\
  Vault.token w' = Vault.token w.
Proof.
  unfold Vault.deployFunds. intros H. unbind H as o Ho.
  unfold Vault.onlyOwner in Ho.
  destruct (N.eqb_spec (Vault.owner w) c) as [Hc|]; [|discriminate].
  destruct (Z.eqb_spec a 0); [discriminate|]. cbv zeta in H.
  destruct (Z.ltb_spec (Vault.availableLiquidity w) a); [discriminate|].
  unbind H as m Hadd. unbind H as w1 Hpay.
  unfold Vault.safeTransfer in Hpay. unbind Hpay as u Hu. injection Hpay as <-.
  injection H as <-. simpl in *. inv_chk. subst m. repeat split; auto.
Qed.

Lemma returnFunds_Ok c a w w' :
  Vault.returnFunds c a w = Ok (tt, w') ->
  c = Vault.owner w /\ a <> 0 /\ a <= Vault.managedAssets w /\
  Vault.managedAssets w' = Vault.managedAssets w - a /\
  ERC20.transferFrom (Vault.self w) c (Vault.self w) a (Vault.USDC w)
    = Ok (Vault.USDC w') /\
  Vault.token w' = Vault.token w.
Proof.
  unfold Vault.returnFunds. intros H. unbind H as o Ho.
  unfold Vault.onlyOwner in Ho.
  destruct (N.eqb_spec (Vault.owner w) c) as [Hc|]; [|discriminate].
  destruct (Z.eqb_spec a 0); [discriminate|].
  destruct (Z.ltb_spec (Vault.managedAssets w) a); [discriminate|].
  unbind H as m Hsub. cbv zeta in H. unbind H as w1 Hpull.
  unfold Vault.safeTransferFrom in Hpull. unbind Hpull as u Hu.
  injection Hpull as <-. injection H as <-. simpl in *. inv_chk. subst m.
  repeat split; auto.
Qed.

Lemma reportPnL_Ok c a w w' :
  Vault.reportPnL c a w = Ok (tt, w') ->
  c = Vault.owner w /\
  Vault.USDC w' = Vault.USDC w /\ Vault.token w' = Vault.token w.
Proof.
  unfold Vault.reportPnL. intros H. unbind H as o Ho.
  unfold Vault.onlyOwner in Ho.
  destruct (N.eqb_spec (Vault.owner w) c) as [Hc|]; [|discriminate].
  unbind H as w1 Hw1. injection H as <-. simpl.
  destruct (0 <? a).
  - unbind Hw1 as m Hadd. injection Hw1 as <-. auto.
  - destruct (a <? 0).
    + unbind Hw1 as n Hn. cbv zeta in Hw1.
      destruct (_ <? _); [discriminate|].
      unbind Hw1 as m Hsub. injection Hw1 as <-. auto.
    + injection Hw1 as <-. auto.
Qed.

Lemma wf_step w w' : Vault.wf w -> Vault.step w w' -> Vault.wf w'.
Proof.
  intros Hwf Hstep.
  pose proof (managed_step w w' (proj2 (proj2 Hwf)) Hstep) as Hman.
  destruct Hwf as (Hu & HS & HM).
  destruct Hstep as [c a r w s w' Ha H | c s r w a w' Hs H | c a w w' Ha H
                    | c a w w' Ha H | c a w w' Ha H | w u Hwfu Hbal].
  - pose proof (deposit_Ok _ _ _ _ _ _ (proj1 Ha) H)
      as (_ & _ & _ & _ & Hconv & Hpull & Hmint & Hts & _).
    apply convertToShares_Ok in Hconv. destruct Hconv as (ta & Hta & Hsh & _).
    pose proof (totalAssets_nonneg w ta (conj Hu (conj HS HM)) Hta) as Hta0.
    apply ERC20_mint_Ok in Hmint. destruct Hmint as (_ & _ & Hfit & _).
    assert (0 <= s).
    { rewrite Hsh. apply Z.div_pos; unfold Vault.VIRTUAL_OFFSET; destruct Ha; nia. }
    split; [eapply ERC20_wf_transferFrom; [exact Hu | apply Ha | exact Hpull]|].
    unfold Vault.totalSupply in *. split; [lia | assumption].
  - pose proof (redeem_Ok _ _ _ _ _ _ H)
      as (_ & _ & _ & _ & Hconv & _ & Hburn & Hpay & _).
    apply convertToAssets_Ok in Hconv. destruct Hconv as (ta & Hta & Has & _).
    pose proof (totalAssets_nonneg w ta (conj Hu (conj HS HM)) Hta) as Hta0.
    apply ERC20_burn_Ok in Hburn. destruct Hburn as (_ & _ & Hts & _).
    assert (0 <= a).
    { rewrite Has. apply Z.div_pos; unfold Vault.VIRTUAL_OFFSET; destruct Hs; nia. }
    split; [eapply ERC20_wf_transfer; [exact Hu | | exact Hpay]; assumption|].
    unfold Vault.totalSupply in *. rewrite Hts.
    split; [apply wrap_range | assumption].
  - apply deployFunds_Ok in H. destruct H as (_ & _ & _ & _ & _ & Hpay & Htok).
    split; [eapply ERC20_wf_transfer; [exact Hu | apply Ha | exact Hpay]|].
    unfold Vault.totalSupply in *. rewrite Htok. auto.
  - apply returnFunds_Ok in H. destruct H as (_ & _ & _ & _ & Hpull & Htok).
    split; [eapply ERC20_wf_transferFrom; [exact Hu | apply Ha | exact Hpull]|].
    unfold Vault.totalSupply in *. rewrite Htok. auto.
  - apply reportPnL_Ok in H. destruct H as (_ & Husdc & Htok).
    unfold Vault.wf, Vault.totalSupply in *. rewrite Husdc, Htok. auto.
  - unfold Vault.wf, Vault.totalSupply in *. simpl in *. auto.
Qed.

(** Every state reachable from a well-formed USDC ledger is well-formed,
    so the round-trip bound applies to all of them. *)
Lemma wf_reachable this _owner usdc0 w :
  ERC20.wf usdc0 -> Vault.reachable this _owner usdc0 w -> Vault.wf w.
Proof.
  intros Hu. induction 1 as [| w w' _ IH Hstep].
  - split; [exact Hu|]. simpl. rewrite MAX_UINT256_eq.
    unfold Vault.totalSupply. simpl. lia.
  - eapply wf_step; eassumption.
Qed.

(** ** The vault scenario states are reachable *)

Lemma wf_vault_usdc : ERC20.wf Scenario.vault_usdc.
Proof.
  split; [|split].
  - unfold Scenario.vault_usdc. simpl.
    repeat (apply map_Forall_insert_2; [vm_compute; discriminate|]).
    apply map_Forall_empty.
  - vm_compute. reflexivity.
  - vm_compute. split; discriminate.
Qed.

Lemma wf_vault0 : Vault.wf Scenario.vault0.
Proof.
  split; [apply wf_vault_usdc|]. vm_compute. repeat split; discriminate.
Qed.

Lemma reach_vault_deposited :
  Vault.reachable Scenario.vault_address Scenario.operator Scenario.vault_usdc
    Scenario.vault_deposited.
Proof.
  eapply Vault.reach_step; [apply Vault.reach_init|].
  apply (Vault.step_deposit Scenario.alice Scenario.THOUSAND_USDC Scenario.alice
           Scenario.vault0 Scenario.THOUSAND_USDC).
  - vm_compute. split; discriminate.
  - vm_compute. reflexivity.
Qed.

Lemma reach_vault_deployed :
  Vault.reachable Scenario.vault_address Scenario.operator Scenario.vault_usdc
    Scenario.vault_deployed.
Proof.
  eapply Vault.reach_step; [apply reach_vault_deposited|].
  apply (Vault.step_deployFunds Scenario.operator Scenario.THOUSAND_USDC
           Scenario.vault_deposited).
  - vm_compute. split; discriminate.
  - vm_compute. reflexivity.
Qed.

Lemma reach_vault_after_loss :
  Vault.reachable Scenario.vault_address Scenario.operator Scenario.vault_usdc
    Scenario.vault_after_loss.
Proof.
  eapply Vault.reach_step; [apply reach_vault_deployed|].
  apply (Vault.step_reportPnL Scenario.operator (- 600 * Scenario.ONE_USDC)
           Scenario.vault_deployed).
  - vm_compute. split; discriminate.
  - vm_compute. reflexivity.
Qed.

Lemma reach_vault_dust :
  Vault.reachable Scenario.vault_address Scenario.operator Scenario.vault_usdc
    Scenario.vault_dust.
Proof.
  eapply Vault.reach_step; [apply Vault.reach_init|].
  apply (Vault.step_deposit Scenario.bob 1 Scenario.bob Scenario.vault0 1).
  - apply uint256_1.
  - vm_compute. reflexivity.
Qed.

Lemma reach_vault_donated :
  Vault.reachable Scenario.vault_address Scenario.operator Scenario.vault_usdc
    Scenario.vault_donated.
Proof.
  eapply Vault.reach_step; [apply reach_vault_dust|].
  apply Vault.step_usdc.
  - apply (ERC20_wf_transfer Scenario.bob Scenario.vault_address
             (10000 * Scenario.ONE_USDC) (Vault.USDC Scenario.vault_dust)).
    + apply (wf_reachable _ _ _ _ wf_vault_usdc reach_vault_dust).
    + vm_compute. discriminate.
    + vm_compute. reflexivity.
  - vm_compute. discriminate.
Qed.

(** ** C4: the first deposit *)

(** C4.  In an empty vault (no shares outstanding, no assets),
    [convertToShares(a)] returns exactly [a] for every [a > 0]; a deposit
    of [a] that succeeds mints exactly [a] shares, and it does succeed
    for a funded caller who has approved the vault. *)
Theorem first_deposit_one_to_one w a :
  Vault.totalSupply w = 0 ->
  Vault.totalAssets w = Ok 0 ->
  0 < a <= MAX_UINT256 ->
  Vault.convertToShares a w = Ok a /\
  (forall c r s w', Vault.deposit c a r w = Ok (s, w') ->
     s = a /\ Vault.totalSupply w' = a) /\
  (forall c r,
     Vault.entered w = false -> r <> 0%N -> c <> 0%N -> Vault.self w <> 0%N ->
     a <= ERC20.balanceOf (Vault.USDC w) c ->
     a <= ERC20.allowance (Vault.USDC w) c (Vault.self w) ->
     exists w', Vault.deposit c a r w = Ok (a, w')).
Proof.
  intros HS HA Ha.
  assert (Hconv : Vault.convertToShares a w = Ok a).
  { unfold Vault.convertToShares. rewrite HS, HA. simpl.
    rewrite mulDivR_Floor. unfold Vault.VIRTUAL_OFFSET.
    rewrite mulDiv_fits; rewrite ?Z.div_mul by discriminate;
      [reflexivity | discriminate | lia]. }
  split; [exact Hconv|]. split.
  - intros c r s w' Hdep. apply deposit_Ok in Hdep; [|lia].
    destruct Hdep as (_ & _ & _ & _ & Hconv' & _ & _ & Hts & _).
    rewrite Hconv in Hconv'. injection Hconv' as <-.
    split; [reflexivity | lia].
  - intros c r Hent Hr Hc Hself Hbal Hal.
    destruct (ERC20_transferFrom_succeeds (Vault.self w) c (Vault.self w) a
                (Vault.USDC w) Hc Hself Hbal Hal) as [u Hu].
    unfold Vault.deposit, Vault.nonReentrant. rewrite Hent.
    destruct (Z.eqb_spec a 0); [lia|].
    destruct (N.eqb_spec r 0); [contradiction|].
    change (Vault.convertToShares a (Vault.set_entered true w))
      with (Vault.convertToShares a w).
    rewrite Hconv. simpl.
    destruct (Z.eqb_spec a 0); [lia|].
    unfold Vault.safeTransferFrom. simpl. rewrite Hu. simpl.
    unfold Vault._mint, ERC20._mint, ERC20._update. simpl.
    destruct (N.eqb_spec r 0); [contradiction|]. simpl.
    unfold Vault.totalSupply in HS. rewrite HS.
    rewrite add_chk_fits by lia. simpl.
    destruct (N.eqb_spec r 0); [contradiction|]. simpl.
    eexists. reflexivity.
Qed.

Lemma first_deposit_one_to_one_witness :
  Vault.convertToShares Scenario.THOUSAND_USDC Scenario.vault0
    = Ok Scenario.THOUSAND_USDC /\
  exists w', Vault.deposit Scenario.alice Scenario.THOUSAND_USDC Scenario.alice
               Scenario.vault0 = Ok (Scenario.THOUSAND_USDC, w').
Proof.
  assert (H : 0 < Scenario.THOUSAND_USDC <= MAX_UINT256)
    by (vm_compute; split; [reflexivity | discriminate]).
  destruct (first_deposit_one_to_one Scenario.vault0 Scenario.THOUSAND_USDC
              eq_refl eq_refl H) as (Hconv & _ & Hdep).
  split; [exact Hconv|].
  apply (Hdep Scenario.alice Scenario.alice); vm_compute; try discriminate; reflexivity.
Defined.

(** ** C5: deposit, then redeem what was minted *)

Section RoundTripArithmetic.

Variables a sigma alpha sh assets : Z.
Hypothesis sigma_pos : 0 < sigma.
Hypothesis alpha_pos : 0 < alpha.
Hypothesis a_nonneg : 0 <= a.
Hypothesis sh_def : sh = a * sigma / alpha.
Hypothesis assets_def : assets = sh * (alpha + a) / (sigma + sh).

Lemma roundtrip_shares_nonneg : 0 <= sh.
Proof. rewrite sh_def. apply Z.div_pos; nia. Qed.

Lemma roundtrip_le : assets <= a.
Proof.
  pose proof roundtrip_shares_nonneg as Hsh.
  assert (H1 : alpha * sh <= a * sigma)
    by (rewrite sh_def; apply Z.mul_div_le; assumption).
  rewrite assets_def. apply Z.div_le_upper_bound; nia.
Qed.

Lemma roundtrip_loss : (a - assets - 1) * (sigma + sh) < alpha.
Proof.
  pose proof roundtrip_shares_nonneg as Hsh.
  assert (H1 : a * sigma < alpha * (sh + 1)).
  { rewrite sh_def.
    pose proof (Z.mul_succ_div_gt (a * sigma) alpha alpha_pos). lia. }
  assert (H2 : sh * (alpha + a) < (sigma + sh) * (assets + 1)).
  { rewrite assets_def.
    pose proof (Z.mul_succ_div_gt (sh * (alpha + a)) (sigma + sh) ltac:(lia)). lia. }
  nia.
Qed.

Lemma roundtrip_loss_one : alpha <= sigma + sh -> a - assets <= 1.
Proof.
  intros Hle. pose proof roundtrip_loss as Hl.
  pose proof roundtrip_shares_nonneg as Hsh. nia.
Qed.

End RoundTripArithmetic.

(** The vault's USDC balance after a successful deposit by someone else. *)
Lemma deposit_totalAssets c a r w s w' ta :
  Vault.wf w -> c <> Vault.self w -> 0 <= a ->
  Vault.totalAssets w = Ok ta ->
  Vault.deposit c a r w = Ok (s, w') ->
  ERC20.balanceOf (Vault.USDC w') (Vault.self w')
    = ERC20.balanceOf (Vault.USDC w) (Vault.self w) + a /\
  (forall ta', Vault.totalAssets w' = Ok ta' -> ta' = ta + a).
Proof.
  intros (Hwf & _ & _) Hc Ha Hta Hdep.
  apply deposit_Ok in Hdep; [|assumption].
  destruct Hdep as (_ & _ & _ & _ & _ & Hpull & _ & _ & Hman & Hself & _).
  apply ERC20_transferFrom_Ok in Hpull; [|assumption].
  destruct Hpull as (_ & _ & _ & _ & Hbal).
  destruct (Hbal Hwf Hc) as [Hto _].
  rewrite Hself. split; [exact Hto|].
  intros ta' Hta'. unfold Vault.totalAssets in *.
  rewrite Hself, Hto, Hman in Hta'. inv_chk. lia.
Qed.

(** C5 as stated fails.  In the donation scenario of the test suite (one
    raw unit deposited, 10 000 USDC donated to the vault), a reachable
    and well-formed state, a deposit of 1000 USDC mints 100 shares, and
    redeeming those 100 shares at once returns 999 091 825 raw units:
    908 175 less than deposited. *)
Lemma roundtrip_loss_counterexample :
  Vault.reachable Scenario.vault_address Scenario.operator Scenario.vault_usdc
    Scenario.vault_donated /\
  exists w1 w2,
    Vault.deposit Scenario.alice 1000000000 Scenario.alice Scenario.vault_donated
      = Ok (100, w1) /\
    Vault.redeem Scenario.alice 100 Scenario.alice w1 = Ok (999091825, w2) /\
    1 < 1000000000 - 999091825.
Proof.
  split; [apply reach_vault_donated|].
  exists Scenario.vault_victim_in.
  eexists. split; [vm_compute; reflexivity|].
  split; [vm_compute; reflexivity | lia].
Qed.

(** C5, amended.  In a well-formed vault state, when a deposit of [a] by
    an account other than the vault succeeds and the shares it minted are
    redeemed at once, the assets returned are at most [a]; the shortfall
    [a - assets] satisfies
    [(shortfall - 1) * (totalSupply + shares + K) < totalAssets + K]
    with the supply and assets before the deposit, so it is at most 1
    unit whenever [totalAssets <= totalSupply] then (a share worth at most
    one unit, as in a fresh vault). *)
Theorem deposit_redeem_roundtrip w c r c' r' a shares w1 assets w2 :
  Vault.wf w -> c <> Vault.self w -> is_uint256 a ->
  Vault.deposit c a r w = Ok (shares, w1) ->
  Vault.redeem c' shares r' w1 = Ok (assets, w2) ->
  assets <= a /\
  exists ta, Vault.totalAssets w = Ok ta /\
    (a - assets - 1) * (Vault.totalSupply w + shares + Vault.VIRTUAL_OFFSET)
      < ta + Vault.VIRTUAL_OFFSET /\
    (ta <= Vault.totalSupply w -> a - assets <= 1).
Proof.
  intros Hwf Hc [Ha _] Hdep Hred.
  pose proof (deposit_Ok _ _ _ _ _ _ Ha Hdep)
    as (_ & _ & _ & _ & Hconv & _ & _ & Hts & _).
  apply convertToShares_Ok in Hconv. destruct Hconv as (ta & Hta & Hsh & _).
  destruct (deposit_totalAssets _ _ _ _ _ _ _ Hwf Hc Ha Hta Hdep) as [_ Hta1].
  apply redeem_Ok in Hred.
  destruct Hred as (_ & _ & _ & _ & Hconv & _).
  apply convertToAssets_Ok in Hconv. destruct Hconv as (ta1 & Hta1' & Has & _).
  specialize (Hta1 ta1 Hta1'). subst ta1. rewrite Hts in Has.
  destruct Hwf as (Hu & HS & HM).
  assert (Hta0 : 0 <= ta).
  { unfold Vault.totalAssets in Hta. inv_chk.
    pose proof (wf_balance_nonneg (Vault.USDC w) (Vault.self w) Hu). lia. }
  set (sigma := Vault.totalSupply w + Vault.VIRTUAL_OFFSET) in *.
  set (alpha := ta + Vault.VIRTUAL_OFFSET) in *.
  assert (Hsig : 0 < sigma) by (unfold sigma, Vault.VIRTUAL_OFFSET; lia).
  assert (Halp : 0 < alpha) by (unfold alpha, Vault.VIRTUAL_OFFSET; lia).
  replace (ta + a + Vault.VIRTUAL_OFFSET) with (alpha + a) in Has by (unfold alpha; lia).
  replace (Vault.totalSupply w + shares + Vault.VIRTUAL_OFFSET)
    with (sigma + shares) in * by (unfold sigma; lia).
  split.
  { apply roundtrip_le with (sigma := sigma) (alpha := alpha) (sh := shares);
      assumption. }
  exists ta. split; [assumption|]. split.
  - apply roundtrip_loss with (sh := shares); assumption.
  - intros Hle.
    apply roundtrip_loss_one with (sigma := sigma) (alpha := alpha) (sh := shares);
      try assumption.
    assert (0 <= shares)
      by (apply roundtrip_shares_nonneg with (a := a) (sigma := sigma) (alpha := alpha);
          assumption).
    unfold alpha, sigma. lia.
Qed.

Lemma deposit_redeem_roundtrip_witness :
  exists assets w2,
    Vault.redeem Scenario.alice Scenario.THOUSAND_USDC Scenario.alice
      Scenario.vault_deposited = Ok (assets, w2) /\
    assets <= Scenario.THOUSAND_USDC /\
    exists ta, Vault.totalAssets Scenario.vault0 = Ok ta /\
      (Scenario.THOUSAND_USDC - assets - 1)
      * (Vault.totalSupply Scenario.vault0 + Scenario.THOUSAND_USDC
         + Vault.VIRTUAL_OFFSET) < ta + Vault.VIRTUAL_OFFSET /\
      (ta <= Vault.totalSupply Scenario.vault0 ->
       Scenario.THOUSAND_USDC - assets <= 1).
Proof.
  eexists. eexists. split; [vm_compute; reflexivity|].
  eapply (deposit_redeem_roundtrip Scenario.vault0 Scenario.alice Scenario.alice
            Scenario.alice Scenario.alice Scenario.THOUSAND_USDC
            Scenario.THOUSAND_USDC Scenario.vault_deposited).
  - apply wf_vault0.
  - vm_compute. discriminate.
  - vm_compute. split; discriminate.
  - vm_compute. reflexivity.
  - vm_compute. reflexivity.
Defined.

(** ** C8: [managedAssets] is never reduced below zero *)

(** C8.  The claim fails at one input, where the code misses a case:
    [reportPnL(type(int256).min)], called by the owner, is a loss whose
    magnitude [2^255] exceeds [managedAssets], and the call reverts in
    the checked negation [-amount] with the arithmetic panic [0x11],
    before the comparison that raises [ExcessiveReduction] is reached.
    The state is left unchanged all the same. *)
Theorem reportPnL_min_int256_panics :
  is_int256 MIN_INT256 /\
  Scenario.operator = Vault.owner Scenario.vault_deployed /\
  Vault.managedAssets Scenario.vault_deployed < - MIN_INT256 /\
  transact (Vault.reportPnL Scenario.operator MIN_INT256) Scenario.vault_deployed
    = (Scenario.vault_deployed, Err Panic_0x11).
Proof.
  split; [vm_compute; split; discriminate|].
  split; [reflexivity|].
  split; vm_compute; reflexivity.
Qed.

(** Everywhere else the rejection is as C8 describes it.  Called by the
    owner, [returnFunds(amount)] with [amount > managedAssets], and
    [reportPnL(amount)] with a loss [amount > type(int256).min] whose
    magnitude exceeds [managedAssets], fail with [ExcessiveReduction] and
    leave the state as it was; and in every reachable state
    [managedAssets] is a uint256, never negative. *)
Lemma excessive_reduction_rejected :
  (forall w amount,
     0 <= Vault.managedAssets w -> Vault.managedAssets w < amount ->
     transact (Vault.returnFunds (Vault.owner w) amount) w
       = (w, Err (ExcessiveReduction amount (Vault.managedAssets w)))) /\
  (forall w amount,
     MIN_INT256 < amount < 0 -> Vault.managedAssets w < - amount ->
     transact (Vault.reportPnL (Vault.owner w) amount) w
       = (w, Err (ExcessiveReduction (- amount) (Vault.managedAssets w)))) /\
  (forall this _owner usdc0 w,
     Vault.reachable this _owner usdc0 w ->
     0 <= Vault.managedAssets w <= MAX_UINT256).
Proof.
  split; [|split].
  - intros w amount Hm Hgt. unfold transact, Vault.returnFunds.
    rewrite onlyOwner_owner. simpl.
    destruct (Z.eqb_spec amount 0); [lia|].
    destruct (Z.ltb_spec (Vault.managedAssets w) amount); [reflexivity | lia].
  - intros w amount [Hmin Hneg] Hgt. unfold transact, Vault.reportPnL.
    rewrite onlyOwner_owner. simpl.
    destruct (Z.ltb_spec 0 amount); [lia|].
    destruct (Z.ltb_spec amount 0); [|lia].
    unfold neg_int256. destruct (Z.eqb_spec amount MIN_INT256); [lia|]. simpl.
    rewrite uint256_of_int256_nonneg
      by (rewrite MIN_INT256_eq in *; rewrite MAX_INT256_eq; lia).
    destruct (Z.ltb_spec (Vault.managedAssets w) (- amount)); [reflexivity | lia].
  - apply managed_reachable.
Qed.

(** The two rejections of the test suite, on 1000 USDC under management. *)
Lemma excessive_reduction_rejected_example :
  transact (Vault.returnFunds Scenario.operator (1001 * Scenario.ONE_USDC))
    Scenario.vault_deployed
  = (Scenario.vault_deployed,
     Err (ExcessiveReduction (1001 * Scenario.ONE_USDC)
            (Vault.managedAssets Scenario.vault_deployed))) /\
  transact (Vault.reportPnL Scenario.operator (- (1001 * Scenario.ONE_USDC)))
    Scenario.vault_deployed
  = (Scenario.vault_deployed,
     Err (ExcessiveReduction (- - (1001 * Scenario.ONE_USDC))
            (Vault.managedAssets Scenario.vault_deployed))).
Proof.
  split.
  - apply (proj1 excessive_reduction_rejected Scenario.vault_deployed
             (1001 * Scenario.ONE_USDC)); vm_compute; [discriminate | reflexivity].
  - apply (proj1 (proj2 excessive_reduction_rejected) Scenario.vault_deployed
             (- (1001 * Scenario.ONE_USDC))); vm_compute; [split|]; reflexivity.
Qed.

(** ** C9: shares that convert to nothing cannot be redeemed *)

(** C9.  Whenever [convertToAssets(shares)] is zero, [redeem] called with
    a set receiver fails with [ZeroAmount] and the state is unchanged,
    also for nonzero [shares]; and a positive share amount does convert
    to zero as soon as [shares * (totalAssets + K) < totalSupply + K]. *)
Theorem redeem_zero_assets_rejected w c shares receiver :
  Vault.entered w = false -> receiver <> 0%N ->
  (Vault.convertToAssets shares w = Ok 0 ->
     Vault.redeem c shares receiver w = Err ZeroAmount /\
     transact (Vault.redeem c shares receiver) w = (w, Err ZeroAmount)) /\
  (forall ta, Vault.totalAssets w = Ok ta -> 0 <= ta -> 0 < shares ->
     Vault.totalSupply w + Vault.VIRTUAL_OFFSET <= MAX_UINT256 ->
     shares * (ta + Vault.VIRTUAL_OFFSET) < Vault.totalSupply w + Vault.VIRTUAL_OFFSET ->
     Vault.convertToAssets shares w = Ok 0).
Proof.
  intros Hent Hr. split.
  - intros Hconv.
    assert (H : Vault.redeem c shares receiver w = Err ZeroAmount).
    { unfold Vault.redeem, Vault.nonReentrant. rewrite Hent.
      destruct (shares =? 0); [reflexivity|].
      destruct (N.eqb_spec receiver 0); [contradiction|].
      change (Vault.convertToAssets shares (Vault.set_entered true w))
        with (Vault.convertToAssets shares w).
      rewrite Hconv. reflexivity. }
    split; [exact H|]. unfold transact. rewrite H. reflexivity.
  - intros ta Hta Hta0 Hsh Hfit Hsmall.
    unfold Vault.convertToAssets. rewrite Hta. simpl.
    assert (HK : 0 < Vault.VIRTUAL_OFFSET) by reflexivity.
    rewrite add_chk_fits by nia. simpl.
    rewrite add_chk_fits by assumption. simpl.
    rewrite mulDivR_Floor.
    assert (Hz : shares * (ta + Vault.VIRTUAL_OFFSET)
                 / (Vault.totalSupply w + Vault.VIRTUAL_OFFSET) = 0)
      by (apply Z.div_small; nia).
    rewrite mulDiv_fits; [rewrite Hz; reflexivity | nia |].
    rewrite Hz, MAX_UINT256_eq. lia.
Qed.

Lemma redeem_zero_assets_rejected_witness :
  Vault.reachable Scenario.vault_address Scenario.operator Scenario.vault_usdc
    Scenario.vault_after_loss /\
  Vault.convertToAssets 2 Scenario.vault_after_loss = Ok 0 /\
  Vault.redeem Scenario.alice 2 Scenario.alice Scenario.vault_after_loss
    = Err ZeroAmount /\
  transact (Vault.redeem Scenario.alice 2 Scenario.alice) Scenario.vault_after_loss
    = (Scenario.vault_after_loss, Err ZeroAmount).
Proof.
  assert (Hconv : Vault.convertToAssets 2 Scenario.vault_after_loss = Ok 0)
    by (vm_compute; reflexivity).
  split; [apply reach_vault_after_loss|].
  split; [exact Hconv|].
  apply (redeem_zero_assets_rejected Scenario.vault_after_loss Scenario.alice 2
           Scenario.alice).
  - vm_compute. reflexivity.
  - vm_compute. discriminate.
  - exact Hconv.
Defined.

(** ** C10: a zero report *)

(** C10.  Called by the owner, [reportPnL(0)] succeeds; the state after it
    is the state before it with one [PnLReported(0, managedAssets)] event
    appended to the log, so [managedAssets] and everything else is
    unchanged.  The four other mutating operations reject a zero amount
    with [ZeroAmount]. *)
Theorem reportPnL_zero_succeeds w :
  Vault.reportPnL (Vault.owner w) 0 w
    = Ok (tt, Vault.emit (Vault.PnLReported 0 (Vault.managedAssets w)) w) /\
  (let w' := Vault.emit (Vault.PnLReported 0 (Vault.managedAssets w)) w in
   Vault.managedAssets w' = Vault.managedAssets w /\
   Vault.token w' = Vault.token w /\
   Vault.USDC w' = Vault.USDC w /\
   Vault.owner w' = Vault.owner w /\
   Vault.self w' = Vault.self w /\
   Vault.entered w' = Vault.entered w /\
   Vault.events w' = Vault.events w ++ [Vault.PnLReported 0 (Vault.managedAssets w)]) /\
  (Vault.entered w = false ->
   forall c r,
     Vault.deposit c 0 r w = Err ZeroAmount /\
     Vault.redeem c 0 r w = Err ZeroAmount /\
     Vault.deployFunds (Vault.owner w) 0 w = Err ZeroAmount /\
     Vault.returnFunds (Vault.owner w) 0 w = Err ZeroAmount).
Proof.
  split; [|split].
  - unfold Vault.reportPnL. rewrite onlyOwner_owner. reflexivity.
  - simpl. repeat split; reflexivity.
  - intros Hent c r.
    unfold Vault.deposit, Vault.redeem, Vault.nonReentrant,
      Vault.deployFunds, Vault.returnFunds.
    rewrite Hent, onlyOwner_owner. simpl. repeat split; reflexivity.
Qed.

Lemma reportPnL_zero_succeeds_witness :
  Vault.reportPnL Scenario.operator 0 Scenario.vault_deployed
    = Ok (tt, Vault.emit (Vault.PnLReported 0 1000000000) Scenario.vault_deployed) /\
  Vault.deposit Scenario.alice 0 Scenario.alice Scenario.vault_deployed
    = Err ZeroAmount.
Proof.
  pose proof (reportPnL_zero_succeeds Scenario.vault_deployed) as (H1 & _ & H3).
  split; [exact H1|].
  apply (H3 eq_refl Scenario.alice Scenario.alice).
Defined.

(** * Further properties of the two contracts *)

(** ** The share and token ledgers *)

Lemma ERC20_wf_mint a v tk tk' :
  ERC20.wf tk -> 0 <= v -> ERC20._mint a v tk = Ok tk' -> ERC20.wf tk'.
Proof.
  intros Hwf Hv H.
  pose proof (wf_balance_le tk a Hwf) as Hle.
  pose proof (wf_balance_nonneg tk a Hwf) as Hnn.
  apply ERC20_mint_Ok in H. destruct H as (_ & Hts & Hfit & Hbal & _).
  destruct Hwf as (Hall & Hsum & Hrange).
  rewrite wrap_small in Hbal by lia.
  unfold ERC20.wf, ERC20.sum_balances in *. rewrite Hbal, Hts.
  split; [|split; [|lia]].
  - apply map_Forall_insert_2; [lia | assumption].
  - rewrite sum_fold_insert. unfold ERC20.balanceOf in *. lia.
Qed.

Lemma ERC20_wf_burn a v tk tk' :
  ERC20.wf tk -> 0 <= v -> ERC20._burn a v tk = Ok tk' -> ERC20.wf tk'.
Proof.
  intros Hwf Hv H.
  pose proof (wf_balance_le tk a Hwf) as Hle.
  apply ERC20_burn_Ok in H. destruct H as (_ & Hvle & Hts & Hbal & _).
  destruct Hwf as (Hall & Hsum & Hrange).
  rewrite wrap_small in Hts by lia.
  unfold ERC20.wf, ERC20.sum_balances in *. rewrite Hbal, Hts.
  split; [|split; [|lia]].
  - apply map_Forall_insert_2; [lia | assumption].
  - rewrite sum_fold_insert. unfold ERC20.balanceOf in *. lia.
Qed.

Lemma ERC20_wf_empty : ERC20.wf ERC20.empty.
Proof.
  split; [apply map_Forall_empty|]. split; [reflexivity|].
  simpl. rewrite MAX_UINT256_eq. lia.
Qed.

Lemma vault_token_wf_step w w' :
  Vault.wf w -> ERC20.wf (Vault.token w) -> Vault.step w w' ->
  ERC20.wf (Vault.token w').
Proof.
  intros Hwf Htk Hstep.
  destruct Hstep as [c a r w s w' Ha H | c s r w a w' Hs H | c a w w' Ha H
                    | c a w w' Ha H | c a w w' Ha H | w u Hwfu Hbal].
  - pose proof (deposit_Ok _ _ _ _ _ _ (proj1 Ha) H)
      as (_ & _ & _ & _ & Hconv & _ & Hmint & _).
    apply convertToShares_Ok in Hconv. destruct Hconv as (ta & Hta & Hsh & _).
    pose proof (totalAssets_nonneg w ta Hwf Hta) as Hta0.
    destruct Hwf as (_ & HS & _).
    assert (0 <= s).
    { rewrite Hsh. apply Z.div_pos; unfold Vault.VIRTUAL_OFFSET; destruct Ha; nia. }
    eapply ERC20_wf_mint; eassumption.
  - pose proof (redeem_Ok _ _ _ _ _ _ H) as (_ & _ & _ & _ & _ & _ & Hburn & _).
    eapply ERC20_wf_burn; [exact Htk | apply Hs | exact Hburn].
  - apply deployFunds_Ok in H. destruct H as (_ & _ & _ & _ & _ & _ & ->). assumption.
  - apply returnFunds_Ok in H. destruct H as (_ & _ & _ & _ & _ & ->). assumption.
  - apply reportPnL_Ok in H. destruct H as (_ & _ & ->). assumption.
  - assumption.
Qed.

Lemma vault_token_wf_reachable this _owner usdc0 w :
  ERC20.wf usdc0 -> Vault.reachable this _owner usdc0 w ->
  ERC20.wf (Vault.token w).
Proof.
  intros Hu Hreach. induction Hreach as [| w w' Hr IH Hstep].
  - apply ERC20_wf_empty.
  - eapply vault_token_wf_step; [| exact IH | exact Hstep].
    exact (wf_reachable _ _ _ _ Hu Hr).
Qed.

Lemma ERC20_wf_set_allowance o sp v tk :
  ERC20.wf tk -> ERC20.wf (ERC20.set_allowance o sp v tk).
Proof. intros H. exact H. Qed.

Lemma holder_ledger tk tk' :
  ERC20.wf tk ->
  (exists c to v, is_uint256 v /\ ERC20.transfer c to v tk = Ok tk') \/
  (exists c from to v, is_uint256 v /\ ERC20.transferFrom c from to v tk = Ok tk') \/
  (exists o sp v, tk' = ERC20.set_allowance o sp v tk) ->
  ERC20.wf tk' /\ ERC20.totalSupply tk' = ERC20.totalSupply tk.
Proof.
  intros Hwf [(c & to & v & [Hv _] & H) | [(c & from & to & v & [Hv _] & H)
                                          | (o & sp & v & ->)]].
  - split; [exact (ERC20_wf_transfer _ _ _ _ _ Hwf Hv H)|].
    apply ERC20_transfer_Ok in H; [|assumption]. tauto.
  - split; [exact (ERC20_wf_transferFrom _ _ _ _ _ _ Hwf Hv H)|].
    apply ERC20_transferFrom_Ok in H; [|assumption]. tauto.
  - split; [apply ERC20_wf_set_allowance; exact Hwf | reflexivity].
Qed.

Lemma vault_holder_step_ledger w w' :
  ERC20.wf (Vault.token w) -> vault_holder_step w w' ->
  ERC20.wf (Vault.token w') /\
  Vault.totalSupply w' = Vault.totalSupply w /\
  Vault.managedAssets w' = Vault.managedAssets w /\
  Vault.USDC w' = Vault.USDC w.
Proof.
  intros Hwf Hstep. unfold Vault.totalSupply.
  destruct Hstep as [c to v w tk Hv H | c from to v w tk Hv H | c sp v w Hv Hc Hsp];
    simpl;
    [ destruct (holder_ledger (Vault.token w) tk Hwf) as [Hwf' Hts];
      [left; eauto |]
    | destruct (holder_ledger (Vault.token w) tk Hwf) as [Hwf' Hts];
      [right; left; eauto 6 |]
    | destruct (holder_ledger (Vault.token w) _ Hwf
                  (or_intror (or_intror (ex_intro _ c (ex_intro _ sp
                     (ex_intro _ v eq_refl)))))) as [Hwf' Hts] ];
    auto.
Qed.

Lemma vault_all_wf this _owner usdc0 w :
  ERC20.wf usdc0 -> vault_reachable_all this _owner usdc0 w ->
  Vault.wf w /\ ERC20.wf (Vault.token w).
Proof.
  intros Hu Hreach. induction Hreach as [| w w' Hr [IHw IHt] Hstep
                                         | w w' Hr [IHw IHt] Hstep].
  - split; [| apply ERC20_wf_empty].
    split; [exact Hu|]. simpl. rewrite MAX_UINT256_eq.
    unfold Vault.totalSupply. simpl. lia.
  - split; [eapply wf_step; eassumption | eapply vault_token_wf_step; eassumption].
  - destruct (vault_holder_step_ledger w w' IHt Hstep) as (Ht & Hts & Hm & Husdc).
    split; [| exact Ht].
    destruct IHw as (H1 & H2 & H3). unfold Vault.wf. rewrite Hts, Hm, Husdc. auto.
Qed.

(** X1.  In every state of the vault reachable from a well-formed USDC
    ledger by the vault's operations and by the holders' transfers and
    approvals of shares, the share balances are non-negative and add up
    to [totalSupply]; so no account holds more shares than there are. *)
Theorem vault_shares_sum_to_supply this _owner usdc0 w :
  ERC20.wf usdc0 ->
  vault_reachable_all this _owner usdc0 w ->
  ERC20.wf (Vault.token w) /\
  forall a, 0 <= Vault.balanceOf w a <= Vault.totalSupply w.
Proof.
  intros Hu Hreach.
  pose proof (proj2 (vault_all_wf _ _ _ _ Hu Hreach)) as Hwf.
  split; [exact Hwf|]. intros a. unfold Vault.balanceOf, Vault.totalSupply.
  split; [apply wf_balance_nonneg | apply wf_balance_le]; assumption.
Qed.

Lemma vault_shares_sum_to_supply_witness :
  ERC20.wf (Vault.token vault_shares_moved) /\
  forall a, 0 <= Vault.balanceOf vault_shares_moved a
            <= Vault.totalSupply vault_shares_moved.
Proof.
  apply (vault_shares_sum_to_supply Scenario.vault_address Scenario.operator
           Scenario.vault_usdc).
  - apply wf_vault_usdc.
  - eapply vault_all_holder.
    + eapply vault_all_step; [apply vault_all_init|].
      apply (Vault.step_deposit Scenario.alice Scenario.THOUSAND_USDC Scenario.alice
               Scenario.vault0 Scenario.THOUSAND_USDC).
      * vm_compute. split; discriminate.
      * vm_compute. reflexivity.
    + apply (vault_transfer Scenario.alice Scenario.bob 400 Scenario.vault_deposited).
      * vm_compute. split; discriminate.
      * vm_compute. reflexivity.
Defined.

Lemma curve_token_wf_step w w' :
  Curve.solvent w -> ERC20.wf (Curve.token w) -> Curve.step w w' ->
  ERC20.wf (Curve.token w').
Proof.
  intros (_ & Hs & _) IH Hstep.
  destruct Hstep as [c x w t w' Hx Hbuy | c n w u w' Hn Hsell | w u].
  - assert (Hbuy' := Hbuy). apply buy_Ok in Hbuy'.
    destruct Hbuy' as (_ & _ & _ & Htok & _).
    apply tokensForExactUsdc_Ok in Htok; [| lia | apply Hx].
    destruct Htok as [Ht _].
    destruct (solve_tokens_cost (Curve.totalSupply w) x) as [Hnn _];
      [lia | apply Hx |].
    rewrite <- Ht in Hnn.
    unfold Curve.buy in Hbuy.
    apply curve_nonReentrant_Ok in Hbuy. destruct Hbuy as (_ & w1 & H & ->).
    destruct (x =? 0); [discriminate|].
    unbind H as t0 Htok0. destruct (t0 =? 0); [discriminate|].
    unbind H as w2 Hpull. unfold Curve.safeTransferFrom in Hpull.
    unbind Hpull as u1 Hu1. injection Hpull as <-.
    unbind H as r Hr'. cbv zeta in H.
    unbind H as w3 Hmint. unfold Curve._mint in Hmint.
    unbind Hmint as tk Htk. injection Hmint as <-.
    injection H as -> <-. simpl in *.
    eapply ERC20_wf_mint; eassumption.
  - unfold Curve.sell in Hsell.
    apply curve_nonReentrant_Ok in Hsell. destruct Hsell as (_ & w1 & H & ->).
    destruct (n =? 0); [discriminate|].
    destruct (_ <? n); [discriminate|].
    unbind H as u0 Hret. destruct (u0 =? 0); [discriminate|].
    unbind H as w2 Hburn. unfold Curve._burn in Hburn.
    unbind Hburn as tk Htk. injection Hburn as <-.
    unbind H as r Hr'. cbv zeta in H.
    unbind H as w3 Hpay. unfold Curve.safeTransfer in Hpay.
    unbind Hpay as u1 Hu1. injection Hpay as <-.
    injection H as _ <-. simpl in *.
    eapply ERC20_wf_burn; [exact IH | apply Hn | exact Htk].
  - exact IH.
Qed.

Lemma curve_token_wf_reachable this usdc0 w :
  Curve.reachable this usdc0 w -> ERC20.wf (Curve.token w).
Proof.
  intros Hreach. induction Hreach as [| w w' Hr IH Hstep].
  - apply ERC20_wf_empty.
  - eapply curve_token_wf_step; [| exact IH | exact Hstep].
    exact (solvent_reachable _ _ _ Hr).
Qed.

Lemma curve_holder_step_ledger w w' :
  ERC20.wf (Curve.token w) -> curve_holder_step w w' ->
  ERC20.wf (Curve.token w') /\
  Curve.totalSupply w' = Curve.totalSupply w /\
  Curve.reserveBalance w' = Curve.reserveBalance w /\
  Curve.entered w' = Curve.entered w.
Proof.
  intros Hwf Hstep. unfold Curve.totalSupply.
  destruct Hstep as [c to v w tk Hv H | c from to v w tk Hv H | c sp v w Hv Hc Hsp];
    simpl;
    [ destruct (holder_ledger (Curve.token w) tk Hwf) as [Hwf' Hts];
      [left; eauto |]
    | destruct (holder_ledger (Curve.token w) tk Hwf) as [Hwf' Hts];
      [right; left; eauto 6 |]
    | destruct (holder_ledger (Curve.token w) _ Hwf
                  (or_intror (or_intror (ex_intro _ c (ex_intro _ sp
                     (ex_intro _ v eq_refl)))))) as [Hwf' Hts] ];
    auto.
Qed.

Lemma curve_all_solvent this usdc0 w :
  curve_reachable_all this usdc0 w ->
  Curve.solvent w /\ ERC20.wf (Curve.token w).
Proof.
  intros Hreach. induction Hreach as [| w w' Hr [IHs IHt] Hstep
                                       | w w' Hr [IHs IHt] Hstep].
  - split; [apply solvent_init | apply ERC20_wf_empty].
  - split; [eapply solvent_step; eassumption
           | eapply curve_token_wf_step; eassumption].
  - destruct (curve_holder_step_ledger w w' IHt Hstep) as (Ht & Hts & Hres & Hent).
    split; [| exact Ht].
    unfold Curve.solvent in *. rewrite Hts, Hres, Hent. exact IHs.
Qed.

(** X2.  In every state of the market reachable by buys and sells and by
    the holders' transfers and approvals of tokens, the token balances
    are non-negative and add up to [totalSupply], and the reserve still
    covers the integral of the price curve up to that supply. *)
Theorem curve_tokens_sum_to_supply this usdc0 w :
  curve_reachable_all this usdc0 w ->
  ERC20.wf (Curve.token w) /\
  (forall a, 0 <= Curve.balanceOf w a <= Curve.totalSupply w) /\
  Curve.solvent w.
Proof.
  intros Hreach.
  destruct (curve_all_solvent _ _ _ Hreach) as [Hsolv Hwf].
  split; [exact Hwf|]. split; [|exact Hsolv].
  intros a. unfold Curve.balanceOf, Curve.totalSupply.
  split; [apply wf_balance_nonneg | apply wf_balance_le]; assumption.
Qed.

Lemma curve_tokens_sum_to_supply_witness :
  ERC20.wf (Curve.token curve_tokens_moved) /\
  (forall a, 0 <= Curve.balanceOf curve_tokens_moved a
             <= Curve.totalSupply curve_tokens_moved) /\
  Curve.solvent curve_tokens_moved.
Proof.
  apply (curve_tokens_sum_to_supply Scenario.curve_address Scenario.curve_usdc).
  eapply curve_all_holder.
  - eapply curve_all_step; [apply curve_all_init|].
    apply (Curve.step_buy Scenario.alice Scenario.ONE_USDC Scenario.curve0 13177446);
      [apply uint256_ONE_USDC | vm_compute; reflexivity].
  - apply (curve_transfer Scenario.alice Scenario.bob 77 Scenario.curve_buy1M).
    + vm_compute. split; discriminate.
    + vm_compute. reflexivity.
Defined.

(** ** The owner's operations *)

Lemma deployFunds_Ok_state c a w w' :
  Vault.deployFunds c a w = Ok (tt, w') ->
  exists u,
    ERC20.transfer (Vault.self w) c a (Vault.USDC w) = Ok u /\
    w' = Vault.emit (Vault.FundsDeployed a)
           (Vault.set_USDC u (Vault.set_managedAssets (Vault.managedAssets w + a) w)).
Proof.
  unfold Vault.deployFunds. intros H. unbind H as o Ho.
  destruct (a =? 0); [discriminate|]. cbv zeta in H.
  destruct (_ <? a); [discriminate|].
  unbind H as m Hadd. unbind H as w1 Hpay.
  unfold Vault.safeTransfer in Hpay. unbind Hpay as u Hu. injection Hpay as <-.
  injection H as <-. simpl in *. inv_chk. subst m. eauto.
Qed.

Lemma returnFunds_Ok_state c a w w' :
  Vault.returnFunds c a w = Ok (tt, w') ->
  exists u,
    ERC20.transferFrom (Vault.self w) c (Vault.self w) a (Vault.USDC w) = Ok u /\
    w' = Vault.emit (Vault.FundsReturned a)
           (Vault.set_USDC u (Vault.set_managedAssets (Vault.managedAssets w - a) w)).
Proof.
  unfold Vault.returnFunds. intros H. unbind H as o Ho.
  destruct (a =? 0); [discriminate|].
  destruct (_ <? a); [discriminate|].
  unbind H as m Hsub. cbv zeta in H. unbind H as w1 Hpull.
  unfold Vault.safeTransferFrom in Hpull. unbind Hpull as u Hu.
  injection Hpull as <-. injection H as <-. simpl in *. inv_chk. subst m. eauto.
Qed.

(** The views that read only the assets and the supply agree on two
    states that agree on them. *)
Lemma views_agree w w' :
  Vault.self w' = Vault.self w ->
  ERC20.balanceOf (Vault.USDC w') (Vault.self w)
  + Vault.managedAssets w'
  = ERC20.balanceOf (Vault.USDC w) (Vault.self w) + Vault.managedAssets w ->
  Vault.totalSupply w' = Vault.totalSupply w ->
  Vault.totalAssets w' = Vault.totalAssets w /\
  (forall x, Vault.convertToShares x w' = Vault.convertToShares x w) /\
  (forall x, Vault.convertToAssets x w' = Vault.convertToAssets x w) /\
  Vault.sharePrice w' = Vault.sharePrice w.
Proof.
  intros Hself Hsum Hts.
  assert (Hta : Vault.totalAssets w' = Vault.totalAssets w).
  { unfold Vault.totalAssets, add_chk. rewrite Hself, Hsum. reflexivity. }
  split; [exact Hta|].
  assert (Hca : forall x, Vault.convertToAssets x w' = Vault.convertToAssets x w).
  { intros x. unfold Vault.convertToAssets. rewrite Hta, Hts. reflexivity. }
  split; [| split; [exact Hca | apply Hca]].
  intros x. unfold Vault.convertToShares. rewrite Hta, Hts. reflexivity.
Qed.

(** What [deployFunds] and [returnFunds] move, on a well-formed ledger. *)
Lemma deployFunds_moves w c a w' :
  Vault.wf w -> c <> Vault.self w -> is_uint256 a ->
  Vault.deployFunds c a w = Ok (tt, w') ->
  Vault.self w' = Vault.self w /\
  Vault.totalSupply w' = Vault.totalSupply w /\
  Vault.managedAssets w' = Vault.managedAssets w + a /\
  Vault.availableLiquidity w' = Vault.availableLiquidity w - a /\
  ERC20.balanceOf (Vault.USDC w') c = ERC20.balanceOf (Vault.USDC w) c + a.
Proof.
  intros (Hu & _ & _) Hc [Ha _] H.
  apply deployFunds_Ok_state in H. destruct H as (u & Hpay & ->).
  apply ERC20_transfer_Ok in Hpay; [|assumption].
  destruct Hpay as (_ & _ & _ & _ & Hbal).
  destruct (Hbal Hu (not_eq_sym Hc)) as [Hto Hfrom].
  unfold Vault.availableLiquidity. simpl.
  repeat split; lia.
Qed.

Lemma returnFunds_moves w c a w' :
  Vault.wf w -> c <> Vault.self w -> is_uint256 a ->
  Vault.returnFunds c a w = Ok (tt, w') ->
  Vault.self w' = Vault.self w /\
  Vault.totalSupply w' = Vault.totalSupply w /\
  Vault.managedAssets w' = Vault.managedAssets w - a /\
  Vault.availableLiquidity w' = Vault.availableLiquidity w + a /\
  ERC20.balanceOf (Vault.USDC w') c = ERC20.balanceOf (Vault.USDC w) c - a.
Proof.
  intros (Hu & _ & _) Hc [Ha _] H.
  apply returnFunds_Ok_state in H. destruct H as (u & Hpull & ->).
  apply ERC20_transferFrom_Ok in Hpull; [|assumption].
  destruct Hpull as (_ & _ & _ & _ & Hbal).
  destruct (Hbal Hu Hc) as [Hto Hfrom].
  unfold Vault.availableLiquidity. simpl.
  repeat split; lia.
Qed.

(** X3.  A successful [deployFunds(a)] moves exactly [a] from the vault's
    USDC balance to [managedAssets] and to the owner's wallet: liquidity
    falls by [a], [managedAssets] and the owner's balance rise by [a],
    and [totalAssets], both conversions and [sharePrice] are unchanged.
    A successful [returnFunds(a)] does the reverse. *)
Theorem deploy_return_conserve_assets w c a w' :
  Vault.wf w -> c <> Vault.self w -> is_uint256 a ->
  (Vault.deployFunds c a w = Ok (tt, w') ->
     Vault.managedAssets w' = Vault.managedAssets w + a /\
     Vault.availableLiquidity w' = Vault.availableLiquidity w - a /\
     ERC20.balanceOf (Vault.USDC w') c = ERC20.balanceOf (Vault.USDC w) c + a /\
     Vault.totalAssets w' = Vault.totalAssets w /\
     (forall x, Vault.convertToShares x w' = Vault.convertToShares x w) /\
     (forall x, Vault.convertToAssets x w' = Vault.convertToAssets x w) /\
     Vault.sharePrice w' = Vault.sharePrice w) /\
  (Vault.returnFunds c a w = Ok (tt, w') ->
     Vault.managedAssets w' = Vault.managedAssets w - a /\
     Vault.availableLiquidity w' = Vault.availableLiquidity w + a /\
     ERC20.balanceOf (Vault.USDC w') c = ERC20.balanceOf (Vault.USDC w) c - a /\
     Vault.totalAssets w' = Vault.totalAssets w /\
     (forall x, Vault.convertToShares x w' = Vault.convertToShares x w) /\
     (forall x, Vault.convertToAssets x w' = Vault.convertToAssets x w) /\
     Vault.sharePrice w' = Vault.sharePrice w).
Proof.
  intros Hwf Hc Ha. split; intros H.
  - destruct (deployFunds_moves w c a w' Hwf Hc Ha H)
      as (Hself & Hts & Hm & Hl & Hb).
    do 3 (split; [assumption|]).
    apply views_agree; [exact Hself | | exact Hts].
    unfold Vault.availableLiquidity in Hl. rewrite Hself in Hl. lia.
  - destruct (returnFunds_moves w c a w' Hwf Hc Ha H)
      as (Hself & Hts & Hm & Hl & Hb).
    do 3 (split; [assumption|]).
    apply views_agree; [exact Hself | | exact Hts].
    unfold Vault.availableLiquidity in Hl. rewrite Hself in Hl. lia.
Qed.

Lemma deploy_return_conserve_assets_witness :
  Vault.managedAssets Scenario.vault_half_deployed
    = Vault.managedAssets Scenario.vault_deposited + 500 * Scenario.ONE_USDC /\
  Vault.totalAssets Scenario.vault_half_deployed
    = Vault.totalAssets Scenario.vault_deposited.
Proof.
  assert (Hwf : Vault.wf Scenario.vault_deposited)
    by exact (wf_reachable _ _ _ _ wf_vault_usdc reach_vault_deposited).
  assert (Hc : Scenario.operator <> Vault.self Scenario.vault_deposited)
    by (vm_compute; discriminate).
  assert (Ha : is_uint256 (500 * Scenario.ONE_USDC))
    by (vm_compute; split; discriminate).
  assert (Hrun : Vault.deployFunds Scenario.operator (500 * Scenario.ONE_USDC)
                   Scenario.vault_deposited = Ok (tt, Scenario.vault_half_deployed))
    by (vm_compute; reflexivity).
  destruct (proj1 (deploy_return_conserve_assets Scenario.vault_deposited
                     Scenario.operator (500 * Scenario.ONE_USDC)
                     Scenario.vault_half_deployed Hwf Hc Ha) Hrun)
    as (Hm & _ & _ & Hta & _).
  split; assumption.
Defined.

(** X4.  Deploying [a] and returning [a] right after restores
    [managedAssets], the vault's liquidity and the owner's USDC balance
    to what they were. *)
Theorem deploy_then_return_restores w c a w1 w2 :
  Vault.wf w -> c <> Vault.self w -> is_uint256 a ->
  Vault.deployFunds c a w = Ok (tt, w1) ->
  Vault.returnFunds c a w1 = Ok (tt, w2) ->
  Vault.managedAssets w2 = Vault.managedAssets w /\
  Vault.availableLiquidity w2 = Vault.availableLiquidity w /\
  ERC20.balanceOf (Vault.USDC w2) c = ERC20.balanceOf (Vault.USDC w) c /\
  Vault.token w2 = Vault.token w.
Proof.
  intros Hwf Hc Ha H1 H2.
  assert (Hwf1 : Vault.wf w1).
  { eapply wf_step; [exact Hwf|]. eapply Vault.step_deployFunds; eassumption. }
  destruct (deployFunds_moves w c a w1 Hwf Hc Ha H1)
    as (Hself & _ & Hm1 & Hl1 & Hb1).
  assert (Hc1 : c <> Vault.self w1) by (rewrite Hself; exact Hc).
  destruct (returnFunds_moves w1 c a w2 Hwf1 Hc1 Ha H2)
    as (_ & _ & Hm2 & Hl2 & Hb2).
  apply deployFunds_Ok in H1. destruct H1 as (_ & _ & _ & _ & _ & _ & Ht1).
  apply returnFunds_Ok in H2. destruct H2 as (_ & _ & _ & _ & _ & Ht2).
  repeat split; try lia. congruence.
Qed.

Lemma deploy_then_return_restores_witness :
  exists w2,
    Vault.returnFunds Scenario.operator (500 * Scenario.ONE_USDC)
      Scenario.vault_half_deployed = Ok (tt, w2) /\
    Vault.managedAssets w2 = Vault.managedAssets Scenario.vault_deposited /\
    Vault.availableLiquidity w2 = Vault.availableLiquidity Scenario.vault_deposited /\
    ERC20.balanceOf (Vault.USDC w2) Scenario.operator
      = ERC20.balanceOf (Vault.USDC Scenario.vault_deposited) Scenario.operator /\
    Vault.token w2 = Vault.token Scenario.vault_deposited.
Proof.
  eexists. split; [vm_compute; reflexivity|].
  eapply (deploy_then_return_restores Scenario.vault_deposited Scenario.operator
            (500 * Scenario.ONE_USDC) Scenario.vault_half_deployed).
  - exact (wf_reachable _ _ _ _ wf_vault_usdc reach_vault_deposited).
  - vm_compute. discriminate.
  - vm_compute. split; discriminate.
  - vm_compute. reflexivity.
  - vm_compute. reflexivity.
Defined.

(** X5.  Only the owner changes [managedAssets]: every call of
    [deployFunds], [returnFunds] or [reportPnL] by another account
    reverts with [OwnableUnauthorizedAccount] whatever the amount, and
    deposits and redemptions, by anyone, leave [managedAssets] as it is. *)
Theorem only_owner_changes_managedAssets w c :
  (c <> Vault.owner w ->
   forall a,
     Vault.deployFunds c a w = Err (OwnableUnauthorizedAccount c) /\
     Vault.returnFunds c a w = Err (OwnableUnauthorizedAccount c) /\
     Vault.reportPnL c a w = Err (OwnableUnauthorizedAccount c)) /\
  (forall a r s w', 0 <= a -> Vault.deposit c a r w = Ok (s, w') ->
     Vault.managedAssets w' = Vault.managedAssets w) /\
  (forall s r a w', Vault.redeem c s r w = Ok (a, w') ->
     Vault.managedAssets w' = Vault.managedAssets w).
Proof.
  split; [|split].
  - intros Hc a.
    unfold Vault.deployFunds, Vault.returnFunds, Vault.reportPnL, Vault.onlyOwner.
    destruct (N.eqb_spec (Vault.owner w) c); [congruence|]. simpl. auto.
  - intros a r s w' Ha H. apply deposit_Ok in H; [|assumption].
    destruct H as (_ & _ & _ & _ & _ & _ & _ & _ & Hman & _). exact Hman.
  - intros s r a w' H. apply redeem_Ok in H.
    destruct H as (_ & _ & _ & _ & _ & _ & _ & _ & Hman & _). exact Hman.
Qed.

Lemma only_owner_changes_managedAssets_witness :
  Vault.deployFunds Scenario.alice 1 Scenario.vault_deposited
    = Err (OwnableUnauthorizedAccount Scenario.alice) /\
  Vault.returnFunds Scenario.alice 1 Scenario.vault_deposited
    = Err (OwnableUnauthorizedAccount Scenario.alice) /\
  Vault.reportPnL Scenario.alice 1 Scenario.vault_deposited
    = Err (OwnableUnauthorizedAccount Scenario.alice).
Proof.
  apply (proj1 (only_owner_changes_managedAssets Scenario.vault_deposited
                 Scenario.alice)).
  vm_compute. discriminate.
Defined.

(** ** The exchange rate *)

Lemma totalAssets_Ok w ta :
  Vault.totalAssets w = Ok ta -> ta = vault_assets w /\ ta <= MAX_UINT256.
Proof. unfold Vault.totalAssets, vault_assets. intros H. inv_chk. lia. Qed.

Lemma vault_assets_nonneg w : Vault.wf w -> 0 <= vault_assets w.
Proof.
  intros (Hu & _ & Hm). unfold vault_assets.
  pose proof (wf_balance_nonneg (Vault.USDC w) (Vault.self w) Hu). lia.
Qed.

Lemma sharePrice_Ok w p :
  Vault.sharePrice w = Ok p ->
  p = 1000000 * (vault_assets w + Vault.VIRTUAL_OFFSET)
      / (Vault.totalSupply w + Vault.VIRTUAL_OFFSET).
Proof.
  unfold Vault.sharePrice. intros H. apply convertToAssets_Ok in H.
  destruct H as (ta & Hta & Hp & _). apply totalAssets_Ok in Hta.
  destruct Hta as [-> _]. exact Hp.
Qed.

(** A rate that did not fall gives a share price that did not fall. *)
Lemma sharePrice_mono w w' p p' :
  Vault.wf w -> Vault.wf w' -> rate_le w w' ->
  Vault.sharePrice w = Ok p -> Vault.sharePrice w' = Ok p' -> p <= p'.
Proof.
  intros Hwf Hwf' Hrate Hp Hp'.
  apply sharePrice_Ok in Hp. apply sharePrice_Ok in Hp'.
  pose proof (vault_assets_nonneg w Hwf) as HA.
  pose proof (vault_assets_nonneg w' Hwf') as HA'.
  destruct Hwf as (_ & HS & _). destruct Hwf' as (_ & HS' & _).
  unfold rate_le in Hrate.
  set (alpha := vault_assets w + Vault.VIRTUAL_OFFSET) in *.
  set (alpha' := vault_assets w' + Vault.VIRTUAL_OFFSET) in *.
  set (sigma := Vault.totalSupply w + Vault.VIRTUAL_OFFSET) in *.
  set (sigma' := Vault.totalSupply w' + Vault.VIRTUAL_OFFSET) in *.
  assert (Hs : 0 < sigma) by (unfold sigma, Vault.VIRTUAL_OFFSET; lia).
  assert (Hs' : 0 < sigma') by (unfold sigma', Vault.VIRTUAL_OFFSET; lia).
  assert (Ha : 0 < alpha) by (unfold alpha, Vault.VIRTUAL_OFFSET; lia).
  assert (Hp0 : 0 <= p) by (rewrite Hp; apply Z.div_pos; lia).
  assert (H1 : sigma * p <= 1000000 * alpha)
    by (rewrite Hp; apply Z.mul_div_le; assumption).
  rewrite Hp'. apply Z.div_le_lower_bound; [assumption|].
  assert (H2 : sigma * (sigma' * p) <= sigma * (1000000 * alpha')) by nia.
  apply Z.mul_le_mono_pos_l in H2; assumption.
Qed.

Lemma deposit_self c a r w s w' :
  0 <= a -> Vault.deposit c a r w = Ok (s, w') -> Vault.self w' = Vault.self w.
Proof.
  intros Ha H. apply deposit_Ok in H; [|assumption].
  destruct H as (_ & _ & _ & _ & _ & _ & _ & _ & _ & Hself & _). exact Hself.
Qed.

(** X6.  A deposit never lowers the exchange rate
    [(totalAssets + K) / (totalSupply + K)]: the shares minted are worth
    at most the assets paid in, so holders are not diluted and
    [sharePrice] does not fall. *)
Theorem deposit_never_dilutes w c a r s w' :
  Vault.wf w -> c <> Vault.self w -> is_uint256 a ->
  Vault.deposit c a r w = Ok (s, w') ->
  rate_le w w' /\
  forall p p', Vault.sharePrice w = Ok p -> Vault.sharePrice w' = Ok p' -> p <= p'.
Proof.
  intros Hwf Hc Ha Hdep.
  assert (Hwf' : Vault.wf w').
  { eapply wf_step; [exact Hwf|]. eapply Vault.step_deposit; eassumption. }
  assert (Hrate : rate_le w w').
  { pose proof (deposit_Ok _ _ _ _ _ _ (proj1 Ha) Hdep)
      as (_ & _ & _ & _ & Hconv & _ & _ & Hts & Hman & Hself & _).
    apply convertToShares_Ok in Hconv. destruct Hconv as (ta & Hta & Hsh & _).
    destruct (deposit_totalAssets _ _ _ _ _ _ _ Hwf Hc (proj1 Ha) Hta Hdep) as [Hbal _].
    apply totalAssets_Ok in Hta. destruct Hta as [-> _].
    pose proof (vault_assets_nonneg w Hwf) as HA.
    destruct Hwf as (_ & HS & _).
    assert (Hle : (vault_assets w + Vault.VIRTUAL_OFFSET) * s
                  <= a * (Vault.totalSupply w + Vault.VIRTUAL_OFFSET)).
    { rewrite Hsh. apply Z.mul_div_le. unfold Vault.VIRTUAL_OFFSET. lia. }
    unfold rate_le. rewrite Hts.
    replace (vault_assets w') with (vault_assets w + a)
      by (unfold vault_assets; rewrite Hbal, Hman; lia).
    nia. }
  split; [exact Hrate|]. intros p p'. apply sharePrice_mono; assumption.
Qed.

Lemma deposit_never_dilutes_witness :
  rate_le Scenario.vault_donated Scenario.vault_victim_in /\
  forall p p', Vault.sharePrice Scenario.vault_donated = Ok p ->
               Vault.sharePrice Scenario.vault_victim_in = Ok p' -> p <= p'.
Proof.
  apply (deposit_never_dilutes Scenario.vault_donated Scenario.alice
           Scenario.THOUSAND_USDC Scenario.alice 100 Scenario.vault_victim_in).
  - exact (wf_reachable _ _ _ _ wf_vault_usdc reach_vault_donated).
  - vm_compute. discriminate.
  - vm_compute. split; discriminate.
  - vm_compute. reflexivity.
Defined.

(** A transfer to oneself leaves the balance as it was. *)
Lemma ERC20_transfer_self a v tk tk' :
  ERC20.wf tk -> 0 <= v ->
  ERC20._transfer a a v tk = Ok tk' ->
  ERC20.balanceOf tk' a = ERC20.balanceOf tk a.
Proof.
  intros Hwf Hv. unfold ERC20._transfer.
  destruct (N.eqb_spec a 0) as [|Ha]; [discriminate|].
  unfold ERC20._update.
  destruct (N.eqb_spec a 0); [contradiction|]. cbv zeta.
  destruct (Z.ltb_spec (ERC20.balanceOf tk a) v) as [|Hbal]; [discriminate|].
  simpl. intros [= <-].
  rewrite !ERC20_balanceOf_set_balance_eq.
  replace (ERC20.balanceOf tk a - v + v) with (ERC20.balanceOf tk a) by lia.
  apply wrap_small.
  pose proof (wf_balance_le tk a Hwf). pose proof (wf_balance_nonneg tk a Hwf).
  destruct Hwf as (_ & _ & Hts). lia.
Qed.

(** X7.  A redemption never lowers the exchange rate either: the assets
    paid out are worth at most the shares burned, so the remaining
    holders are not diluted and [sharePrice] does not fall. *)
Theorem redeem_never_dilutes w c s r a w' :
  Vault.wf w -> ERC20.wf (Vault.token w) -> is_uint256 s ->
  Vault.redeem c s r w = Ok (a, w') ->
  rate_le w w' /\
  forall p p', Vault.sharePrice w = Ok p -> Vault.sharePrice w' = Ok p' -> p <= p'.
Proof.
  intros Hwf Htk Hs Hred.
  assert (Hwf' : Vault.wf w').
  { eapply wf_step; [exact Hwf|]. eapply Vault.step_redeem; eassumption. }
  assert (Hrate : rate_le w w').
  { pose proof (redeem_Ok _ _ _ _ _ _ Hred)
      as (_ & _ & _ & _ & Hconv & _ & Hburn & Hpay & Hman & Hself & _).
    apply convertToAssets_Ok in Hconv. destruct Hconv as (ta & Hta & Has & _).
    apply totalAssets_Ok in Hta. destruct Hta as [-> _].
    pose proof (vault_assets_nonneg w Hwf) as HA.
    apply ERC20_burn_Ok in Hburn. destruct Hburn as (_ & Hsle & Hts & _).
    pose proof (wf_balance_le (Vault.token w) c Htk) as Hble.
    rewrite wrap_small in Hts by (destruct Htk as (_ & _ & ?); destruct Hs; lia).
    destruct Hwf as (Hu & HS & _). destruct Hs as [Hs0 _].
    assert (Hsig : 0 < Vault.totalSupply w + Vault.VIRTUAL_OFFSET)
      by (unfold Vault.VIRTUAL_OFFSET; lia).
    assert (Halp : 0 < vault_assets w + Vault.VIRTUAL_OFFSET)
      by (unfold Vault.VIRTUAL_OFFSET; lia).
    assert (Ha0 : 0 <= a) by (rewrite Has; apply Z.div_pos; [nia | assumption]).
    assert (Hle : (Vault.totalSupply w + Vault.VIRTUAL_OFFSET) * a
                  <= s * (vault_assets w + Vault.VIRTUAL_OFFSET))
      by (rewrite Has; apply Z.mul_div_le; assumption).
    assert (Hbal : vault_assets w - a <= vault_assets w').
    { unfold vault_assets. rewrite Hself, Hman.
      destruct (N.eq_dec (Vault.self w) r) as [<-|Hne].
      - rewrite (ERC20_transfer_self _ _ _ _ Hu Ha0 Hpay). lia.
      - apply ERC20_transfer_Ok in Hpay; [|assumption].
        destruct Hpay as (_ & _ & _ & _ & Hmove).
        destruct (Hmove Hu Hne) as [_ ->]. lia. }
    unfold rate_le, Vault.totalSupply in *. rewrite Hts. nia. }
  split; [exact Hrate|]. intros p p'. apply sharePrice_mono; assumption.
Qed.

Lemma reach_vault_victim_in :
  Vault.reachable Scenario.vault_address Scenario.operator Scenario.vault_usdc
    Scenario.vault_victim_in.
Proof.
  eapply Vault.reach_step; [apply reach_vault_donated|].
  apply (Vault.step_deposit Scenario.alice Scenario.THOUSAND_USDC Scenario.alice
           Scenario.vault_donated 100).
  - vm_compute. split; discriminate.
  - vm_compute. reflexivity.
Qed.

Lemma redeem_never_dilutes_witness :
  exists w',
    Vault.redeem Scenario.alice 100 Scenario.alice Scenario.vault_victim_in
      = Ok (999091825, w') /\
    rate_le Scenario.vault_victim_in w' /\
    forall p p', Vault.sharePrice Scenario.vault_victim_in = Ok p ->
                 Vault.sharePrice w' = Ok p' -> p <= p'.
Proof.
  eexists. split; [vm_compute; reflexivity|].
  eapply (redeem_never_dilutes Scenario.vault_victim_in Scenario.alice 100
            Scenario.alice 999091825).
  - exact (wf_reachable _ _ _ _ wf_vault_usdc reach_vault_victim_in).
  - exact (vault_token_wf_reachable _ _ _ _ wf_vault_usdc reach_vault_victim_in).
  - vm_compute. split; discriminate.
  - vm_compute. reflexivity.
Defined.

Lemma reportPnL_Ok_state c a w w' :
  is_int256 a -> 0 <= Vault.managedAssets w <= MAX_UINT256 ->
  Vault.reportPnL c a w = Ok (tt, w') ->
  0 <= Vault.managedAssets w + a <= MAX_UINT256 /\
  w' = Vault.mkState (Vault.self w) (Vault.owner w) (Vault.entered w)
         (Vault.token w) (Vault.managedAssets w + a) (Vault.USDC w)
         (Vault.events w ++ [Vault.PnLReported a (Vault.managedAssets w + a)]).
Proof.
  intros Ha Hm. unfold Vault.reportPnL. intros H. unbind H as o Ho.
  unbind H as w1 Hw1. injection H as <-.
  destruct (Z.ltb_spec 0 a) as [Hpos|Hnpos].
  - unbind Hw1 as m Hadd. injection Hw1 as <-. inv_chk. subst m.
    rewrite uint256_of_int256_nonneg in * by (destruct Ha; lia).
    unfold Vault.emit. simpl. split; [lia | reflexivity].
  - destruct (Z.ltb_spec a 0) as [Hneg|Hzero].
    + unbind Hw1 as n Hn. cbv zeta in Hw1.
      destruct (Z.ltb_spec (Vault.managedAssets w) (uint256_of_int256 n));
        [discriminate|].
      unbind Hw1 as m Hsub. injection Hw1 as <-. inv_chk. subst m.
      unfold neg_int256 in Hn. destruct (Z.eqb_spec a MIN_INT256); [discriminate|].
      injection Hn as <-.
      rewrite uint256_of_int256_nonneg in *
        by (destruct Ha as [Ha1 Ha2]; rewrite MIN_INT256_eq in *;
            rewrite MAX_INT256_eq in *; lia).
      unfold Vault.emit. simpl.
      replace (Vault.managedAssets w - - a) with (Vault.managedAssets w + a) by lia.
      split; [lia | reflexivity].
    + injection Hw1 as <-. assert (a = 0) by lia. subst a.
      unfold Vault.emit. rewrite Z.add_0_r. destruct w. simpl in *.
      split; [lia | reflexivity].
Qed.

(** X8.  A successful [reportPnL(amount)] adds the signed amount to
    [managedAssets], hence to the vault's assets, and touches nothing
    else but the event log, which records the new [managedAssets].  A
    profit does not lower the exchange rate or [sharePrice], a loss does
    not raise them. *)
Theorem reportPnL_rebases w c a w' :
  Vault.wf w -> is_int256 a ->
  Vault.reportPnL c a w = Ok (tt, w') ->
  Vault.managedAssets w' = Vault.managedAssets w + a /\
  vault_assets w' = vault_assets w + a /\
  Vault.USDC w' = Vault.USDC w /\
  Vault.token w' = Vault.token w /\
  Vault.events w'
    = Vault.events w ++ [Vault.PnLReported a (Vault.managedAssets w + a)] /\
  (0 <= a -> rate_le w w') /\
  (a <= 0 -> rate_le w' w) /\
  forall p p', Vault.sharePrice w = Ok p -> Vault.sharePrice w' = Ok p' ->
               (0 <= a -> p <= p') /\ (a <= 0 -> p' <= p).
Proof.
  intros Hwf Ha H.
  assert (Hwf' : Vault.wf w').
  { eapply wf_step; [exact Hwf|]. eapply Vault.step_reportPnL; eassumption. }
  pose proof (vault_assets_nonneg w Hwf) as HA.
  pose proof (vault_assets_nonneg w' Hwf') as HA'.
  assert (HS : 0 <= Vault.totalSupply w) by (destruct Hwf as (_ & ? & _); lia).
  pose proof (reportPnL_Ok_state c a w w' Ha (proj2 (proj2 Hwf)) H) as (_ & Hw').
  assert (Hassets : vault_assets w' = vault_assets w + a)
    by (rewrite Hw'; unfold vault_assets; simpl; lia).
  assert (Hts : Vault.totalSupply w' = Vault.totalSupply w)
    by (rewrite Hw'; reflexivity).
  assert (Hup : 0 <= a -> rate_le w w').
  { intros H0. unfold rate_le. rewrite Hassets, Hts.
    unfold Vault.VIRTUAL_OFFSET. nia. }
  assert (Hdown : a <= 0 -> rate_le w' w).
  { intros H0. unfold rate_le. rewrite Hassets, Hts.
    unfold Vault.VIRTUAL_OFFSET. nia. }
  split; [rewrite Hw'; reflexivity|]. split; [exact Hassets|].
  split; [rewrite Hw'; reflexivity|]. split; [rewrite Hw'; reflexivity|].
  split; [rewrite Hw'; reflexivity|]. split; [exact Hup|]. split; [exact Hdown|].
  intros p p' Hp Hp'. split; intros H0.
  - exact (sharePrice_mono w w' p p' Hwf Hwf' (Hup H0) Hp Hp').
  - exact (sharePrice_mono w' w p' p Hwf' Hwf (Hdown H0) Hp' Hp).
Qed.

Lemma reportPnL_rebases_witness :
  Vault.managedAssets Scenario.vault_after_loss
    = Vault.managedAssets Scenario.vault_deployed + - 600 * Scenario.ONE_USDC /\
  vault_assets Scenario.vault_after_loss
    = vault_assets Scenario.vault_deployed + - 600 * Scenario.ONE_USDC.
Proof.
  assert (Hwf : Vault.wf Scenario.vault_deployed)
    by exact (wf_reachable _ _ _ _ wf_vault_usdc reach_vault_deployed).
  assert (Ha : is_int256 (- 600 * Scenario.ONE_USDC))
    by (vm_compute; split; discriminate).
  assert (Hrun : Vault.reportPnL Scenario.operator (- 600 * Scenario.ONE_USDC)
                   Scenario.vault_deployed = Ok (tt, Scenario.vault_after_loss))
    by (vm_compute; reflexivity).
  destruct (reportPnL_rebases Scenario.vault_deployed Scenario.operator
              (- 600 * Scenario.ONE_USDC) Scenario.vault_after_loss Hwf Ha Hrun)
    as (Hm & Hassets & _).
  split; assumption.
Defined.

(** ** Conversions and redemptions *)

(** X9.  Converting assets to shares and back at one state never gains:
    when [convertToShares(a)] returns [s], [convertToAssets(s)] returns
    as well, and at most [a]; likewise shares to assets and back returns
    at most the shares. *)
Theorem convert_roundtrip_le w :
  Vault.wf w ->
  (forall a s, is_uint256 a -> Vault.convertToShares a w = Ok s ->
     exists b, Vault.convertToAssets s w = Ok b /\ 0 <= b <= a) /\
  (forall s a, is_uint256 s -> Vault.convertToAssets s w = Ok a ->
     exists s', Vault.convertToShares a w = Ok s' /\ 0 <= s' <= s).
Proof.
  intros Hwf. pose proof (vault_assets_nonneg w Hwf) as HA.
  assert (HS : 0 <= Vault.totalSupply w) by (destruct Hwf as (_ & ? & _); lia).
  split.
  - intros a s [Ha0 Ha1] H. unfold Vault.convertToShares in H.
    unbind H as num Hnum. unbind H as ta Hta. unbind H as den Hden.
    rewrite mulDivR_Floor in H.
    pose proof (totalAssets_Ok _ _ Hta) as [Heq _]. inv_chk. subst.
    set (sigma := Vault.totalSupply w + Vault.VIRTUAL_OFFSET) in *.
    set (alpha := vault_assets w + Vault.VIRTUAL_OFFSET) in *.
    assert (Hs : 0 < sigma) by (unfold sigma, Vault.VIRTUAL_OFFSET; lia).
    assert (Hal : 0 < alpha) by (unfold alpha, Vault.VIRTUAL_OFFSET; lia).
    set (s := a * sigma / alpha) in *.
    assert (Hs0 : 0 <= s) by (apply Z.div_pos; nia).
    assert (Hle : alpha * s <= a * sigma) by (apply Z.mul_div_le; assumption).
    assert (Hb0 : 0 <= s * alpha / sigma) by (apply Z.div_pos; nia).
    assert (Hb : s * alpha / sigma <= a) by (apply Z.div_le_upper_bound; nia).
    exists (s * alpha / sigma). split; [|lia].
    unfold Vault.convertToAssets. rewrite Hta. simpl.
    fold alpha. rewrite add_chk_fits by assumption. simpl.
    fold sigma. rewrite add_chk_fits by assumption. simpl.
    rewrite mulDivR_Floor. apply mulDiv_fits; lia.
  - intros s a [Hs0 Hs1] H. unfold Vault.convertToAssets in H.
    unbind H as ta Hta. unbind H as num Hnum. unbind H as den Hden.
    rewrite mulDivR_Floor in H.
    pose proof (totalAssets_Ok _ _ Hta) as [Heq _]. inv_chk. subst.
    set (sigma := Vault.totalSupply w + Vault.VIRTUAL_OFFSET) in *.
    set (alpha := vault_assets w + Vault.VIRTUAL_OFFSET) in *.
    assert (Hs : 0 < sigma) by (unfold sigma, Vault.VIRTUAL_OFFSET; lia).
    assert (Hal : 0 < alpha) by (unfold alpha, Vault.VIRTUAL_OFFSET; lia).
    set (a := s * alpha / sigma) in *.
    assert (Ha0 : 0 <= a) by (apply Z.div_pos; nia).
    assert (Hle : sigma * a <= s * alpha) by (apply Z.mul_div_le; assumption).
    assert (Hb0 : 0 <= a * sigma / alpha) by (apply Z.div_pos; nia).
    assert (Hb : a * sigma / alpha <= s) by (apply Z.div_le_upper_bound; nia).
    exists (a * sigma / alpha). split; [|lia].
    unfold Vault.convertToShares.
    fold sigma. rewrite add_chk_fits by assumption. simpl.
    rewrite Hta. simpl. fold alpha. rewrite add_chk_fits by assumption. simpl.
    rewrite mulDivR_Floor. apply mulDiv_fits; lia.
Qed.

Lemma convert_roundtrip_le_witness :
  exists b, Vault.convertToAssets 100 Scenario.vault_donated = Ok b /\
            0 <= b <= Scenario.THOUSAND_USDC.
Proof.
  apply (proj1 (convert_roundtrip_le Scenario.vault_donated
                  (wf_reachable _ _ _ _ wf_vault_usdc reach_vault_donated))
           Scenario.THOUSAND_USDC 100).
  - vm_compute. split; discriminate.
  - vm_compute. reflexivity.
Defined.

Lemma ERC20_burn_succeeds a v tk :
  a <> 0%N -> v <= ERC20.balanceOf tk a ->
  exists tk', ERC20._burn a v tk = Ok tk'.
Proof.
  intros Ha Hv. unfold ERC20._burn, ERC20._update.
  destruct (N.eqb_spec a 0); [contradiction|]. cbv zeta.
  destruct (Z.ltb_spec (ERC20.balanceOf tk a) v); [lia|].
  simpl. eauto.
Qed.

Lemma ERC20_transfer_succeeds from to v tk :
  from <> 0%N -> to <> 0%N -> v <= ERC20.balanceOf tk from ->
  exists tk', ERC20.transfer from to v tk = Ok tk'.
Proof.
  intros Hf Ht Hv. unfold ERC20.transfer, ERC20._transfer, ERC20._update.
  destruct (N.eqb_spec from 0); [contradiction|].
  destruct (N.eqb_spec to 0); [contradiction|]. cbv zeta.
  destruct (Z.ltb_spec (ERC20.balanceOf tk from) v); [lia|].
  simpl. eauto.
Qed.

(** X10.  A redemption goes through whenever its own checks pass: with
    the guard released, a holder of at least [shares > 0] shares and a
    set receiver, [redeem(shares, receiver)] succeeds and returns
    [convertToAssets(shares)] as soon as that amount is positive and
    within the vault's USDC balance; when it exceeds the balance the
    call fails with [InsufficientLiquidity(assets, balance)]. *)
Theorem redeem_succeeds_within_liquidity w c s r a :
  Vault.entered w = false ->
  c <> 0%N -> r <> 0%N -> Vault.self w <> 0%N ->
  0 < s <= Vault.balanceOf w c ->
  Vault.convertToAssets s w = Ok a -> 0 < a ->
  (a <= Vault.availableLiquidity w ->
     exists w', Vault.redeem c s r w = Ok (a, w')) /\
  (Vault.availableLiquidity w < a ->
     Vault.redeem c s r w
     = Err (InsufficientLiquidity a (Vault.availableLiquidity w))).
Proof.
  intros Hent Hc Hr Hself Hs Hconv Ha.
  unfold Vault.redeem, Vault.nonReentrant. rewrite Hent.
  destruct (Z.eqb_spec s 0); [lia|].
  destruct (N.eqb_spec r 0); [contradiction|].
  change (Vault.convertToAssets s (Vault.set_entered true w))
    with (Vault.convertToAssets s w).
  rewrite Hconv. simpl.
  destruct (Z.eqb_spec a 0); [lia|].
  change (Vault.availableLiquidity (Vault.set_entered true w))
    with (Vault.availableLiquidity w).
  split; intros Hliq.
  - destruct (Z.ltb_spec (Vault.availableLiquidity w) a); [lia|].
    destruct (ERC20_burn_succeeds c s (Vault.token w) Hc (proj2 Hs)) as [tk Htk].
    destruct (ERC20_transfer_succeeds (Vault.self w) r a (Vault.USDC w)
                Hself Hr Hliq) as [u Hu].
    unfold Vault._burn. simpl. rewrite Htk. simpl.
    unfold Vault.safeTransfer. simpl. rewrite Hu. simpl.
    eexists. reflexivity.
  - destruct (Z.ltb_spec (Vault.availableLiquidity w) a); [reflexivity | lia].
Qed.

Lemma redeem_succeeds_within_liquidity_witness :
  (Scenario.THOUSAND_USDC <= Vault.availableLiquidity Scenario.vault_deposited ->
     exists w', Vault.redeem Scenario.alice Scenario.THOUSAND_USDC Scenario.alice
                  Scenario.vault_deposited = Ok (Scenario.THOUSAND_USDC, w')) /\
  (Vault.availableLiquidity Scenario.vault_deposited < Scenario.THOUSAND_USDC ->
     Vault.redeem Scenario.alice Scenario.THOUSAND_USDC Scenario.alice
       Scenario.vault_deposited
     = Err (InsufficientLiquidity Scenario.THOUSAND_USDC
              (Vault.availableLiquidity Scenario.vault_deposited))).
Proof.
  apply (redeem_succeeds_within_liquidity Scenario.vault_deposited Scenario.alice
           Scenario.THOUSAND_USDC Scenario.alice Scenario.THOUSAND_USDC);
    vm_compute; try discriminate; try reflexivity.
  split; [reflexivity | discriminate].
Defined.

(** * Further properties of the market *)

(** ** Quotes and trades *)

Lemma pow2_128_eq : 2 ^ 128 = 340282366920938463463374607431768211456.
Proof. reflexivity. Qed.

(** [_integralCost] returns on supplies below [2^128]. *)
Lemma integralCost_returns s0 s1 :
  0 <= s0 <= s1 -> s1 < 2 ^ 128 ->
  Curve._integralCost s0 s1
  = Ok (Curve.BASE_PRICE * (s1 - s0) / Curve.SCALE
        + Curve.SLOPE * (s1 + s0) * (s1 - s0) / (2 * Curve.SCALE * Curve.SCALE)).
Proof.
  intros Hs Hbound. rewrite pow2_128_eq in Hbound.
  assert (H1 : Curve.BASE_PRICE * (s1 - s0) / Curve.SCALE
               <= 340282366920938463463374607431768211456).
  { apply Z.div_le_upper_bound; [reflexivity|].
    unfold Curve.BASE_PRICE, Curve.SCALE. lia. }
  assert (H2 : Curve.SLOPE * (s1 + s0) * (s1 - s0) / (2 * Curve.SCALE * Curve.SCALE)
               <= 57896044618658097711785492504343953926634992332820282019728792003956564819968).
  { apply Z.div_le_upper_bound; [reflexivity|].
    unfold Curve.SLOPE, Curve.SCALE. nia. }
  apply integralCost_fits; [assumption | | |]; rewrite MAX_UINT256_eq.
  - unfold Curve.SLOPE. lia.
  - lia.
  - lia.
Qed.

Lemma getBuyCost_Ok n w q :
  0 <= Curve.totalSupply w -> 0 < n ->
  Curve.getBuyCost n w = Ok q ->
  Curve._integralCost (Curve.totalSupply w) (Curve.totalSupply w + n) = Ok q.
Proof.
  intros Hs Hn. unfold Curve.getBuyCost.
  destruct (Z.eqb_spec n 0); [lia|]. cbv zeta. intros H.
  unbind H as s1 Hs1. inv_chk. subst s1. exact H.
Qed.

Lemma getBuyCost_fits n w :
  0 < n -> Curve.totalSupply w + n <= MAX_UINT256 ->
  Curve.getBuyCost n w
  = Curve._integralCost (Curve.totalSupply w) (Curve.totalSupply w + n).
Proof.
  intros Hn Hfit. unfold Curve.getBuyCost.
  destruct (Z.eqb_spec n 0); [lia|]. cbv zeta.
  rewrite add_chk_fits by assumption. reflexivity.
Qed.

(** The quote for the tokens a buy mints is computed and is at most the
    payment. *)
Lemma buy_quote_le w c x t w' :
  0 <= Curve.totalSupply w <= MAX_UINT256 -> is_uint256 x ->
  Curve.buy c x w = Ok (t, w') ->
  exists q, Curve.getBuyCost t w = Ok q /\ q <= x.
Proof.
  intros Hs Hx Hbuy. apply buy_Ok in Hbuy.
  destruct Hbuy as (_ & _ & Ht0 & Htok & _ & _ & _ & Hfit & _).
  apply tokensForExactUsdc_Ok in Htok; [| lia | apply Hx].
  destruct Htok as [Ht Hdisc].
  destruct (solve_tokens_cost (Curve.totalSupply w) x) as [Hnn Hcost];
    [lia | apply Hx |].
  pose proof (buy_supply_bound (Curve.totalSupply w) x (proj1 Hs) (proj1 Hx) Hdisc)
    as Hb.
  rewrite <- Ht in Hnn, Hcost, Hb.
  set (s := Curve.totalSupply w) in *.
  assert (H128 : s + t < 2 ^ 128) by (unfold Curve.SLOPE in Hb; lia).
  eexists. split.
  - rewrite getBuyCost_fits by lia. fold s.
    apply integralCost_returns; lia.
  - set (q := _ + _).
    assert (Hq : Curve._integralCost s (s + t) = Ok q)
      by (apply integralCost_returns; lia).
    apply integralCost_Ok in Hq; [|lia].
    destruct Hq as (_ & _ & _ & Hq).
    assert (2 * Curve.SCALE * Curve.SCALE * q <= 2 * Curve.SCALE * Curve.SCALE * x)
      by lia.
    unfold Curve.SCALE in *. lia.
Qed.

(** X11.  A buy never pays less than the quote: when [buy(x)] mints [t]
    tokens, [getBuyCost(t)] read before the buy returns at most [x]; and
    [t] is as large as the rounding allows, since a quote for [t + 1]
    tokens is at least [x - 1]. *)
Theorem buy_pays_at_least_quote w c x t w' :
  0 <= Curve.totalSupply w <= MAX_UINT256 -> is_uint256 x ->
  Curve.buy c x w = Ok (t, w') ->
  (exists q, Curve.getBuyCost t w = Ok q /\ q <= x) /\
  (forall q', Curve.getBuyCost (t + 1) w = Ok q' -> x - 1 <= q').
Proof.
  intros Hs Hx Hbuy.
  split; [exact (buy_quote_le w c x t w' Hs Hx Hbuy)|].
  apply buy_Ok in Hbuy.
  destruct Hbuy as (_ & _ & Ht0 & Htok & _ & _ & _ & Hfit & _).
  apply tokensForExactUsdc_Ok in Htok; [| lia | apply Hx].
  destruct Htok as [Ht Hdisc].
  destruct (solve_tokens_cost (Curve.totalSupply w) x) as [Hnn Hcost];
    [lia | apply Hx |].
  rewrite <- Ht in Hnn, Hcost.
  set (s := Curve.totalSupply w) in *.
  - intros q' Hq'. apply getBuyCost_Ok in Hq'; [| lia | lia]. fold s in Hq'.
    apply integralCost_Ok in Hq'; [|lia]. destruct Hq' as (_ & -> & _ & _).
    assert (Hb0 : 0 <= Curve.linear_coeff s)
      by (unfold Curve.linear_coeff, Curve.SCALE, Curve.BASE_PRICE, Curve.SLOPE; lia).
    assert (HE : 0 <= 2 * Curve.SCALE * Curve.SCALE * x)
      by (unfold Curve.SCALE; destruct Hx; lia).
    pose proof (solve_cost_next_gt Curve.SLOPE (Curve.linear_coeff s)
                  (2 * Curve.SCALE * Curve.SCALE * x) eq_refl Hb0 HE) as Hnext.
    fold (Curve.solve_tokens s x) in Hnext. rewrite <- Ht in Hnext.
    pose proof (two_floors_bounds (Curve.BASE_PRICE * (s + (t + 1) - s))
                  (Curve.SLOPE * (s + (t + 1) + s) * (s + (t + 1) - s))
                  Curve.SCALE eq_refl) as [Hlow _].
    rewrite <- integral_diff_split in Hlow.
    rewrite integral_step in Hlow.
    assert (Hfl : x <= (2 * Curve.linear_coeff s * (t + 1)
                        + Curve.SLOPE * (t + 1) * (t + 1))
                       / (2 * Curve.SCALE * Curve.SCALE)).
    { apply Z.div_le_lower_bound; [reflexivity | lia]. }
    lia.
Qed.

Lemma buy_pays_at_least_quote_witness :
  (exists q, Curve.getBuyCost 13177446 Scenario.curve0 = Ok q /\
             q <= Scenario.ONE_USDC) /\
  (forall q', Curve.getBuyCost (13177446 + 1) Scenario.curve0 = Ok q' ->
              Scenario.ONE_USDC - 1 <= q').
Proof.
  apply (buy_pays_at_least_quote Scenario.curve0 Scenario.alice Scenario.ONE_USDC
           13177446 Scenario.curve_buy1M).
  - vm_compute. split; discriminate.
  - apply uint256_ONE_USDC.
  - vm_compute. reflexivity.
Defined.

(** X12.  Buying with [x] and at once selling the [t] tokens minted
    returns exactly what [getBuyCost(t)] quoted before the buy, which is
    at most [x]; the supply is back where it was and the difference
    stays in the reserve. *)
Theorem buy_then_sell_returns_quote w c x t w1 c' u w2 :
  0 <= Curve.totalSupply w <= MAX_UINT256 -> is_uint256 x ->
  Curve.buy c x w = Ok (t, w1) ->
  Curve.sell c' t w1 = Ok (u, w2) ->
  Curve.getBuyCost t w = Ok u /\
  u <= x /\
  Curve.totalSupply w2 = Curve.totalSupply w /\
  Curve.reserveBalance w2 = Curve.reserveBalance w + (x - u).
Proof.
  intros Hs Hx Hbuy Hsell.
  destruct (buy_quote_le w c x t w1 Hs Hx Hbuy) as (q & Hq & Hqx).
  apply buy_Ok in Hbuy.
  destruct Hbuy as (_ & _ & Ht0 & Htok & Hres & _ & Hsup & Hfit & _).
  apply tokensForExactUsdc_Ok in Htok; [| lia | apply Hx].
  destruct Htok as [Ht _].
  destruct (solve_tokens_cost (Curve.totalSupply w) x) as [Hnn _];
    [lia | apply Hx |].
  rewrite <- Ht in Hnn.
  apply sell_Ok in Hsell; [| rewrite Hsup; lia].
  destruct Hsell as (_ & _ & _ & _ & _ & _ & Hcost & Hres2 & _ & Hsup2 & _).
  rewrite Hsup in Hcost.
  replace (Curve.totalSupply w + t - t) with (Curve.totalSupply w) in Hcost by lia.
  rewrite getBuyCost_fits in Hq by lia.
  rewrite Hq in Hcost. injection Hcost as <-.
  rewrite getBuyCost_fits by lia.
  repeat split; try assumption; lia.
Qed.

Lemma buy_then_sell_returns_quote_witness :
  Curve.getBuyCost 13177446 Scenario.curve0 = Ok 999999 /\
  999999 <= Scenario.ONE_USDC /\
  Curve.totalSupply Scenario.curve_buy1M_sellall = Curve.totalSupply Scenario.curve0 /\
  Curve.reserveBalance Scenario.curve_buy1M_sellall
    = Curve.reserveBalance Scenario.curve0 + (Scenario.ONE_USDC - 999999).
Proof.
  apply (buy_then_sell_returns_quote Scenario.curve0 Scenario.alice Scenario.ONE_USDC
           13177446 Scenario.curve_buy1M Scenario.alice).
  - vm_compute. split; discriminate.
  - apply uint256_ONE_USDC.
  - vm_compute. reflexivity.
  - vm_compute. reflexivity.
Defined.

(** Two floors against the floor of the sum. *)
Lemma floor_sum_bounds x y n :
  0 < n -> x / n + y / n <= (x + y) / n <= x / n + y / n + 1.
Proof.
  intros Hn.
  pose proof (Z.div_mod x n ltac:(lia)) as Hx.
  pose proof (Z.mod_pos_bound x n Hn) as Hrx.
  pose proof (Z.div_mod y n ltac:(lia)) as Hy.
  pose proof (Z.mod_pos_bound y n Hn) as Hry.
  set (qx := x / n) in *. set (rx := x mod n) in *.
  set (qy := y / n) in *. set (ry := y mod n) in *.
  replace (x + y) with ((qx + qy) * n + (rx + ry)) by lia.
  rewrite Z.div_add_l by lia.
  assert (0 <= (rx + ry) / n) by (apply Z.div_pos; lia).
  assert ((rx + ry) / n < 2) by (apply Z.div_lt_upper_bound; lia).
  lia.
Qed.

(** The cost over two adjoining ranges against the cost over their
    union. *)
Lemma integralCost_split s0 s1 s2 a b c :
  0 <= s0 <= s1 -> s1 <= s2 ->
  Curve._integralCost s0 s1 = Ok a ->
  Curve._integralCost s1 s2 = Ok b ->
  Curve._integralCost s0 s2 = Ok c ->
  a + b <= c <= a + b + 2.
Proof.
  intros H01 H12 Ha Hb Hc.
  apply integralCost_Ok in Ha; [|lia]. destruct Ha as (_ & -> & _ & _).
  apply integralCost_Ok in Hb; [|lia]. destruct Hb as (_ & -> & _ & _).
  apply integralCost_Ok in Hc; [|lia]. destruct Hc as (_ & -> & _ & _).
  pose proof (floor_sum_bounds (Curve.BASE_PRICE * (s1 - s0))
                (Curve.BASE_PRICE * (s2 - s1)) Curve.SCALE eq_refl) as Hlin.
  pose proof (floor_sum_bounds (Curve.SLOPE * (s1 + s0) * (s1 - s0))
                (Curve.SLOPE * (s2 + s1) * (s2 - s1))
                (2 * Curve.SCALE * Curve.SCALE) eq_refl) as Hquad.
  replace (Curve.BASE_PRICE * (s1 - s0) + Curve.BASE_PRICE * (s2 - s1))
    with (Curve.BASE_PRICE * (s2 - s0)) in Hlin by ring.
  replace (Curve.SLOPE * (s1 + s0) * (s1 - s0) + Curve.SLOPE * (s2 + s1) * (s2 - s1))
    with (Curve.SLOPE * (s2 + s0) * (s2 - s0)) in Hquad by ring.
  lia.
Qed.

(** X13.  Splitting a sale never pays more: two sells of [n1] and [n2]
    tokens in sequence return together at most what
    [getSellReturn(n1 + n2)] quoted for one sale of the total, and at
    most 2 units less. *)
Theorem split_sell_never_gains w c n1 u1 w1 c' n2 u2 w2 u :
  0 <= Curve.totalSupply w <= MAX_UINT256 ->
  Curve.sell c n1 w = Ok (u1, w1) ->
  Curve.sell c' n2 w1 = Ok (u2, w2) ->
  Curve.getSellReturn (n1 + n2) w = Ok u ->
  u1 + u2 <= u <= u1 + u2 + 2.
Proof.
  intros Hs H1 H2 Hu.
  apply sell_Ok in H1; [|assumption].
  destruct H1 as (_ & _ & _ & _ & Hn1 & _ & Hc1 & _ & _ & Hsup1 & _).
  apply sell_Ok in H2; [| rewrite Hsup1; lia].
  destruct H2 as (_ & _ & _ & _ & Hn2 & _ & Hc2 & _).
  rewrite Hsup1 in Hc2, Hn2.
  unfold Curve.getSellReturn in Hu.
  destruct (Z.eqb_spec (n1 + n2) 0); [lia|]. cbv zeta in Hu.
  destruct (Z.ltb_spec (Curve.totalSupply w) (n1 + n2)); [discriminate|].
  unbind Hu as s1 Hs1. inv_chk. subst s1.
  replace (Curve.totalSupply w - (n1 + n2))
    with (Curve.totalSupply w - n1 - n2) in Hu by lia.
  assert (H01 : 0 <= Curve.totalSupply w - n1 - n2 <= Curve.totalSupply w - n1)
    by lia.
  assert (H12 : Curve.totalSupply w - n1 <= Curve.totalSupply w) by lia.
  pose proof (integralCost_split _ _ _ _ _ _ H01 H12 Hc2 Hc1 Hu).
  lia.
Qed.

Lemma split_sell_never_gains_witness :
  exists u2 w2,
    Curve.sell Scenario.alice 13177436 Scenario.curve_buy1M_sell10 = Ok (u2, w2) /\
    1 + u2 <= 999999 <= 1 + u2 + 2.
Proof.
  do 2 eexists. split; [vm_compute; reflexivity|].
  eapply (split_sell_never_gains Scenario.curve_buy1M Scenario.alice 10 1
            Scenario.curve_buy1M_sell10 Scenario.alice 13177436).
  - vm_compute. split; discriminate.
  - vm_compute. reflexivity.
  - vm_compute. reflexivity.
  - vm_compute. reflexivity.
Defined.

(** ** The reserve and the USDC behind it *)

Lemma buy_Ok_usdc c x w t w' :
  Curve.buy c x w = Ok (t, w') ->
  ERC20.transferFrom (Curve.self w) c (Curve.self w) x (Curve.usdc w)
    = Ok (Curve.usdc w') /\
  Curve.self w' = Curve.self w /\
  Curve.reserveBalance w' = Curve.reserveBalance w + x.
Proof. intros H. apply buy_Ok in H. tauto. Qed.

(** X14.  Trades keep the reserve backed: on a well-formed USDC ledger a
    successful buy or sell by an account other than the market changes
    [reserveBalance] and the USDC the market holds by the same amount,
    so USDC held minus [reserveBalance] stays what it was and the
    reserve never exceeds the USDC held. *)
Theorem trades_keep_reserve_backed w :
  ERC20.wf (Curve.usdc w) -> 0 <= Curve.totalSupply w <= MAX_UINT256 ->
  (forall c x t w', c <> Curve.self w -> is_uint256 x ->
     Curve.buy c x w = Ok (t, w') ->
     ERC20.balanceOf (Curve.usdc w') (Curve.self w') - Curve.reserveBalance w'
     = ERC20.balanceOf (Curve.usdc w) (Curve.self w) - Curve.reserveBalance w /\
     (curve_backed w -> curve_backed w') /\
     ERC20.wf (Curve.usdc w')) /\
  (forall c n u w', c <> Curve.self w ->
     Curve.sell c n w = Ok (u, w') ->
     ERC20.balanceOf (Curve.usdc w') (Curve.self w') - Curve.reserveBalance w'
     = ERC20.balanceOf (Curve.usdc w) (Curve.self w) - Curve.reserveBalance w /\
     (curve_backed w -> curve_backed w') /\
     ERC20.wf (Curve.usdc w')).
Proof.
  intros Hu Hs. split.
  - intros c x t w' Hc [Hx _] Hbuy.
    apply buy_Ok_usdc in Hbuy. destruct Hbuy as (Hpull & Hself & Hres).
    pose proof (ERC20_wf_transferFrom _ _ _ _ _ _ Hu Hx Hpull) as Hu'.
    apply ERC20_transferFrom_Ok in Hpull; [|assumption].
    destruct Hpull as (_ & _ & _ & _ & Hmove).
    destruct (Hmove Hu Hc) as [Hto _].
    assert (Heq : ERC20.balanceOf (Curve.usdc w') (Curve.self w')
                  - Curve.reserveBalance w'
                  = ERC20.balanceOf (Curve.usdc w) (Curve.self w)
                    - Curve.reserveBalance w)
      by (rewrite Hself, Hto, Hres; lia).
    split; [exact Heq|]. split; [|exact Hu'].
    unfold curve_backed. lia.
  - intros c n u w' Hc Hsell.
    apply sell_Ok in Hsell; [|assumption].
    destruct Hsell as (_ & _ & _ & _ & Hn & _ & Hcost & Hres & _ & _ & _ & Hself
                       & _ & Hpay).
    apply integralCost_Ok in Hcost; [|lia]. destruct Hcost as (_ & _ & [Hu0 _] & _).
    pose proof (ERC20_wf_transfer _ _ _ _ _ Hu Hu0 Hpay) as Hu'.
    apply ERC20_transfer_Ok in Hpay; [|assumption].
    destruct Hpay as (_ & _ & _ & _ & Hmove).
    destruct (Hmove Hu (not_eq_sym Hc)) as [_ Hfrom].
    assert (Heq : ERC20.balanceOf (Curve.usdc w') (Curve.self w')
                  - Curve.reserveBalance w'
                  = ERC20.balanceOf (Curve.usdc w) (Curve.self w)
                    - Curve.reserveBalance w)
      by (rewrite Hself, Hfrom, Hres; lia).
    split; [exact Heq|]. split; [|exact Hu'].
    unfold curve_backed. lia.
Qed.

Lemma wf_curve_usdc : ERC20.wf Scenario.curve_usdc.
Proof.
  split; [|split].
  - unfold Scenario.curve_usdc. simpl.
    repeat (apply map_Forall_insert_2; [vm_compute; discriminate|]).
    apply map_Forall_empty.
  - vm_compute. reflexivity.
  - vm_compute. split; discriminate.
Qed.

Lemma trades_keep_reserve_backed_witness :
  ERC20.balanceOf (Curve.usdc Scenario.curve_buy1M) (Curve.self Scenario.curve_buy1M)
  - Curve.reserveBalance Scenario.curve_buy1M
  = ERC20.balanceOf (Curve.usdc Scenario.curve0) (Curve.self Scenario.curve0)
    - Curve.reserveBalance Scenario.curve0 /\
  (curve_backed Scenario.curve0 -> curve_backed Scenario.curve_buy1M) /\
  ERC20.wf (Curve.usdc Scenario.curve_buy1M).
Proof.
  assert (Hs : 0 <= Curve.totalSupply Scenario.curve0 <= MAX_UINT256)
    by (vm_compute; split; discriminate).
  apply (proj1 (trades_keep_reserve_backed Scenario.curve0 wf_curve_usdc Hs)
           Scenario.alice Scenario.ONE_USDC 13177446 Scenario.curve_buy1M).
  - vm_compute. discriminate.
  - apply uint256_ONE_USDC.
  - vm_compute. reflexivity.
Defined.

(** In a solvent state the cost of any range below the supply is
    computed without a revert and the reserve covers it. *)
Lemma solvent_covers_range w lo :
  Curve.solvent w -> 0 <= lo <= Curve.totalSupply w ->
  exists c, Curve._integralCost lo (Curve.totalSupply w) = Ok c /\
            0 <= c <= Curve.reserveBalance w.
Proof.
  intros (Hent & Hs & Hr & Hinv) Hlo.
  set (s := Curve.totalSupply w) in *. set (R := Curve.reserveBalance w) in *.
  unfold Curve.integral_x2S2 in Hinv.
  assert (Hss : 0 <= s * s) by nia.
  assert (Hl0 : 0 <= Curve.BASE_PRICE * (s - lo) / Curve.SCALE).
  { apply Z.div_pos; [unfold Curve.BASE_PRICE; lia | reflexivity]. }
  assert (Hq0 : 0 <= Curve.SLOPE * (s + lo) * (s - lo) / (2 * Curve.SCALE * Curve.SCALE)).
  { apply Z.div_pos; [unfold Curve.SLOPE; nia | reflexivity]. }
  assert (Hsum : Curve.BASE_PRICE * (s - lo) / Curve.SCALE
                 + Curve.SLOPE * (s + lo) * (s - lo) / (2 * Curve.SCALE * Curve.SCALE)
                 <= R).
  { pose proof (Z.mul_div_le (Curve.BASE_PRICE * (s - lo)) Curve.SCALE eq_refl) as H1.
    pose proof (Z.mul_div_le (Curve.SLOPE * (s + lo) * (s - lo))
                  (2 * Curve.SCALE * Curve.SCALE) eq_refl) as H2.
    assert (Hexp : Curve.SLOPE * (s + lo) * (s - lo) <= Curve.SLOPE * s * s)
      by (unfold Curve.SLOPE; nia).
    unfold Curve.SCALE, Curve.BASE_PRICE, Curve.SLOPE in *. lia. }
  eexists. split.
  - apply integralCost_fits; try lia.
    unfold Curve.SLOPE, Curve.SCALE, Curve.BASE_PRICE in *.
    rewrite MAX_UINT256_eq in *.
    destruct (Z.le_gt_cases s (2 ^ 200)) as [Hsmall | Hbig].
    + change (2 ^ 200) with 1606938044258990275541962092341162602522202993782792835301376 in Hsmall.
      lia.
    + assert (2 ^ 200 * s <= s * s) by nia.
      change (2 ^ 200) with 1606938044258990275541962092341162602522202993782792835301376 in *.
      lia.
  - lia.
Qed.

(** The quote for a sale within the seller's balance, in a solvent
    state. *)
Lemma sell_quote_within_reserve w c n :
  Curve.solvent w -> ERC20.wf (Curve.token w) ->
  0 < n <= Curve.balanceOf w c ->
  exists u, Curve.getSellReturn n w = Ok u /\
            0 <= u <= Curve.reserveBalance w.
Proof.
  intros Hsolv Htk Hn.
  assert (Hle : n <= Curve.totalSupply w).
  { pose proof (wf_balance_le (Curve.token w) c Htk).
    unfold Curve.balanceOf, Curve.totalSupply in *. lia. }
  assert (Hs0 : 0 <= Curve.totalSupply w) by (destruct Hsolv as (_ & ? & _); lia).
  destruct (solvent_covers_range w (Curve.totalSupply w - n) Hsolv ltac:(lia))
    as (u & Hcost & Hu).
  exists u. split; [|exact Hu].
  unfold Curve.getSellReturn. destruct (Z.eqb_spec n 0); [lia|]. cbv zeta.
  destruct (Z.ltb_spec (Curve.totalSupply w) n); [lia|].
  rewrite sub_chk_fits by lia. exact Hcost.
Qed.

(** A sale whose quote the reserve and the USDC held cover. *)
Lemma sell_runs w c n u :
  Curve.entered w = false -> curve_backed w ->
  c <> 0%N -> Curve.self w <> 0%N ->
  0 < n <= Curve.balanceOf w c ->
  Curve.getSellReturn n w = Ok u -> 0 <= u <= Curve.reserveBalance w ->
  (0 < u -> exists w', Curve.sell c n w = Ok (u, w')) /\
  (u = 0 -> Curve.sell c n w = Err ZeroAmount).
Proof.
  intros Hent Hback Hc Hself Hn Hret Hu.
  assert (Hhead : forall k : Z -> Curve.State -> result (Z * Curve.State),
            Curve.nonReentrant (fun w0 =>
              if n =? 0 then Err ZeroAmount else
              if Curve.balanceOf w0 c <? n
              then Err (InsufficientTokens n (Curve.balanceOf w0 c)) else
              usdcAmount <~ Curve.getSellReturn n w0 ;; k usdcAmount w0) w
            = (r <~ k u (Curve.set_entered true w) ;;
               Ok (fst r, Curve.set_entered false (snd r)))).
  { intros k. unfold Curve.nonReentrant. rewrite Hent.
    destruct (Z.eqb_spec n 0); [lia|].
    change (Curve.balanceOf (Curve.set_entered true w) c) with (Curve.balanceOf w c).
    destruct (Z.ltb_spec (Curve.balanceOf w c) n); [lia|].
    change (Curve.getSellReturn n (Curve.set_entered true w))
      with (Curve.getSellReturn n w).
    rewrite Hret. reflexivity. }
  unfold Curve.sell. rewrite Hhead. split.
  - intros Hpos. destruct (Z.eqb_spec u 0); [lia|].
    destruct (ERC20_burn_succeeds c n (Curve.token w) Hc (proj2 Hn)) as [tk Htk'].
    destruct (ERC20_transfer_succeeds (Curve.self w) c u (Curve.usdc w) Hself Hc)
      as [us Hus]; [unfold curve_backed in Hback; lia|].
    unfold Curve._burn. simpl. rewrite Htk'. simpl.
    rewrite sub_chk_fits by lia. simpl.
    unfold Curve.safeTransfer. simpl. rewrite Hus. simpl.
    eexists. reflexivity.
  - intros ->. reflexivity.
Qed.

(** X15.  Tokens can always be sold back.  In a solvent state whose
    reserve is backed by the USDC the market holds, any holder may sell
    any amount [0 < n <= balance]: [getSellReturn(n)] returns some [u]
    within the reserve; if [u] is positive the sale succeeds and pays
    [u], and if [u] is zero the sale is rejected with [ZeroAmount]. *)
Theorem holder_can_always_sell w c n :
  Curve.solvent w -> curve_backed w -> ERC20.wf (Curve.token w) ->
  c <> 0%N -> Curve.self w <> 0%N ->
  0 < n <= Curve.balanceOf w c ->
  exists u, Curve.getSellReturn n w = Ok u /\
            0 <= u <= Curve.reserveBalance w /\
            (0 < u -> exists w', Curve.sell c n w = Ok (u, w')) /\
            (u = 0 -> Curve.sell c n w = Err ZeroAmount).
Proof.
  intros Hsolv Hback Htk Hc Hself Hn.
  destruct (sell_quote_within_reserve w c n Hsolv Htk Hn) as (u & Hret & Hu).
  exists u. split; [exact Hret|]. split; [exact Hu|].
  apply sell_runs; try assumption. apply Hsolv.
Qed.

Lemma holder_can_always_sell_witness :
  exists u, Curve.getSellReturn 10 Scenario.curve_buy1M = Ok u /\
            0 <= u <= Curve.reserveBalance Scenario.curve_buy1M /\
            (0 < u -> exists w', Curve.sell Scenario.alice 10 Scenario.curve_buy1M
                                 = Ok (u, w')) /\
            (u = 0 -> Curve.sell Scenario.alice 10 Scenario.curve_buy1M
                      = Err ZeroAmount).
Proof.
  apply (holder_can_always_sell Scenario.curve_buy1M Scenario.alice 10).
  - exact (solvent_reachable _ _ _ reach_curve_buy1M).
  - vm_compute. discriminate.
  - exact (curve_token_wf_reachable _ _ _ reach_curve_buy1M).
  - vm_compute. discriminate.
  - vm_compute. discriminate.
  - vm_compute. split; [reflexivity | discriminate].
Defined.

(** * The market-maker bot *)

(** ** The pre-flight check against the contracts *)


(** X16.  What the pre-flight check blocks for want of funds does revert.
    When the amount parses to a positive [a] and [validateAction] still
    blocks the action, then the call it would have sent reverts in every
    contract state in which the figure the check looked at is as it was
    read: [deployFunds(a)] when the vault's liquidity is below [a],
    [buy(a)] and [returnFunds(a)] when the wallet's USDC is below [a],
    [sell(a)] when the wallet holds no tokens.  A report and a wait are
    never blocked at that point. *)
Theorem preflight_blocks_only_reverting_calls parseUnits act st s a :
  Bot.amount act = Some s -> s <> String.EmptyString ->
  parseUnits s (Bot.decimals_of (Bot.action act)) = Some a -> 0 < a ->
  Bot.validateAction parseUnits act st <> None ->
  match Bot.action act with
  | Bot.deploy_funds => forall c w,
      Vault.availableLiquidity w = Bot.vaultAvailableLiquidity st ->
      exists e, Vault.deployFunds c a w = Err e
  | Bot.buy_rsim => forall c w,
      ERC20.balanceOf (Curve.usdc w) c = Bot.mmUsdcBalance st ->
      exists e, Curve.buy c a w = Err e
  | Bot.sell_rsim => forall c w,
      Curve.balanceOf w c = Bot.mmRsimBalance st ->
      exists e, Curve.sell c a w = Err e
  | Bot.return_funds => forall c w,
      ERC20.balanceOf (Vault.USDC w) c = Bot.mmUsdcBalance st ->
      exists e, Vault.returnFunds c a w = Err e
  | Bot.report_pnl | Bot.wait => False
  end.
Proof.
  intros Hs Hne Hp Ha. unfold Bot.validateAction, Bot.no_amount. rewrite Hs. simpl.
  destruct (String.eqb_spec s String.EmptyString) as [|_]; [contradiction|].
  destruct (Bot.action act) eqn:Hact; unfold Bot.decimals_of in Hp; rewrite ?Hp;
    try (destruct (Z.leb_spec a 0); [lia|]);
    try (intros Hnone; apply Hnone; reflexivity).
  - destruct (Z.ltb_spec (Bot.vaultAvailableLiquidity st) a) as [Hlt|];
      [| intros Hnone; contradiction Hnone; reflexivity].
    intros _ c w Hliq. unfold Vault.deployFunds.
    destruct (Vault.onlyOwner c w); simpl; [|eauto].
    destruct (Z.eqb_spec a 0); [eauto|]. rewrite Hliq.
    destruct (Z.ltb_spec (Bot.vaultAvailableLiquidity st) a); [eauto | lia].
  - destruct (Z.ltb_spec (Bot.mmUsdcBalance st) a) as [Hlt|];
      [| intros Hnone; contradiction Hnone; reflexivity].
    intros _ c w Hbal.
    destruct (Curve.buy c a w) as [[t w']|e] eqn:Hbuy; [exfalso | eauto].
    apply buy_Ok_usdc in Hbuy. destruct Hbuy as (Hpull & _).
    apply ERC20_transferFrom_Ok in Hpull; [|lia]. lia.
  - destruct (Z.eqb_spec (Bot.mmRsimBalance st) 0) as [Hz|];
      [| intros Hnone; contradiction Hnone; reflexivity].
    intros _ c w Hbal. unfold Curve.sell, Curve.nonReentrant.
    destruct (Curve.entered w); [eauto|].
    destruct (Z.eqb_spec a 0); [lia|].
    change (Curve.balanceOf (Curve.set_entered true w) c) with (Curve.balanceOf w c).
    destruct (Z.ltb_spec (Curve.balanceOf w c) a); [simpl; eauto | lia].
  - destruct (Z.ltb_spec (Bot.mmUsdcBalance st) a) as [Hlt|];
      [| intros Hnone; contradiction Hnone; reflexivity].
    intros _ c w Hbal.
    destruct (Vault.returnFunds c a w) as [[[] w']|e] eqn:Hret; [exfalso | eauto].
    apply returnFunds_Ok_state in Hret. destruct Hret as (u & Hpull & _).
    apply ERC20_transferFrom_Ok in Hpull; [|lia]. lia.
Qed.

Lemma preflight_blocks_only_reverting_calls_witness :
  exists e,
    Vault.deployFunds Scenario.operator 2000000000 Scenario.vault_deposited = Err e.
Proof.
  assert (Hblocked :
    Bot.validateAction BotScenario.parseUnits
      (BotScenario.decide Bot.deploy_funds "2000"%string) BotScenario.reading <> None)
    by (vm_compute; discriminate).
  assert (Hpos : 0 < 2000000000) by lia.
  assert (Hne : "2000"%string <> String.EmptyString) by discriminate.
  exact (preflight_blocks_only_reverting_calls BotScenario.parseUnits
           (BotScenario.decide Bot.deploy_funds "2000"%string) BotScenario.reading
           "2000"%string 2000000000 eq_refl Hne eq_refl Hpos Hblocked
           Scenario.operator Scenario.vault_deposited eq_refl).
Defined.



(** ** The clamped sale *)

(** X18.  [sellRSIM] never asks for more than the wallet holds.  With a
    positive parsed amount [a], [sellRSIM] sends nothing when the wallet
    holds no tokens, and otherwise calls [sell] with [min(a, balance)]; on
    a solvent, backed market that call either succeeds with a positive
    payout or is rejected with [ZeroAmount] because the payout rounds to
    zero: it is never rejected with [InsufficientTokens]. *)
Theorem clamped_sell_goes_through parseUnits mm s a w :
  Curve.solvent w -> curve_backed w -> ERC20.wf (Curve.token w) ->
  mm <> 0%N -> Curve.self w <> 0%N ->
  parseUnits s Bot.RSIM_DECIMALS = Some a -> 0 < a ->
  (Curve.balanceOf w mm = 0 -> Bot.sellRSIM parseUnits mm s w = None) /\
  (Curve.balanceOf w mm <> 0 ->
     let n := Z.min a (Curve.balanceOf w mm) in
     0 < n /\
     Bot.sellRSIM parseUnits mm s w = Some (Curve.sell mm n w) /\
     ((exists u w', Curve.sell mm n w = Ok (u, w') /\ 0 < u) \/
      Curve.sell mm n w = Err ZeroAmount)).
Proof.
  intros Hsolv Hback Htk Hmm Hself Hp Ha.
  unfold Bot.sellRSIM. rewrite Hp. cbv zeta. split.
  - intros ->. reflexivity.
  - intros Hb. destruct (Z.eqb_spec (Curve.balanceOf w mm) 0); [contradiction|].
    pose proof (wf_balance_nonneg (Curve.token w) mm Htk) as Hb0.
    fold (Curve.balanceOf w mm) in Hb0.
    assert (Hmin : (if Curve.balanceOf w mm <? a then Curve.balanceOf w mm else a)
                   = Z.min a (Curve.balanceOf w mm)).
    { destruct (Z.ltb_spec (Curve.balanceOf w mm) a); lia. }
    rewrite Hmin.
    assert (Hn : 0 < Z.min a (Curve.balanceOf w mm) <= Curve.balanceOf w mm) by lia.
    split; [lia|]. split; [reflexivity|].
    destruct (sell_quote_within_reserve w mm _ Hsolv Htk Hn) as (u & Hret & Hu).
    destruct (sell_runs w mm _ u (proj1 Hsolv) Hback Hmm Hself Hn Hret Hu)
      as [Hpos Hzero].
    destruct (Z.eq_dec u 0) as [Hu0|Hu0].
    + right. apply Hzero. exact Hu0.
    + left. destruct Hpos as [w' Hw']; [lia|]. exists u, w'. split; [exact Hw' | lia].
Qed.

Lemma clamped_sell_goes_through_witness :
  (Curve.balanceOf Scenario.curve_buy1M Scenario.alice = 0 ->
   Bot.sellRSIM BotScenario.parseUnits Scenario.alice "20"%string Scenario.curve_buy1M
   = None) /\
  (Curve.balanceOf Scenario.curve_buy1M Scenario.alice <> 0 ->
     let n := Z.min 20000000 (Curve.balanceOf Scenario.curve_buy1M Scenario.alice) in
     0 < n /\
     Bot.sellRSIM BotScenario.parseUnits Scenario.alice "20"%string Scenario.curve_buy1M
     = Some (Curve.sell Scenario.alice n Scenario.curve_buy1M) /\
     ((exists u w', Curve.sell Scenario.alice n Scenario.curve_buy1M = Ok (u, w')
                    /\ 0 < u) \/
      Curve.sell Scenario.alice n Scenario.curve_buy1M = Err ZeroAmount)).
Proof.
  apply (clamped_sell_goes_through BotScenario.parseUnits Scenario.alice "20"%string
           20000000 Scenario.curve_buy1M).
  - exact (solvent_reachable _ _ _ reach_curve_buy1M).
  - vm_compute. discriminate.
  - exact (curve_token_wf_reachable _ _ _ reach_curve_buy1M).
  - discriminate.
  - discriminate.
  - vm_compute. reflexivity.
  - lia.
Defined.

(** ** The action log *)

Lemma tl_skipn {A} (l : list A) : tl l = skipn 1 l.
Proof. destruct l; reflexivity. Qed.

Lemma lastn_length_le {A} (n : nat) (l : list A) :
  (length (lastn n l) <= n)%nat.
Proof. unfold lastn. rewrite length_skipn. lia. Qed.

Lemma lastn_app_lastn {A} (n : nat) (l m : list A) :
  lastn n (lastn n l ++ m) = lastn n (l ++ m).
Proof.
  unfold lastn. rewrite !skipn_app, !length_app, !length_skipn, skipn_skipn.
  f_equal; f_equal; lia.
Qed.

Lemma lastn_all {A} (n : nat) (l : list A) :
  (length l <= n)%nat -> lastn n l = l.
Proof.
  intros H. unfold lastn. replace (length l - n)%nat with 0%nat by lia. reflexivity.
Qed.

Lemma addRecord_records now r d :
  (length (History.records d) <= History.MAX_SIZE)%nat ->
  History.records (History.addRecord now r d)
  = lastn History.MAX_SIZE
      (History.records d
       ++ [History.mkTradeRecord now (History.cycleCounter d) (History.action r)
             (History.params r) (History.result r) (History.txHash r)
             (History.note r)]).
Proof.
  intros Hlen. unfold History.addRecord. cbv zeta. simpl History.records.
  set (pushed := History.records d ++ [_]).
  assert (Hp : length pushed = S (length (History.records d)))
    by (unfold pushed; rewrite length_app; simpl; lia).
  unfold lastn. rewrite Hp.
  destruct (Nat.ltb_spec History.MAX_SIZE (S (length (History.records d)))) as [Hfull|Hroom].
  - rewrite tl_skipn. f_equal. lia.
  - replace (S (length (History.records d)) - History.MAX_SIZE)%nat with 0%nat by lia.
    reflexivity.
Qed.

Lemma incr_range c : 0 <= c <= 2 ^ 53 -> c <= History.incr c <= 2 ^ 53.
Proof.
  intros Hc. unfold History.incr. destruct (Z.ltb_spec c (2 ^ 53)); lia.
Qed.

(** X19.  The log keeps the most recent [MAX_SIZE] records.  Starting
    from a log of at most [MAX_SIZE] records, after any run of
    [nextCycle] and [addRecord] the log holds exactly the last
    [MAX_SIZE] of the records it started with followed by the records
    added, oldest first and each stamped with the cycle counter at the
    time it was added; the counter never decreases. *)
Theorem log_keeps_latest_records ops d :
  (length (History.records d) <= History.MAX_SIZE)%nat ->
  0 <= History.cycleCounter d <= 2 ^ 53 ->
  History.records (History.run ops d)
    = lastn History.MAX_SIZE
        (History.records d ++ emitted ops (History.cycleCounter d)) /\
  (length (History.records (History.run ops d)) <= History.MAX_SIZE)%nat /\
  History.cycleCounter d <= History.cycleCounter (History.run ops d) <= 2 ^ 53.
Proof.
  revert d. induction ops as [|op ops IH]; intros d Hlen Hc.
  - simpl. rewrite app_nil_r, lastn_all by assumption. repeat split; lia.
  - destruct op as [|now r].
    + destruct (IH (snd (History.nextCycle d))) as (Hrec & Hbound & Hcnt);
        [exact Hlen | simpl; pose proof (incr_range _ Hc); lia |].
      simpl in Hcnt. pose proof (incr_range _ Hc).
      split; [exact Hrec|]. split; [exact Hbound|]. simpl. lia.
    + pose proof (addRecord_records now r d Hlen) as Hadd.
      destruct (IH (History.addRecord now r d)) as (Hrec & Hbound & Hcnt).
      * rewrite Hadd. apply lastn_length_le.
      * exact Hc.
      * split; [| split; [exact Hbound | exact Hcnt]].
        change (History.run (History.AddRecord now r :: ops) d)
          with (History.run ops (History.addRecord now r d)).
        rewrite Hrec, Hadd. simpl History.cycleCounter.
        rewrite lastn_app_lastn, <- app_assoc. reflexivity.
Qed.

Lemma log_keeps_latest_records_witness :
  History.records
    (History.run
       (repeat (History.AddRecord "t"%string (BotScenario.entry "wait"%string)) 25
        ++ [History.NextCycle;
            History.AddRecord "u"%string (BotScenario.entry "buy_rsim"%string)])
       History.empty)
    = lastn History.MAX_SIZE
        (History.records History.empty
         ++ emitted
              (repeat (History.AddRecord "t"%string (BotScenario.entry "wait"%string)) 25
               ++ [History.NextCycle;
                   History.AddRecord "u"%string (BotScenario.entry "buy_rsim"%string)])
              (History.cycleCounter History.empty)) /\
  (length (History.records
             (History.run
                (repeat (History.AddRecord "t"%string (BotScenario.entry "wait"%string)) 25
                 ++ [History.NextCycle;
                     History.AddRecord "u"%string (BotScenario.entry "buy_rsim"%string)])
                History.empty)) <= History.MAX_SIZE)%nat /\
  History.cycleCounter History.empty
  <= History.cycleCounter
       (History.run
          (repeat (History.AddRecord "t"%string (BotScenario.entry "wait"%string)) 25
           ++ [History.NextCycle;
               History.AddRecord "u"%string (BotScenario.entry "buy_rsim"%string)])
          History.empty)
  <= 2 ^ 53.
Proof.
  apply log_keeps_latest_records.
  - simpl. lia.
  - simpl. lia.
Defined.

(** ** The prompt and the pre-flight check *)



